(** * DNSherpa: host discovery and DNS record synthesis

    A shallow embedding of the record-synthesis code of the etcd client
    and of the discovery code of proxmox.go and docker.go, with the
    configuration of config.go, together with the properties of the key
    layout, of the address selection and of the store writes.

    Go strings are byte sequences: they are modelled as [string], one
    [ascii] per byte.  Slices are lists.  The etcd store is a finite map
    from keys to values; every call that leaves the process (a store
    write, a Docker or Proxmox API query) is recorded in a trace.  The
    queries of the monitoring loops (the listings of nodes and guests, the
    version, the inspection of a container) are answered from a table and
    leave no event.  Log lines are left out. *)

From Stdlib Require Import ZArith Ascii String List Lia Permutation.
From stdpp Require Import base option list strings gmap pretty.

Local Open Scope string_scope.

(** ** Go's [strings] package (the functions the program calls) *)

Module strings.

(** [s[n:]] *)
Fixpoint drop (n : nat) (s : string) : string :=
  match n, s with
  | O, _ => s
  | S _, EmptyString => EmptyString
  | S n', String _ s' => drop n' s'
  end.

(** [IndexByte(s, c) >= 0] *)
Fixpoint hasByte (c : ascii) (s : string) : bool :=
  match s with
  | EmptyString => false
  | String a s' => Ascii.eqb a c || hasByte c s'
  end.

Definition HasPrefix (s pre : string) : bool := String.prefix pre s.

Definition TrimPrefix (s pre : string) : string :=
  if HasPrefix s pre then drop (String.length pre) s else s.

Fixpoint Contains (s substr : string) : bool :=
  String.prefix substr s ||
  match s with
  | EmptyString => false
  | String _ s' => Contains s' substr
  end.

(** [Split s sep] for a non-empty separator: the substrings between the
    successive non-overlapping occurrences of [sep], scanning from the
    left.  [skip] counts the bytes of a separator occurrence that are
    still to be stepped over.  (Every call in the program passes a
    one-byte separator.) *)
Fixpoint Split_go (sep : string) (skip : nat) (s : string) : list string :=
  match s with
  | EmptyString => [EmptyString]
  | String a s' =>
      match skip with
      | S k => Split_go sep k s'
      | O =>
          if String.prefix sep s
          then EmptyString :: Split_go sep (String.length sep - 1) s'
          else match Split_go sep 0 s' with
               | [] => [String a EmptyString]
               | p :: ps => String a p :: ps
               end
      end
  end.

Definition Split (s sep : string) : list string := Split_go sep 0 s.

Definition Join (elems : list string) (sep : string) : string :=
  String.concat sep elems.

(** The byte sequences of the code points for which [unicode.IsSpace]
    holds: the six ASCII ones and the UTF-8 encodings of U+0085, U+00A0,
    U+1680, U+2000..U+200A, U+2028, U+2029, U+202F, U+205F, U+3000. *)
Definition bytes (l : list nat) : string :=
  fold_right (fun n s => String (ascii_of_nat n) s) EmptyString l.

Definition spaces : list string :=
  map bytes
    ([[9]; [10]; [11]; [12]; [13]; [32];
      [194; 133]; [194; 160]; [225; 154; 128]] ++
     map (fun k => [226; 128; 128 + k]) (seq 0 11) ++
     [[226; 128; 168]; [226; 128; 169]; [226; 128; 175];
      [226; 129; 159]; [227; 128; 128]])%nat%list.

(** Length of the white-space rune at the start of [s], if any. *)
Definition leadingSpace (s : string) : option nat :=
  String.length <$> find (fun sp => String.prefix sp s) spaces.

Fixpoint TrimLeft_go (fuel : nat) (s : string) : string :=
  match fuel with
  | O => s
  | S fuel' =>
      match leadingSpace s with
      | Some n => TrimLeft_go fuel' (drop n s)
      | None => s
      end
  end.

Definition TrimLeft (s : string) : string := TrimLeft_go (String.length s) s.

(** A white-space rune at the end of [s] is one at the start of the
    reversed string, with its bytes reversed. *)
Definition trailingSpace (r : string) : option nat :=
  String.length <$> find (fun sp => String.prefix (String.rev sp) r) spaces.

Fixpoint TrimRight_go (fuel : nat) (r : string) : string :=
  match fuel with
  | O => r
  | S fuel' =>
      match trailingSpace r with
      | Some n => TrimRight_go fuel' (drop n r)
      | None => r
      end
  end.

Definition TrimRight (s : string) : string :=
  String.rev (TrimRight_go (String.length s) (String.rev s)).

Definition TrimSpace (s : string) : string := TrimRight (TrimLeft s).

End strings.

(** ** Go's [net] package: IP literals

    [net.ParseIP] and [IP.To4] belong to the Go standard library.  The
    model follows [netip.ParseAddr], on which [net.ParseIP] is built: an
    address is returned in its 16-byte form, an IPv4 address as the
    IPv4-mapped IPv6 address, and a literal with a zone is rejected. *)

Module net.

Definition IP := list N.

Definition byte_of (c : ascii) : N := N_of_ascii c.

Definition isDigit (c : ascii) : bool :=
  ((48 <=? byte_of c) && (byte_of c <=? 57))%N.

Definition hexval (c : ascii) : option N :=
  let b := byte_of c in
  if ((48 <=? b) && (b <=? 57))%N then Some (b - 48)%N
  else if ((97 <=? b) && (b <=? 102))%N then Some (b - 97 + 10)%N
  else if ((65 <=? b) && (b <=? 70))%N then Some (b - 65 + 10)%N
  else None.

(** [parseIPv4Fields]: dotted decimal, four fields of at most 255, no
    leading zero.  [first] is [i == 0], [prevDot] is [s[i-1] == '.'],
    [fields] holds the [pos] fields read so far. *)
Fixpoint parseIPv4Fields_go (s : string) (first prevDot : bool)
    (val digLen : N) (fields : list N) : option (list N) :=
  match s with
  | EmptyString =>
      if (length fields <? 3)%nat then None else Some (fields ++ [val])%list
  | String c s' =>
      if isDigit c then
        if ((digLen =? 1) && (val =? 0))%N then None
        else
          let val' := (val * 10 + (byte_of c - 48))%N in
          if (255 <? val')%N then None
          else parseIPv4Fields_go s' false false val' (digLen + 1)%N fields
      else if Ascii.eqb c "." then
        if first || (match s' with EmptyString => true | _ => false end) || prevDot
        then None
        else if (length fields =? 3)%nat then None
        else parseIPv4Fields_go s' false true 0%N 0%N (fields ++ [val])%list
      else None
  end.

Definition parseIPv4Fields (s : string) : option (list N) :=
  parseIPv4Fields_go s true false 0%N 0%N [].

Definition v4InV6Prefix : list N :=
  (replicate 10 0 ++ [255; 255])%N%list.

Definition parseIPv4 (s : string) : option IP :=
  fields ← parseIPv4Fields s; Some (v4InV6Prefix ++ fields)%list.

(** One group of hexadecimal digits: its value, the number of digits and
    the rest of the string; [None] on a fifth digit. *)
Fixpoint hexGroup (s : string) (off : nat) (acc : N) : option (N * nat * string) :=
  match s with
  | EmptyString => Some (acc, off, s)
  | String c s' =>
      match hexval c with
      | None => Some (acc, off, s)
      | Some v =>
          let acc' := (acc * 16 + v)%N in
          if (3 <? off)%nat then None
          else if (65535 <? acc')%N then None
          else hexGroup s' (S off) acc'
      end
  end.

(** The loop of [parseIPv6]: [ip] holds the [i] bytes parsed so far,
    [ellipsis] the position of the [::].  The result is the bytes, the
    position of the ellipsis and the unparsed rest. *)
Fixpoint parseIPv6_loop (fuel : nat) (s : string) (ip : list N)
    (ellipsis : option nat) : option (list N * option nat * string) :=
  match fuel with
  | O => Some (ip, ellipsis, s)
  | S fuel' =>
      if (16 <=? length ip)%nat then Some (ip, ellipsis, s)
      else
        '(acc, off, rest) ← hexGroup s 0 0%N;
        if (off =? 0)%nat then None
        else
          match rest with
          | String "." _ =>
              if (match ellipsis with None => true | _ => false end)
                 && negb (length ip =? 12)%nat then None
              else if (16 <? length ip + 4)%nat then None
              else
                fields ← parseIPv4Fields s;
                Some ((ip ++ fields)%list, ellipsis, EmptyString)
          | _ =>
              let ip' := (ip ++ [(acc / 256)%N; (acc mod 256)%N])%list in
              match rest with
              | EmptyString => Some (ip', ellipsis, EmptyString)
              | String c rest1 =>
                  if negb (Ascii.eqb c ":") then None
                  else
                    match rest1 with
                    | EmptyString => None
                    | String ":" rest2 =>
                        match ellipsis with
                        | Some _ => None
                        | None =>
                            match rest2 with
                            | EmptyString => Some (ip', Some (length ip'), EmptyString)
                            | _ => parseIPv6_loop fuel' rest2 ip' (Some (length ip'))
                            end
                        end
                    | _ => parseIPv6_loop fuel' rest1 ip' ellipsis
                    end
              end
          end
  end.

Definition parseIPv6 (s : string) : option IP :=
  if strings.hasByte "%" s then None (* an empty zone is an error, a zone is refused *)
  else
    let '(s1, ellipsis) :=
      match s with
      | String ":" (String ":" s') => (s', Some 0%nat)
      | _ => (s, None)
      end in
    match s1, ellipsis with
    | EmptyString, Some _ => Some (replicate 16 0%N)
    | _, _ =>
        '(ip, ellipsis', rest) ← parseIPv6_loop 8 s1 [] ellipsis;
        match rest with
        | String _ _ => None
        | EmptyString =>
            if (length ip <? 16)%nat then
              match ellipsis' with
              | None => None
              | Some e =>
                  Some (take e ip ++ replicate (16 - length ip) 0%N ++ drop e ip)%list
              end
            else
              match ellipsis' with
              | Some _ => None
              | None => Some ip
              end
        end
    end.

(** [netip.ParseAddr]: the first of '.', ':' and '%' decides. *)
Fixpoint ParseAddr_scan (whole s : string) : option IP :=
  match s with
  | EmptyString => None
  | String c s' =>
      if Ascii.eqb c "." then parseIPv4 whole
      else if Ascii.eqb c ":" then parseIPv6 whole
      else if Ascii.eqb c "%" then None
      else ParseAddr_scan whole s'
  end.

Definition ParseIP (s : string) : option IP := ParseAddr_scan s s.

(** [ip.To4()]: the last four bytes of an IPv4-mapped address. *)
Definition To4 (ip : IP) : option IP :=
  if decide (length ip = 16%nat ∧ take 12 ip = v4InV6Prefix)
  then Some (drop 12 ip) else None.

End net.

(** ** Go's [encoding/json]: the encoding of a [DNSRecord] *)

Module utf8.

Definition inRange (lo hi : N) (c : ascii) : bool :=
  ((lo <=? N_of_ascii c) && (N_of_ascii c <=? hi))%N.

Definition cont : ascii -> bool := inRange 128 191.

(** The width of the multi-byte rune that starts [s], or [None] when the
    bytes there are not a valid encoding ([RuneError], width 1). *)
Definition multiByteLen (s : string) : option nat :=
  match s with
  | String b0 (String b1 rest) =>
      let b := N_of_ascii b0 in
      if inRange 194 223 b0 then
        if cont b1 then Some 2%nat else None
      else
        match rest with
        | String b2 rest' =>
            let second3 :=
              if (b =? 224)%N then inRange 160 191 b1
              else if (b =? 237)%N then inRange 128 159 b1
              else cont b1 in
            if inRange 224 239 b0 then
              if second3 && cont b2 then Some 3%nat else None
            else
              match rest' with
              | String b3 _ =>
                  let second4 :=
                    if (b =? 240)%N then inRange 144 191 b1
                    else if (b =? 244)%N then inRange 128 143 b1
                    else cont b1 in
                  if inRange 240 244 b0 && second4 && cont b2 && cont b3
                  then Some 4%nat else None
              | EmptyString => None
              end
        | EmptyString => None
        end
  | _ => None
  end.

End utf8.

Module json.

Definition hex (n : N) : ascii :=
  if (n <? 10)%N then ascii_of_N (48 + n) else ascii_of_N (97 + n - 10).

Definition dquote : ascii := ascii_of_nat 34.

(** [htmlSafeSet]: the ASCII bytes written as they are. *)
Definition htmlSafe (c : ascii) : bool :=
  let b := N_of_ascii c in
  ((32 <=? b) && (b <? 128))%N
  && negb (Ascii.eqb c dquote) && negb (Ascii.eqb c "\")
  && negb (Ascii.eqb c "<") && negb (Ascii.eqb c ">") && negb (Ascii.eqb c "&").

(** A backslash, the letter u and four hexadecimal digits. *)
Definition esc (hex4 : string) : string := String "\" (String "u" hex4).

Definition escapeASCII (c : ascii) : string :=
  let b := N_of_ascii c in
  if Ascii.eqb c "\" || Ascii.eqb c dquote then String "\" (String c EmptyString)
  else if (b =? 8)%N then String "\" "b"
  else if (b =? 12)%N then String "\" "f"
  else if (b =? 10)%N then String "\" "n"
  else if (b =? 13)%N then String "\" "r"
  else if (b =? 9)%N then String "\" "t"
  else esc ("00" +:+ String (hex (b / 16)) (String (hex (b mod 16)) EmptyString)).

(** The body of [appendString] with HTML escaping on.  [pending] counts
    the bytes of the current multi-byte rune still to be stepped over;
    they are copied when [keep] is set and dropped otherwise (the rune
    was written as an escape). *)
Fixpoint appendString_go (pending : nat) (keep : bool) (s : string) : string :=
  match s with
  | EmptyString => EmptyString
  | String c s' =>
      match pending with
      | S k =>
          if keep then String c (appendString_go k keep s')
          else appendString_go k keep s'
      | O =>
          if (N_of_ascii c <? 128)%N then
            if htmlSafe c then String c (appendString_go 0 true s')
            else escapeASCII c +:+ appendString_go 0 true s'
          else
            match utf8.multiByteLen s with
            | None => esc "fffd" +:+ appendString_go 0 true s'
            | Some n =>
                if String.prefix (strings.bytes [226; 128; 168]%nat) s
                then esc "2028" +:+ appendString_go 2 false s'
                else if String.prefix (strings.bytes [226; 128; 169]%nat) s
                then esc "2029" +:+ appendString_go 2 false s'
                else String c (appendString_go (n - 1) true s')
            end
      end
  end.

Definition quote : string := String dquote EmptyString.

Definition appendString (s : string) : string :=
  quote +:+ appendString_go 0 true s +:+ quote.

End json.

Module fmt.
(** The verb [%d] on an [int]. *)
Definition d (n : Z) : string := pretty n.
End fmt.

(** ** The etcd client: the DNS record and its JSON form *)

Record DNSRecord := { Host : string; TTL : Z }.

(** [json.Marshal(record)], following the struct tags
    [`json:"host,omitempty"`] and [`json:"ttl"`]: a [Host] that is the empty
    string is left out. *)
Definition Marshal (record : DNSRecord) : string :=
  "{" +:+
  (if decide (Host record = "") then ""
   else json.quote +:+ "host" +:+ json.quote +:+ ":" +:+ json.appendString (Host record) +:+ ",") +:+
  json.quote +:+ "ttl" +:+ json.quote +:+ ":" +:+ fmt.d (TTL record) +:+ "}".


(** ** config.go *)

(** The fields of [Config] that the modelled code reads (the etcd
    endpoints, the TLS material, the agent mode and the Proxmox
    credentials, poll interval and SSL switch are left out). *)
Record Config := {
  EtcdPrefix : string;
  DNSTarget : string;
  RecordTTL : Z;
  Domain : string;
  ProxmoxInterface : string;
  ProxmoxMultiIPv4 : string;
}.

(** The process environment ([os.Getenv]) and the content of
    [/host/hostname] ([None] when it cannot be read). *)
Record Env := {
  Getenv : string -> string;
  hostnameFile : option string;
}.

Definition getEnv (env : Env) (key defaultValue : string) : string :=
  let value := Getenv env key in
  if decide (value ≠ "") then value else defaultValue.

(** [None] stands for the fatal exits ([log.Fatal], [panic]). *)
Definition detectDNSTarget (env : Env) : option string :=
  let target := getEnv env "DNS_TARGET" "" in
  if decide (target ≠ "") then Some target
  else
    match hostnameFile env with
    | None => None
    | Some data =>
        let hostname := strings.TrimSpace data in
        if decide (hostname = "") then None
        else if strings.Contains hostname "." then Some hostname
        else
          let domain := getEnv env "DOMAIN" "" in
          if decide (domain = "") then None
          else Some (hostname +:+ "." +:+ domain)
    end.

Definition LoadConfig (env : Env) : option Config :=
  target ← detectDNSTarget env;
  Some {| EtcdPrefix := getEnv env "ETCD_PREFIX" "/skydns";
          DNSTarget := target;
          RecordTTL := 300;
          Domain := getEnv env "DOMAIN" "";
          ProxmoxInterface := getEnv env "PROXMOX_INTERFACE" "eth0";
          ProxmoxMultiIPv4 := getEnv env "PROXMOX_MULTI_IPV4" "first" |}.

(** ** The world outside the process

    The etcd store, the outcome of the store writes still to come (a
    [true] makes the next [Put] fail; a failed [Put] leaves the store as
    it is) and the trace of the calls made so far. *)

Inductive Event :=
| EvPut (key value : string) (ok : bool)
| EvContainerList
| EvNode (node : string)
| EvVirtualMachine (node : string) (vmid : Z)
| EvAgentGetNetworkIFaces (node : string) (vmid : Z)
| EvContainer (node : string) (vmid : Z)
| EvInterfaces (node : string) (vmid : Z).

Record World := {
  kv : gmap string string;
  faults : list bool;
  trace : list Event;
}.

(** Go's [error] values: the errors of the client libraries, and
    [fmt.Errorf("...: %w", err)]. *)
Inductive error :=
| ErrStore
| ErrAPI (call : string)
| Wrap (msg : string) (cause : error).

Inductive result (A : Type) :=
| Ok (a : A)
| Err (e : error).
Arguments Ok {A} a.
Arguments Err {A} e.

(** State and error: a computation runs in a world and returns a value or
    an error together with the world it leaves behind. *)
Definition M (A : Type) : Type := World -> result A * World.

Definition ret {A} (a : A) : M A := fun w => (Ok a, w).

Definition bind {A B} (m : M A) (f : A -> M B) : M B :=
  fun w =>
    match m w with
    | (Ok a, w') => f a w'
    | (Err e, w') => (Err e, w')
    end.

(** [if err != nil { return fmt.Errorf(msg + ": %w", err) }] *)
Definition wrap {A} (msg : string) (m : M A) : M A :=
  fun w =>
    match m w with
    | (Ok a, w') => (Ok a, w')
    | (Err e, w') => (Err (Wrap msg e), w')
    end.

(** [if err := m; err != nil { log ... }]: the error is logged and the
    caller goes on. *)
Definition logged (m : M unit) : M unit :=
  fun w => (Ok tt, snd (m w)).

Definition emit (e : Event) : M unit :=
  fun w => (Ok tt, {| kv := kv w; faults := faults w; trace := trace w ++ [e] |}).

Declare Scope go_scope.
Delimit Scope go_scope with go.
Notation "x <- m ;; k" := (bind m (fun x => k))
  (at level 100, m at next level, right associativity) : go_scope.
Notation "m ;;; k" := (bind m (fun _ => k))
  (at level 100, right associativity) : go_scope.
Local Open Scope go_scope.

(** ** The etcd client *)

Record EtcdClient := { ec_config : Config }.

(** [ec.client.Put(ctx, key, value)] *)
Definition Put (key value : string) : M unit :=
  fun w =>
    match faults w with
    | true :: fs =>
        (Err ErrStore,
         {| kv := kv w; faults := fs; trace := trace w ++ [EvPut key value false] |})
    | _ =>
        (Ok tt,
         {| kv := <[key := value]> (kv w); faults := tail (faults w);
            trace := trace w ++ [EvPut key value true] |})
    end.

(** The loop [for i, j := 0, len(parts)-1; i < j; i, j = i+1, j-1] that
    swaps [parts[i]] and [parts[j]]. *)
Fixpoint reverseParts_loop (fuel i j : nat) (parts : list string) : list string :=
  match fuel with
  | O => parts
  | S fuel' =>
      if (i <? j)%nat then
        match parts !! i, parts !! j with
        | Some a, Some b => reverseParts_loop fuel' (i + 1) (j - 1) (<[j := a]> (<[i := b]> parts))
        | _, _ => parts
        end
      else parts
  end.

Definition reverseParts (parts : list string) : list string :=
  reverseParts_loop (length parts) 0 (length parts - 1) parts.

(** [fmt.Sprintf("%s/%s", prefix, strings.Join(parts, "/"))] over the
    reversed labels of the host name: the [key] of [CreateDNSRecord] and
    the [basePath] of [CreateDNSRecords]. *)
Definition basePath (ec : EtcdClient) (hostname : string) : string :=
  let parts := reverseParts (strings.Split hostname ".") in
  EtcdPrefix (ec_config ec) +:+ "/" +:+ strings.Join parts "/".

(** Both branches on the target build the same record; they differ in the
    log line only.  [json.Marshal] cannot fail on a [DNSRecord]. *)
Definition CreateDNSRecord (ec : EtcdClient) (hostname : string) : M unit :=
  let key := basePath ec hostname in
  let target := DNSTarget (ec_config ec) in
  let record :=
    match net.ParseIP target with
    | Some ip => {| Host := target; TTL := RecordTTL (ec_config ec) |}
    | None => {| Host := target; TTL := RecordTTL (ec_config ec) |}
    end in
  let recordJSON := Marshal record in
  wrap ("failed to create DNS record for " +:+ hostname) (Put key recordJSON).

(** The counters are Go [int]s; they count elements of a slice and stay
    far below the 64-bit bound. *)
Fixpoint CreateDNSRecords_loop (ec : EtcdClient) (hostname base : string)
    (ips : list string) (ipv4Count ipv6Count : Z) (createdRecords : list string)
    : M (list string) :=
  match ips with
  | [] => ret createdRecords
  | ip :: rest =>
      match net.ParseIP ip with
      | Some netIP =>
          let '(ipv4Count, ipv6Count, key, recordType) :=
            match net.To4 netIP with
            | Some _ =>
                let ipv4Count := (ipv4Count + 1)%Z in
                (ipv4Count, ipv6Count, base +:+ "/a" +:+ fmt.d ipv4Count, "A")
            | None =>
                let ipv6Count := (ipv6Count + 1)%Z in
                (ipv4Count, ipv6Count, base +:+ "/aaaa" +:+ fmt.d ipv6Count, "AAAA")
            end in
          let record := {| Host := ip; TTL := RecordTTL (ec_config ec) |} in
          let recordJSON := Marshal record in
          wrap ("failed to create " +:+ recordType +:+ " record for " +:+ hostname)
               (Put key recordJSON) ;;;
          CreateDNSRecords_loop ec hostname base rest ipv4Count ipv6Count
            (createdRecords ++ [recordType +:+ "->" +:+ ip])
      | None =>
          CreateDNSRecords_loop ec hostname base rest ipv4Count ipv6Count createdRecords
      end
  end.

Definition CreateDNSRecords (ec : EtcdClient) (hostname : string) (ips : list string) : M unit :=
  CreateDNSRecords_loop ec hostname (basePath ec hostname) ips 0 0 [] ;;;
  ret tt.

(** ** proxmox.go *)

(** The objects of the go-proxmox client library, with the fields the
    program reads.  The configuration of a guest is a pointer: the library
    fills it when the guest itself is fetched, and it is nil ([None]) in
    the guests that the listings of a node return. *)
Record VirtualMachineConfig := { vmc_Tags : string }.

Record ContainerConfig := { ctc_Tags : string }.

Record VirtualMachine := {
  vm_Name : string;
  vm_Status : string;
  vm_VMID : Z;
  vm_Tags : string;
  vm_VirtualMachineConfig : option VirtualMachineConfig;
}.

Record Container := {
  ct_Name : string;
  ct_Status : string;
  ct_VMID : Z;
  ct_Tags : string;
  ct_ContainerConfig : option ContainerConfig;
}.

(** [HasTag], a method of the library.  It does not read the [Tags] of the
    guest: it looks for the tag among the semicolon-separated tags of the
    guest's configuration, and answers [false] for a guest whose
    configuration is nil. *)
Definition vm_HasTag (vm : VirtualMachine) (value : string) : bool :=
  match vm_VirtualMachineConfig vm with
  | None => false
  | Some config =>
      if decide (vmc_Tags config = "") then false
      else bool_decide (value ∈ strings.Split (vmc_Tags config) ";")
  end.

Definition ct_HasTag (container : Container) (value : string) : bool :=
  match ct_ContainerConfig container with
  | None => false
  | Some config =>
      if decide (ctc_Tags config = "") then false
      else bool_decide (value ∈ strings.Split (ctc_Tags config) ";")
  end.

(** An entry of the listing of the VMs or of the containers of a node, as
    the API sends it. *)
Record GuestEntry := {
  ge_Name : string;
  ge_Status : string;
  ge_VMID : Z;
  ge_Tags : string;
}.

(** The guest that [Node.VirtualMachines] and [Node.Containers] make of an
    entry: the fields of the entry, and no configuration. *)
Definition listedVM (entry : GuestEntry) : VirtualMachine :=
  {| vm_Name := ge_Name entry; vm_Status := ge_Status entry; vm_VMID := ge_VMID entry;
     vm_Tags := ge_Tags entry; vm_VirtualMachineConfig := None |}.

Definition listedContainer (entry : GuestEntry) : Container :=
  {| ct_Name := ge_Name entry; ct_Status := ge_Status entry; ct_VMID := ge_VMID entry;
     ct_Tags := ge_Tags entry; ct_ContainerConfig := None |}.

Record ClusterResource := {
  res_Name : string;
  res_Type : string;
  res_Status : string;
  res_VMID : Z;
  res_Node : string;
}.

Record AgentNetworkIPAddress := { IPAddress : string }.

Record AgentNetworkIface := {
  agent_Name : string;
  IPAddresses : list AgentNetworkIPAddress;
}.

Record ContainerInterface := {
  iface_Name : string;
  Inet : string;
  Inet6 : string;
}.

(** What the Proxmox API answers during one poll cycle; [false] and
    [None] are the calls that return an error. *)
Record ProxmoxAPI := {
  api_Node : string -> bool;
  api_VirtualMachine : string -> Z -> bool;
  api_AgentGetNetworkIFaces : string -> Z -> option (list AgentNetworkIface);
  api_Container : string -> Z -> bool;
  api_Interfaces : string -> Z -> option (list ContainerInterface);
}.

Record ProxmoxClient := {
  client : ProxmoxAPI;
  etcdClient : EtcdClient;
  pc_config : Config;
}.

Definition check (call : string) (ok : bool) : M unit :=
  fun w => if ok then (Ok tt, w) else (Err (ErrAPI call), w).

Definition Node (pc : ProxmoxClient) (name : string) : M unit :=
  emit (EvNode name) ;;; check "Node" (api_Node (client pc) name).

Definition VirtualMachineGet (pc : ProxmoxClient) (node : string) (vmid : Z) : M unit :=
  emit (EvVirtualMachine node vmid) ;;;
  check "VirtualMachine" (api_VirtualMachine (client pc) node vmid).

Definition ContainerGet (pc : ProxmoxClient) (node : string) (vmid : Z) : M unit :=
  emit (EvContainer node vmid) ;;;
  check "Container" (api_Container (client pc) node vmid).

(** The two interface queries: the program does not return their error,
    it falls back to the configuration, so the answer is passed on as an
    option. *)
Definition AgentGetNetworkIFaces (pc : ProxmoxClient) (node : string) (vmid : Z)
    : M (option (list AgentNetworkIface)) :=
  emit (EvAgentGetNetworkIFaces node vmid) ;;;
  ret (api_AgentGetNetworkIFaces (client pc) node vmid).

Definition Interfaces (pc : ProxmoxClient) (node : string) (vmid : Z)
    : M (option (list ContainerInterface)) :=
  emit (EvInterfaces node vmid) ;;;
  ret (api_Interfaces (client pc) node vmid).

Fixpoint getTagValue (tags : list string) (pre : string) : string :=
  match tags with
  | [] => ""
  | t :: rest =>
      let t := strings.TrimSpace t in
      if strings.HasPrefix t (pre +:+ ":") then strings.TrimPrefix t (pre +:+ ":")
      else getTagValue rest pre
  end.

Definition generateHostname (pc : ProxmoxClient) (vmName : string) : string :=
  let hostname := vmName in
  if negb (strings.Contains hostname ".") && bool_decide (Domain (pc_config pc) ≠ "")
  then hostname +:+ "." +:+ Domain (pc_config pc)
  else hostname.

(** The loop of [applyMultiIPv4Strategy]. *)
Fixpoint firstIPv4_loop (ips : list string) (result : list string) (foundIPv4 : bool)
    : list string :=
  match ips with
  | [] => result
  | ip :: rest =>
      match net.ParseIP ip with
      | Some netIP =>
          match net.To4 netIP with
          | Some _ =>
              if negb foundIPv4 then firstIPv4_loop rest (result ++ [ip]) true
              else firstIPv4_loop rest result foundIPv4
          | None => firstIPv4_loop rest (result ++ [ip]) foundIPv4
          end
      | None => firstIPv4_loop rest result foundIPv4
      end
  end.

Definition applyMultiIPv4Strategy (pc : ProxmoxClient) (ips : list string) : list string :=
  if decide (ProxmoxMultiIPv4 (pc_config pc) = "all") then ips
  else firstIPv4_loop ips [] false.

Definition extractIPsFromConfig (pc : ProxmoxClient) (resource : ClusterResource)
    : M (list string) :=
  ret [].

(** The addresses of the agent-reported interfaces named [interfaceName]
    (the qemu branch of [extractIPsFromInterface]). *)
Definition agentIPs (interfaceName : string) (interfaces : list AgentNetworkIface)
    : list string :=
  flat_map
    (fun iface =>
       if decide (agent_Name iface = interfaceName) then
         flat_map
           (fun ipAddr =>
              if bool_decide (IPAddress ipAddr ≠ "127.0.0.1")
                 && bool_decide (IPAddress ipAddr ≠ "::1")
              then [IPAddress ipAddr] else [])
           (IPAddresses iface)
       else [])
    interfaces.

(** [strings.Split(s, "/")[0]] *)
Definition beforeSlash (s : string) : string :=
  match strings.Split s "/" with
  | p :: _ => p
  | [] => ""
  end.

(** The addresses of the container interfaces named [interfaceName] (the
    lxc branch of [extractIPsFromInterface]). *)
Definition containerIPs (interfaceName : string) (interfaces : list ContainerInterface)
    : list string :=
  flat_map
    (fun iface =>
       if decide (iface_Name iface = interfaceName) then
         (if bool_decide (Inet iface ≠ "") && bool_decide (Inet iface ≠ "127.0.0.1/8")
          then [beforeSlash (Inet iface)] else [])
         ++
         (if bool_decide (Inet6 iface ≠ "")
             && negb (strings.HasPrefix (Inet6 iface) "::1/")
             && negb (strings.HasPrefix (Inet6 iface) "fe80::")
          then [beforeSlash (Inet6 iface)] else [])
       else [])%list
    interfaces.

Definition extractIPsFromInterface (pc : ProxmoxClient) (resource : ClusterResource)
    (interfaceName : string) : M (list string) :=
  Node pc (res_Node resource) ;;;
  if decide (res_Type resource = "qemu") then
    VirtualMachineGet pc (res_Node resource) (res_VMID resource) ;;;
    answer <- AgentGetNetworkIFaces pc (res_Node resource) (res_VMID resource) ;;
    match answer with
    | None => extractIPsFromConfig pc resource
    | Some interfaces =>
        ret (applyMultiIPv4Strategy pc (agentIPs interfaceName interfaces))
    end
  else if decide (res_Type resource = "lxc") then
    ContainerGet pc (res_Node resource) (res_VMID resource) ;;;
    answer <- Interfaces pc (res_Node resource) (res_VMID resource) ;;
    match answer with
    | None => extractIPsFromConfig pc resource
    | Some interfaces =>
        ret (applyMultiIPv4Strategy pc (containerIPs interfaceName interfaces))
    end
  else ret (applyMultiIPv4Strategy pc []).

(** The entries of a [dnsherpa-ip] tag that parse, trimmed. *)
Definition cleanIPs (specificIPs : string) : list string :=
  flat_map
    (fun ip =>
       let ip := strings.TrimSpace ip in
       match net.ParseIP ip with Some _ => [ip] | None => [] end)
    (strings.Split specificIPs ",").

Definition getResourceIPs (pc : ProxmoxClient) (resource : ClusterResource)
    (tags : list string) : M (list string) :=
  let specificIPs := getTagValue tags "dnsherpa-ip" in
  if decide (specificIPs ≠ "") then ret (cleanIPs specificIPs)
  else
    let interfaceName := getTagValue tags "dnsherpa-interface" in
    let interfaceName :=
      if decide (interfaceName = "") then ProxmoxInterface (pc_config pc)
      else interfaceName in
    extractIPsFromInterface pc resource interfaceName.

Definition processVM (pc : ProxmoxClient) (vm : VirtualMachine) (nodeName : string) : M unit :=
  if vm_HasTag vm "dnsherpa-skip" then ret tt
  else
    let hostname := generateHostname pc (vm_Name vm) in
    let vmTags :=
      if decide (vm_Tags vm ≠ "") then strings.Split (vm_Tags vm) ";" else [] in
    let fakeResource :=
      {| res_Name := vm_Name vm; res_Type := "qemu"; res_Status := vm_Status vm;
         res_VMID := vm_VMID vm; res_Node := nodeName |} in
    ips <- wrap ("failed to get IPs for VM " +:+ vm_Name vm)
                (getResourceIPs pc fakeResource vmTags) ;;
    if decide (length ips = 0%nat) then ret tt
    else CreateDNSRecords (etcdClient pc) hostname ips.

Definition processContainer (pc : ProxmoxClient) (container : Container) (nodeName : string)
    : M unit :=
  if ct_HasTag container "dnsherpa-skip" then ret tt
  else
    let hostname := generateHostname pc (ct_Name container) in
    let containerTags :=
      if decide (ct_Tags container ≠ "") then strings.Split (ct_Tags container) ";" else [] in
    let fakeResource :=
      {| res_Name := ct_Name container; res_Type := "lxc"; res_Status := ct_Status container;
         res_VMID := ct_VMID container; res_Node := nodeName |} in
    ips <- wrap ("failed to get IPs for container " +:+ ct_Name container)
                (getResourceIPs pc fakeResource containerTags) ;;
    if decide (length ips = 0%nat) then ret tt
    else CreateDNSRecords (etcdClient pc) hostname ips.

(** ** docker.go *)

Module regexp.

(** The class [\s] of Go's regexp syntax: tab, newline, form feed,
    carriage return and space. *)
Definition isSpace (c : ascii) : bool :=
  let b := N_of_ascii c in
  ((b =? 9) || (b =? 10) || (b =? 12) || (b =? 13) || (b =? 32))%N.

Fixpoint skipSpaces (s : string) : string :=
  match s with
  | String c s' => if isSpace c then skipSpaces s' else s
  | EmptyString => s
  end.

(** The longest prefix without a backtick, and what follows it. *)
Fixpoint spanNotBacktick (s : string) : string * string :=
  match s with
  | String c s' =>
      if Ascii.eqb c "`" then (EmptyString, s)
      else let '(h, r) := spanNotBacktick s' in (String c h, r)
  | EmptyString => (EmptyString, EmptyString)
  end.

(** A match of [Host\(\s*`([^`]+)`\s*\)] at the start of [s]: the
    captured group and the text after the match.  Every repetition of
    the pattern is followed by a byte outside its class, so the match
    at a position is unique. *)
Definition matchHost (s : string) : option (string * string) :=
  if String.prefix "Host(" s then
    match skipSpaces (strings.drop 5 s) with
    | String "`" s2 =>
        let '(host, s3) := spanNotBacktick s2 in
        if decide (host = "") then None
        else
          match s3 with
          | String "`" s4 =>
              match skipSpaces s4 with
              | String ")" s5 => Some (host, s5)
              | _ => None
              end
          | _ => None
          end
    | _ => None
    end
  else None.

(** [hostRegex.FindAllStringSubmatch(value, -1)], keeping [match[1]]:
    the leftmost match, then the search goes on after it. *)
Fixpoint FindAllHosts_go (fuel : nat) (s : string) : list string :=
  match fuel with
  | O => []
  | S fuel' =>
      match matchHost s with
      | Some (host, rest) => host :: FindAllHosts_go fuel' rest
      | None =>
          match s with
          | String _ s' => FindAllHosts_go fuel' s'
          | EmptyString => []
          end
      end
  end.

Definition FindAllHosts (s : string) : list string :=
  FindAllHosts_go (S (String.length s)) s.

End regexp.

(** A container as [ContainerList] reports it.  [Labels] is a Go map; the
    list gives its entries in the order in which this run iterates over
    them (Go fixes no order). *)
Record ContainerSummary := {
  ID : string;
  Labels : list (string * string);
}.

Record DockerClient := {
  docker_ContainerList : option (list ContainerSummary);
  dc_etcdClient : EtcdClient;
}.

Definition ContainerList (dc : DockerClient) : M (list ContainerSummary) :=
  emit EvContainerList ;;;
  fun w =>
    match docker_ContainerList dc with
    | Some containers => (Ok containers, w)
    | None => (Err (ErrAPI "ContainerList"), w)
    end.

Definition extractHostsFromLabels (labels : list (string * string)) : list string :=
  flat_map
    (fun '(key, value) =>
       if strings.Contains key "traefik.http.routers." && strings.Contains key ".rule"
       then regexp.FindAllHosts value else [])
    labels.

(** [for _, x := range xs { body(x) }] for a body that returns nothing. *)
Fixpoint forEach {A} (xs : list A) (body : A -> M unit) : M unit :=
  match xs with
  | [] => ret tt
  | x :: rest => body x ;;; forEach rest body
  end.

Definition SyncExistingContainers (dc : DockerClient) : M unit :=
  containers <- wrap "failed to list containers" (ContainerList dc) ;;
  forEach containers (fun container =>
    let hosts := extractHostsFromLabels (Labels container) in
    if (0 <? length hosts)%nat then
      forEach hosts (fun host => logged (CreateDNSRecord (dc_etcdClient dc) host))
    else ret tt).


(** ** The key of a host, read back

    The specification's reading of a key: the labels of the path under the
    prefix, in reverse order, joined by dots. *)
Definition hostnameOfPath (pre path : string) : option string :=
  if strings.HasPrefix path (pre +:+ "/") then
    Some (strings.Join
            (reverse (strings.Split (strings.TrimPrefix path (pre +:+ "/")) "/")) ".")
  else None.

(** ** Vocabulary of the statements *)

(** The family of an address string, as the program decides it:
    [net.ParseIP(ip)] succeeds and [To4()] is, or is not, nil. *)
Definition isIPv4 (ip : string) : bool :=
  match net.ParseIP ip with
  | Some netIP => bool_decide (is_Some (net.To4 netIP))
  | None => false
  end.

Definition isIPv6 (ip : string) : bool :=
  match net.ParseIP ip with
  | Some netIP => bool_decide (net.To4 netIP = None)
  | None => false
  end.

Definition isIP (ip : string) : bool := bool_decide (is_Some (net.ParseIP ip)).

(** The events that a run from [w] to [w'] added to the trace. *)
Definition newEvents (w w' : World) : list Event :=
  drop (length (trace w)) (trace w').

Definition putKeys (events : list Event) : list string :=
  omap (fun e => match e with EvPut key _ _ => Some key | _ => None end) events.

Definition putValues (events : list Event) : list string :=
  omap (fun e => match e with EvPut _ value _ => Some value | _ => None end) events.

(** The leaf segment of the address [ip] that comes after the addresses
    [earlier] of the same host: [a<N>] for the N-th IPv4 address, [aaaa<N>]
    for the N-th IPv6 address, counted from 1 within the family; none for a
    string that is no address. *)
Definition leaf (earlier : list string) (ip : string) : option string :=
  if isIPv4 ip then
    Some ("a" +:+ fmt.d (Z.of_nat (S (length (filter (fun x => isIPv4 x) earlier)))))
  else if isIPv6 ip then
    Some ("aaaa" +:+ fmt.d (Z.of_nat (S (length (filter (fun x => isIPv6 x) earlier)))))
  else None.

(** The writes expected for the addresses [rest] of a host whose addresses
    [earlier] were handled before: for each address, in order, the base
    path with its leaf, and its record. *)
Fixpoint expectedWrites (ec : EtcdClient) (hostname : string)
    (earlier rest : list string) : list Event :=
  match rest with
  | [] => []
  | ip :: rest' =>
      match leaf earlier ip with
      | Some l =>
          [EvPut (basePath ec hostname +:+ "/" +:+ l)
                 (Marshal {| Host := ip; TTL := RecordTTL (ec_config ec) |}) true]
      | None => []
      end ++ expectedWrites ec hostname (earlier ++ [ip]) rest'
  end%list.

(** The two shapes of a stored value with a TTL of 300: with the quoted
    host, and without a host. *)
Definition hostTTL (quotedHost : string) : string :=
  "{" +:+ json.quote +:+ "host" +:+ json.quote +:+ ":" +:+ quotedHost +:+ "," +:+
  json.quote +:+ "ttl" +:+ json.quote +:+ ":300}".

Definition ttlOnly : string :=
  "{" +:+ json.quote +:+ "ttl" +:+ json.quote +:+ ":300}".

Fixpoint plain (s : string) : bool :=
  match s with
  | EmptyString => true
  | String c s' => json.htmlSafe c && plain s'
  end.

(** ** Sample data *)

Definition sampleConfig (target strategy : string) : Config :=
  {| EtcdPrefix := "/skydns"; DNSTarget := target; RecordTTL := 300;
     Domain := "home.lab"; ProxmoxInterface := "eth0"; ProxmoxMultiIPv4 := strategy |}.

Definition sampleEtcd (target : string) : EtcdClient :=
  {| ec_config := sampleConfig target "first" |}.

Definition emptyWorld : World := {| kv := ∅; faults := []; trace := [] |}.

(** A cluster whose only guest, number 100 on node [pve], reports the
    given agent interfaces (as a VM) and container interfaces. *)
Definition sampleAPI (agent : list AgentNetworkIface) (ifaces : list ContainerInterface)
    : ProxmoxAPI :=
  {| api_Node := fun _ => true;
     api_VirtualMachine := fun _ _ => true;
     api_AgentGetNetworkIFaces := fun _ _ => Some agent;
     api_Container := fun _ _ => true;
     api_Interfaces := fun _ _ => Some ifaces |}.

Definition samplePC (strategy : string) (agent : list AgentNetworkIface)
    (ifaces : list ContainerInterface) : ProxmoxClient :=
  {| client := sampleAPI agent ifaces;
     etcdClient := sampleEtcd "traefik.home.lab";
     pc_config := sampleConfig "traefik.home.lab" strategy |}.

Definition sampleAgent : list AgentNetworkIface :=
  [{| agent_Name := "lo";
      IPAddresses := [{| IPAddress := "127.0.0.1" |}; {| IPAddress := "::1" |}] |};
   {| agent_Name := "eth0";
      IPAddresses := map Build_AgentNetworkIPAddress
        ["10.0.0.1"; "10.0.0.2"; "fe80::1"; "2001:db8::1"; "2001:db8::2"] |}].

Definition sampleResource (type : string) : ClusterResource :=
  {| res_Name := "web-server"; res_Type := type; res_Status := "running";
     res_VMID := 100; res_Node := "pve" |}.

(** A running VM and a running container with the given tags, as entries
    of the listings of a node. *)
Definition sampleVMEntry (tags : string) : GuestEntry :=
  {| ge_Name := "web-server"; ge_Status := "running"; ge_VMID := 100; ge_Tags := tags |}.

Definition sampleCTEntry (tags : string) : GuestEntry :=
  {| ge_Name := "db"; ge_Status := "running"; ge_VMID := 100; ge_Tags := tags |}.

Definition sampleVM (tags : string) : VirtualMachine := listedVM (sampleVMEntry tags).

Definition sampleCT (tags : string) : Container := listedContainer (sampleCTEntry tags).

(** The store after the successful writes among [events]. *)
Definition storeAfter (events : list Event) (store : gmap string string)
    : gmap string string :=
  fold_left
    (fun m e => match e with EvPut key value true => <[key := value]> m | _ => m end)
    events store.

(** The key and the value of a write, whatever its outcome. *)
Definition attempts (events : list Event) : list (string * string) :=
  omap (fun e => match e with EvPut key value _ => Some (key, value) | _ => None end)
       events.

Definition recordTypeOf (ip : string) : string :=
  if isIPv4 ip then "A" else "AAAA".

(** The counters [ipv4Count] and [ipv6Count] once the addresses [earlier]
    have been handled. *)
Definition n4 (earlier : list string) : Z :=
  Z.of_nat (length (filter (fun x => isIPv4 x) earlier)).

Definition n6 (earlier : list string) : Z :=
  Z.of_nat (length (filter (fun x => isIPv6 x) earlier)).

(** The store accepts the next [n] writes. *)
Definition accepted (n : nat) (w : World) : Prop :=
  Forall (fun b => b = false) (take n (faults w)).

(** The interface name that [getResourceIPs] resolves: the tag, else the
    configured name. *)
Definition interfaceNameOf (pc : ProxmoxClient) (tags : list string) : string :=
  let interfaceName := getTagValue tags "dnsherpa-interface" in
  if decide (interfaceName = "") then ProxmoxInterface (pc_config pc) else interfaceName.

(** The addresses that the live interface data of a resource holds for the
    interface [interfaceName]; [None] when the platform has no such data
    (the agent is not running, the query fails). *)
Definition liveAddresses (pc : ProxmoxClient) (resource : ClusterResource)
    (interfaceName : string) : option (list string) :=
  if decide (res_Type resource = "qemu") then
    agentIPs interfaceName <$>
      api_AgentGetNetworkIFaces (client pc) (res_Node resource) (res_VMID resource)
  else if decide (res_Type resource = "lxc") then
    containerIPs interfaceName <$>
      api_Interfaces (client pc) (res_Node resource) (res_VMID resource)
  else Some [].

(** The platform answers the queries that come before the interface
    query of a resource. *)
Definition reachable (pc : ProxmoxClient) (resource : ClusterResource) : Prop :=
  api_Node (client pc) (res_Node resource) = true ∧
  (res_Type resource = "qemu" →
   api_VirtualMachine (client pc) (res_Node resource) (res_VMID resource) = true) ∧
  (res_Type resource = "lxc" →
   api_Container (client pc) (res_Node resource) (res_VMID resource) = true).

(** The hosts that a sync finds, in the order in which it writes them. *)
Definition syncHosts (dc : DockerClient) : list string :=
  match docker_ContainerList dc with
  | Some containers => flat_map (fun c => extractHostsFromLabels (Labels c)) containers
  | None => []
  end.

(** Two observations of the same container state: the same containers,
    each with the same labels; the labels maps may be iterated in a
    different order. *)
Definition sameContainerState (dc dc' : DockerClient) : Prop :=
  dc_etcdClient dc = dc_etcdClient dc' ∧
  match docker_ContainerList dc, docker_ContainerList dc' with
  | Some cs, Some cs' =>
      Forall2 (fun c c' => ID c = ID c' ∧ Labels c ≡ₚ Labels c') cs cs'
  | None, None => True
  | _, _ => False
  end.

(** The world after [CreateDNSRecord] was called for each of the hosts,
    errors logged. *)
Definition putAll (ec : EtcdClient) (hosts : list string) (w : World) : World :=
  fold_left (fun w host => (CreateDNSRecord ec host w).2) hosts w.

Definition sampleDocker (labels : list (string * string)) : DockerClient :=
  {| docker_ContainerList := Some [{| ID := "c1"; Labels := labels |}];
     dc_etcdClient := sampleEtcd "traefik.home.lab" |}.

(** The world once the container list has been asked for. *)
Definition listed (w : World) : World :=
  {| kv := kv w; faults := faults w; trace := trace w ++ [EvContainerList] |}.

(** The value that [CreateDNSRecord] stores for every host. *)
Definition recordValue (ec : EtcdClient) : string :=
  Marshal {| Host := DNSTarget (ec_config ec); TTL := RecordTTL (ec_config ec) |}.

(** An environment that sets [DNS_TARGET] only. *)
Definition sampleEnv : Env :=
  {| Getenv := fun key => if decide (key = "DNS_TARGET") then "traefik.home.lab" else "";
     hostnameFile := None |}.

Ltac len :=
  repeat (progress (simpl length; rewrite ?length_app, ?length_cons)); simpl; lia.


(** ** More of Go's [strings] package *)

Module stringsx.

(** [s[:n]] *)
Fixpoint take (n : nat) (s : string) : string :=
  match n, s with
  | O, _ => EmptyString
  | S _, EmptyString => EmptyString
  | S n', String a s' => String a (take n' s')
  end.

Fixpoint HasSuffix (s suffix : string) : bool :=
  String.eqb s suffix ||
  match s with
  | EmptyString => false
  | String _ s' => HasSuffix s' suffix
  end.

Fixpoint TrimSuffix (s suffix : string) : string :=
  if String.eqb s suffix then EmptyString
  else
    match s with
    | EmptyString => s
    | String a s' => if HasSuffix s' suffix then String a (TrimSuffix s' suffix) else s
    end.

Fixpoint Repeat (s : string) (count : nat) : string :=
  match count with
  | O => EmptyString
  | S n => s +:+ Repeat s n
  end.

End stringsx.

(** ** proxmox.go: the client and the poll cycle *)

(** The URL that [NewProxmoxClient] connects to. *)
Definition apiURL (ProxmoxAPIURL : string) : string :=
  if negb (stringsx.HasSuffix ProxmoxAPIURL "/api2/json")
  then stringsx.TrimSuffix ProxmoxAPIURL "/" +:+ "/api2/json"
  else ProxmoxAPIURL.

Record NodeStatus := {
  ns_Node : string;
  ns_Status : string;
}.

(** What the Proxmox API answers to the version query and to the listing
    queries of a poll cycle ([false] and [None] are the calls that return
    an error).  These queries are not recorded in the trace. *)
Record ProxmoxListing := {
  api_Version : bool;
  api_Nodes : option (list NodeStatus);
  api_VirtualMachines : string -> option (list GuestEntry);
  api_Containers : string -> option (list GuestEntry);
}.

(** [Node.VirtualMachines] and [Node.Containers]: the guests of the
    listing of a node, each without configuration. *)
Definition VirtualMachines (listing : ProxmoxListing) (node : string)
    : option (list VirtualMachine) :=
  (fun entries : list GuestEntry => listedVM <$> entries) <$>
    api_VirtualMachines listing node.

Definition Containers (listing : ProxmoxListing) (node : string)
    : option (list Container) :=
  (fun entries : list GuestEntry => listedContainer <$> entries) <$>
    api_Containers listing node.

(** The body of the loop over the VMs of a node. *)
Definition syncVM (pc : ProxmoxClient) (node : string) (vm : VirtualMachine) : M unit :=
  if decide (vm_Status vm ≠ "running") then ret tt
  else logged (processVM pc vm node).

(** The body of the loop over the containers of a node. *)
Definition syncContainer (pc : ProxmoxClient) (node : string) (container : Container)
    : M unit :=
  if decide (ct_Status container ≠ "running") then ret tt
  else logged (processContainer pc container node).

(** The body of the loop over the nodes.  The counters of processed and
    skipped guests are only logged. *)
Definition syncNode (pc : ProxmoxClient) (listing : ProxmoxListing)
    (nodeStatus : NodeStatus) : M unit :=
  if decide (ns_Status nodeStatus ≠ "online") then ret tt
  else
    fun w =>
      match Node pc (ns_Node nodeStatus) w with
      | (Err _, w') => (Ok tt, w')
      | (Ok _, w') =>
          ((match VirtualMachines listing (ns_Node nodeStatus) with
            | None => ret tt
            | Some vms => forEach vms (syncVM pc (ns_Node nodeStatus))
            end) ;;;
           (match Containers listing (ns_Node nodeStatus) with
            | None => ret tt
            | Some containers => forEach containers (syncContainer pc (ns_Node nodeStatus))
            end)) w'
      end.

Definition syncAllResources (pc : ProxmoxClient) (listing : ProxmoxListing) : M unit :=
  match api_Nodes listing with
  | None => fun w => (Err (Wrap "failed to get nodes" (ErrAPI "Nodes")), w)
  | Some nodes => forEach nodes (syncNode pc listing)
  end.

(** [testConnection]: only the version query can fail it; the cluster and
    node queries that follow are logged. *)
Definition testConnection (pc : ProxmoxClient) (listing : ProxmoxListing) : M unit :=
  fun w =>
    if api_Version listing then (Ok tt, w)
    else (Err (Wrap "API connection test failed" (ErrAPI "Version")), w).

(** What a [select] of a monitoring loop picks, one after the other. *)
Inductive Tick :=
| TickerFired
| ContextDone.

(** How a monitoring loop stands when the picks are used up: it has
    returned (with the error of the stream, of the connection test or of
    the context), it has panicked, or it is still waiting. *)
Inductive Outcome :=
| Waiting
| Returned (err : error)
| Cancelled
| Panicked.

Fixpoint pollLoop (pc : ProxmoxClient) (listing : ProxmoxListing) (ticks : list Tick)
    (w : World) : Outcome * World :=
  match ticks with
  | [] => (Waiting, w)
  | TickerFired :: rest => pollLoop pc listing rest (logged (syncAllResources pc listing) w).2
  | ContextDone :: _ => (Cancelled, w)
  end.

(** [StartMonitoring] of a configured client ([pc.client] is not nil).
    [ProxmoxPollInterval] is [pc.config.ProxmoxPollInterval], a
    [time.Duration] in nanoseconds; [time.NewTicker] panics when it is not
    positive.  ([LoadConfig] takes the interval from [time.ParseDuration]
    and drops the error: a [PROXMOX_POLL_INTERVAL] that does not parse
    gives 0.) *)
Definition StartMonitoring (pc : ProxmoxClient) (listing : ProxmoxListing)
    (ProxmoxPollInterval : Z) (ticks : list Tick) (w : World) : Outcome * World :=
  match testConnection pc listing w with
  | (Err e, w') => (Returned (Wrap "failed to connect to Proxmox" e), w')
  | (Ok _, w') =>
      let w'' := (logged (syncAllResources pc listing) w').2 in
      if decide (ProxmoxPollInterval ≤ 0)%Z then (Panicked, w'')
      else pollLoop pc listing ticks w''
  end.

(** ** docker.go: the events *)

(** [events.Message], with the fields the program reads. *)
Record Message := {
  msg_Type : string;
  msg_Action : string;
  msg_ID : string;
}.

(** [inspect] is what [ContainerInspect] answers for a container id: the
    labels of its configuration, in the order in which the run iterates
    over them, or [None] for an error.  The query is not recorded in the
    trace. *)
Definition handleContainerEvent (dc : DockerClient)
    (inspect : string -> option (list (string * string))) (event : Message) : M unit :=
  if decide (msg_Type event ≠ "container") then ret tt
  else if decide (msg_Action event ≠ "start") then ret tt
  else
    match inspect (msg_ID event) with
    | None => ret tt
    | Some labels =>
        let hosts := extractHostsFromLabels labels in
        if decide (length hosts = 0%nat) then ret tt
        else forEach hosts (fun host => logged (CreateDNSRecord (dc_etcdClient dc) host))
    end.

(** What the [select] of [StartEventMonitoring] picks. *)
Inductive Selected :=
| SelEvent (event : Message)
| SelErr (err : option error)
| SelDone.

Fixpoint eventLoop (dc : DockerClient) (inspect : string -> option (list (string * string)))
    (script : list Selected) (w : World) : Outcome * World :=
  match script with
  | [] => (Waiting, w)
  | SelEvent event :: rest =>
      eventLoop dc inspect rest (handleContainerEvent dc inspect event w).2
  | SelErr (Some err) :: _ => (Returned err, w)
  | SelErr None :: rest => eventLoop dc inspect rest w
  | SelDone :: _ => (Cancelled, w)
  end.

Definition StartEventMonitoring (dc : DockerClient)
    (inspect : string -> option (list (string * string))) (script : list Selected)
    (w : World) : Outcome * World :=
  eventLoop dc inspect script (logged (SyncExistingContainers dc) w).2.

(** The sync of the stand-alone variant of the program: the same loops
    without the test on the number of hosts. *)
Definition syncExistingContainers (dc : DockerClient) : M unit :=
  containers <- wrap "failed to list containers" (ContainerList dc) ;;
  forEach containers (fun container =>
    let hosts := extractHostsFromLabels (Labels container) in
    forEach hosts (fun host => logged (CreateDNSRecord (dc_etcdClient dc) host))).

(** ** Vocabulary of the statements about effects *)

Definition notPut (e : Event) : Prop :=
  match e with
  | EvPut _ _ _ => False
  | _ => True
  end.

(** A computation that touches neither the store nor the outcomes of the
    writes to come, and attempts no write. *)
Definition readOnly {A} (m : M A) : Prop :=
  ∀ w, ∃ l,
    (m w).2 = {| kv := kv w; faults := faults w; trace := (trace w ++ l)%list |} ∧
    Forall notPut l.

Definition underPrefix (pre : string) (e : Event) : Prop :=
  match e with
  | EvPut key _ _ => strings.HasPrefix key (pre +:+ "/") = true
  | _ => True
  end.

(** A computation all of whose writes go to keys under [pre]. *)
Definition confined {A} (pre : string) (m : M A) : Prop :=
  ∀ w, ∃ l, trace (m w).2 = (trace w ++ l)%list ∧ Forall (underPrefix pre) l.

(** A computation that, against a store that refuses nothing, returns a
    fixed result and performs a fixed sequence of calls. *)
Definition planned {A} (m : M A) : Prop :=
  ∃ r plan, ∀ w,
    faults w = [] →
    m w = (r, {| kv := storeAfter plan (kv w); faults := [];
               trace := (trace w ++ plan)%list |}).

(** The value that the last successful write among [events] stored at
    [key], if there is one. *)
Fixpoint lastWrite (events : list Event) (key : string) : option string :=
  match events with
  | [] => None
  | e :: rest =>
      match lastWrite rest key with
      | Some v => Some v
      | None =>
          match e with
          | EvPut k v true => if decide (k = key) then Some v else None
          | _ => None
          end
      end
  end.

(** The listing without the nodes that are not online and without the
    guests that are not running. *)
Definition liveListing (listing : ProxmoxListing) : ProxmoxListing :=
  {| api_Version := api_Version listing;
     api_Nodes := filter (fun n => ns_Status n = "online") <$> api_Nodes listing;
     api_VirtualMachines := fun node =>
       filter (fun vm => ge_Status vm = "running") <$> api_VirtualMachines listing node;
     api_Containers := fun node =>
       filter (fun c => ge_Status c = "running") <$> api_Containers listing node |}.

(** A cluster of two nodes, one of them offline, with a running VM, a
    stopped VM and a running container. *)
Definition sampleListing : ProxmoxListing :=
  {| api_Version := true;
     api_Nodes := Some [{| ns_Node := "old"; ns_Status := "offline" |};
                        {| ns_Node := "pve"; ns_Status := "online" |}];
     api_VirtualMachines := fun _ =>
       Some [sampleVMEntry "web";
             {| ge_Name := "spare"; ge_Status := "stopped"; ge_VMID := 101; ge_Tags := "" |}];
     api_Containers := fun _ => Some [sampleCTEntry "db"] |}.

(** A platform on which the agent of a VM reports [10.0.0.1] and a
    container has [10.0.0.2/24], both on [eth0]. *)
Definition skipPC : ProxmoxClient :=
  samplePC "first"
    [{| agent_Name := "eth0"; IPAddresses := [{| IPAddress := "10.0.0.1" |}] |}]
    [{| iface_Name := "eth0"; Inet := "10.0.0.2/24"; Inet6 := "" |}].

(** A cluster of one node with one running VM and one running container,
    both tagged [dnsherpa-skip]. *)
Definition skipListing : ProxmoxListing :=
  {| api_Version := true;
     api_Nodes := Some [{| ns_Node := "pve"; ns_Status := "online" |}];
     api_VirtualMachines := fun _ => Some [sampleVMEntry "web;dnsherpa-skip"];
     api_Containers := fun _ => Some [sampleCTEntry "dnsherpa-skip"] |}.

(** The resource that [processVM] hands to the resolver. *)
Definition resourceOfVM (vm : VirtualMachine) (nodeName : string) : ClusterResource :=
  {| res_Name := vm_Name vm; res_Type := "qemu"; res_Status := vm_Status vm;
     res_VMID := vm_VMID vm; res_Node := nodeName |}.

Definition tagsOfVM (vm : VirtualMachine) : list string :=
  if decide (vm_Tags vm ≠ "") then strings.Split (vm_Tags vm) ";" else [].

(** The resource that [processContainer] hands to the resolver. *)
Definition resourceOfContainer (container : Container) (nodeName : string)
    : ClusterResource :=
  {| res_Name := ct_Name container; res_Type := "lxc"; res_Status := ct_Status container;
     res_VMID := ct_VMID container; res_Node := nodeName |}.

Definition tagsOfContainer (container : Container) : list string :=
  if decide (ct_Tags container ≠ "") then strings.Split (ct_Tags container) ";" else [].

(** A platform whose guests have no live interface data. *)
Definition silentAPI : ProxmoxAPI :=
  {| api_Node := fun _ => true;
     api_VirtualMachine := fun _ _ => true;
     api_AgentGetNetworkIFaces := fun _ _ => None;
     api_Container := fun _ _ => true;
     api_Interfaces := fun _ _ => None |}.

Definition silentPC : ProxmoxClient :=
  {| client := silentAPI; etcdClient := sampleEtcd "t"; pc_config := sampleConfig "t" "first" |}.

Global Instance Tick_eq_dec : EqDecision Tick.
Proof. solve_decision. Defined.

(** The picks that end the loop of [StartEventMonitoring]. *)
Definition terminal (s : Selected) : bool :=
  match s with
  | SelErr (Some _) | SelDone => true
  | _ => false
  end.

(** The picks that can make the loop of [StartEventMonitoring] do
    something: the start of a container, an error of the stream, the end of
    the context. *)
Definition relevant (s : Selected) : bool :=
  match s with
  | SelEvent event =>
      bool_decide (msg_Type event = "container") && bool_decide (msg_Action event = "start")
  | SelErr None => false
  | _ => true
  end.

(** A Docker daemon that lists the one container with the given id and
    labels. *)
Definition listingOnly (dc : DockerClient) (id : string) (labels : list (string * string))
    : DockerClient :=
  {| docker_ContainerList := Some [{| ID := id; Labels := labels |}];
     dc_etcdClient := dc_etcdClient dc |}.

Definition sampleInspect (id : string) : option (list (string * string)) :=
  if decide (id = "c1") then Some [("traefik.http.routers.a.rule", "Host(`a.com`)")]
  else None.

Fixpoint allBytes (P : ascii -> bool) (s : string) : bool :=
  match s with
  | EmptyString => true
  | String c s' => P c && allBytes P s'
  end.

(** The shape of a leaf segment: [a] or [aaaa] and a decimal number that
    is greater than [n4], respectively [n6]. *)
Definition leafAbove (m4 m6 : Z) (l : string) : Prop :=
  (∃ k, (m4 < k)%Z ∧ l = "a" +:+ fmt.d k) ∨ (∃ k, (m6 < k)%Z ∧ l = "aaaa" +:+ fmt.d k).

(** ** The version of the build and the start-up banner *)

(** The variables that the build sets with [-ldflags]. *)
Record BuildVars := {
  Version : string;
  GitCommit : string;
  GitBranch : string;
}.

Definition GetVersion (b : BuildVars) : string :=
  if bool_decide (Version b = "dev") && bool_decide (GitCommit b ≠ "unknown") then
    let shortCommit := GitCommit b in
    let shortCommit :=
      if (8 <? String.length shortCommit)%nat then stringsx.take 8 shortCommit
      else shortCommit in
    if bool_decide (GitBranch b ≠ "unknown") && bool_decide (GitBranch b ≠ "main")
       && bool_decide (GitBranch b ≠ "master")
    then "dev-" +:+ GitBranch b +:+ "-" +:+ shortCommit
    else "dev-" +:+ shortCommit
  else Version b.

Definition IsDevelopmentBuild (b : BuildVars) : bool :=
  bool_decide (Version b = "dev") || strings.Contains (Version b) "dev".

(** [max(a, b)] on Go's [int]. *)
Definition max (a b : Z) : Z := if (b <? a)%Z then a else b.

(** The blanks that [ShowStartupBanner] puts after the version. *)
Definition bannerPadding (version : string) : string :=
  stringsx.Repeat " " (Z.to_nat (max 0 (25 - Z.of_nat (String.length version)))).

(** An environment without [DNS_TARGET]: the target comes from the host
    name file and from [DOMAIN]. *)
Definition fileEnv : Env :=
  {| Getenv := fun key => if decide (key = "DOMAIN") then "home.lab" else "";
     hostnameFile := Some (String "p" (String "v" (String "e" (String (ascii_of_nat 10) "")))) |}.

Definition fileConfig : Config :=
  {| EtcdPrefix := "/skydns"; DNSTarget := "pve.home.lab"; RecordTTL := 300;
     Domain := "home.lab"; ProxmoxInterface := "eth0"; ProxmoxMultiIPv4 := "first" |}.
(** * Properties *)

Local Open Scope list_scope.

(** ** Strings *)

Section StringFacts.

Lemma append_nil (s : string) : "" +:+ s = s.
Proof. done. Qed.

Lemma append_cons (a : ascii) (p s : string) : String a p +:+ s = String a (p +:+ s).
Proof. done. Qed.

Lemma append_assoc (a b c : string) : (a +:+ b) +:+ c = a +:+ b +:+ c.
Proof. induction a as [|x a IH]; rewrite ?append_nil, ?append_cons; [done|by f_equal]. Qed.

Lemma prefix_app (p s : string) : String.prefix p (p +:+ s) = true.
Proof.
  induction p as [|a p IH]; rewrite ?append_nil, ?append_cons; simpl; [by destruct s|].
  destruct (ascii_dec a a); [done|congruence].
Qed.

Lemma drop_app (p s : string) : strings.drop (String.length p) (p +:+ s) = s.
Proof. induction p as [|a p IH]; rewrite ?append_nil, ?append_cons; simpl; done. Qed.

Lemma TrimPrefix_app (p s : string) : strings.TrimPrefix (p +:+ s) p = s.
Proof. unfold strings.TrimPrefix, strings.HasPrefix. by rewrite prefix_app, drop_app. Qed.

Lemma Split_nil (s sep : string) (k : nat) : strings.Split_go sep k s ≠ [].
Proof.
  revert k. induction s as [|a s IH]; intros k; [done|].
  cbn [strings.Split_go]. destruct k; [|apply IH].
  destruct (String.prefix sep (String a s)); [done|].
  specialize (IH 0%nat). by destruct (strings.Split_go sep 0 s).
Qed.

(** The unfolding of [Split] on a one-byte separator. *)
Lemma Split_byte_cons (c a : ascii) (s : string) :
  strings.Split (String a s) (String c EmptyString) =
  if Ascii.eqb a c then EmptyString :: strings.Split s (String c EmptyString)
  else match strings.Split s (String c EmptyString) with
       | [] => [String a EmptyString]
       | p :: ps => String a p :: ps
       end.
Proof.
  unfold strings.Split. simpl.
  destruct (ascii_dec c a) as [->|Hne].
  - rewrite Ascii.eqb_refl. by destruct s.
  - destruct (Ascii.eqb_spec a c); [congruence|done].
Qed.

Lemma Split_byte_empty (c : ascii) :
  strings.Split EmptyString (String c EmptyString) = [EmptyString].
Proof. done. Qed.

Lemma Join_Split (c : ascii) (s : string) :
  strings.Join (strings.Split s (String c EmptyString)) (String c EmptyString) = s.
Proof.
  induction s as [|a s IH]; [done|].
  rewrite Split_byte_cons. unfold strings.Join in *.
  pose proof (Split_nil s (String c EmptyString) 0) as Hne.
  fold (strings.Split s (String c EmptyString)) in Hne.
  destruct (Ascii.eqb_spec a c) as [->|Hac].
  - destruct (strings.Split s (String c EmptyString)) eqn:E; [done|].
    simpl in *. by rewrite IH.
  - destruct (strings.Split s (String c EmptyString)) as [|p ps] eqn:E; [done|].
    destruct ps; simpl in *; by rewrite <- IH.
Qed.

Lemma Split_no_sep (c : ascii) (p : string) :
  strings.hasByte c p = false →
  strings.Split p (String c EmptyString) = [p].
Proof.
  induction p as [|a p IH]; [done|]. simpl. intros [Ha Hp]%orb_false_iff.
  rewrite Split_byte_cons, Ha, IH; done.
Qed.

Lemma Split_app_sep (c : ascii) (p t : string) :
  strings.hasByte c p = false →
  strings.Split (p +:+ String c t) (String c EmptyString) =
  p :: strings.Split t (String c EmptyString).
Proof.
  induction p as [|a p IH]; rewrite ?append_nil, ?append_cons; simpl.
  - intros _. by rewrite Split_byte_cons, Ascii.eqb_refl.
  - intros [Ha Hp]%orb_false_iff. rewrite Split_byte_cons, Ha, IH; done.
Qed.

Lemma Split_Join (c : ascii) (parts : list string) :
  parts ≠ [] →
  Forall (fun p => strings.hasByte c p = false) parts →
  strings.Split (strings.Join parts (String c EmptyString)) (String c EmptyString) = parts.
Proof.
  intros Hne Hall. induction Hall as [|p ps Hp Hps IH]; [done|].
  destruct ps as [|q ps].
  - simpl. by apply Split_no_sep.
  - unfold strings.Join in *. simpl String.concat.
    rewrite append_cons, append_nil.
    rewrite Split_app_sep by done. f_equal. by apply IH.
Qed.

Lemma Split_parts_no_byte (c d : ascii) (s : string) :
  strings.hasByte d s = false →
  Forall (fun p => strings.hasByte d p = false) (strings.Split s (String c EmptyString)).
Proof.
  induction s as [|a s IH]; [by repeat constructor|].
  simpl. intros [Ha Hs]%orb_false_iff. specialize (IH Hs).
  rewrite Split_byte_cons. destruct (Ascii.eqb a c).
  - by constructor.
  - destruct IH as [|p ps Hp Hps].
    + constructor; [simpl; by rewrite Ha|done].
    + constructor; [simpl; by rewrite Ha, Hp|done].
Qed.

Lemma Contains_byte (c : ascii) (s : string) :
  strings.Contains s (String c EmptyString) = strings.hasByte c s.
Proof.
  induction s as [|a s IH]; [done|]. simpl. rewrite IH.
  destruct (ascii_dec c a) as [->|Hne].
  - rewrite Ascii.eqb_refl. by destruct s.
  - destruct (Ascii.eqb_spec a c); [congruence|done].
Qed.

End StringFacts.

(** ** The key path *)

Section KeyPath.

(** The swap loop reverses the stretch of the slice between its two
    indices and leaves the rest alone. *)
Lemma reverseParts_loop_spec (fuel : nat) (pre mid post : list string) :
  (length mid ≤ fuel)%nat →
  reverseParts_loop fuel (length pre) (length pre + length mid - 1) (pre ++ mid ++ post)
  = pre ++ reverse mid ++ post.
Proof.
  revert pre mid post.
  induction fuel as [|fuel IH]; intros pre mid post Hlen.
  { destruct mid; [done|simpl in Hlen; lia]. }
  cbn [reverseParts_loop].
  destruct mid as [|x mid].
  { simpl. case_match; [|done]. apply Nat.ltb_lt in H. lia. }
  destruct (decide (mid = [])) as [->|Hmid].
  { simpl. case_match; [|done]. apply Nat.ltb_lt in H. lia. }
  destruct (exists_last Hmid) as (mid' & y & ->).
  assert ((length pre <? length pre + length (x :: mid' ++ [y]) - 1)%nat = true) as ->.
  { apply Nat.ltb_lt. len. }
  assert ((pre ++ (x :: mid' ++ [y]) ++ post) !! length pre = Some x) as ->.
  { by rewrite lookup_app_r, Nat.sub_diag by lia. }
  assert ((pre ++ (x :: mid' ++ [y]) ++ post) !! (length pre + length (x :: mid' ++ [y]) - 1)%nat
          = Some y) as ->.
  { replace (pre ++ (x :: mid' ++ [y]) ++ post) with ((pre ++ x :: mid') ++ y :: post)
      by (by simplify_list_eq).
    rewrite lookup_app_r by len.
    replace (length pre + length (x :: mid' ++ [y]) - 1 - length (pre ++ x :: mid'))%nat
      with 0%nat by len.
    done. }
  replace (<[(length pre + length (x :: mid' ++ [y]) - 1)%nat := x]>
             (<[length pre := y]> (pre ++ (x :: mid' ++ [y]) ++ post)))
    with ((pre ++ [y]) ++ mid' ++ (x :: post)).
  - replace (length pre + 1)%nat with (length (pre ++ [y]))
      by len.
    replace (length pre + length (x :: mid' ++ [y]) - 1 - 1)%nat
      with (length (pre ++ [y]) + length mid' - 1)%nat
      by len.
    rewrite IH by (revert Hlen; len).
    rewrite reverse_cons, reverse_app. by simplify_list_eq.
  - rewrite insert_app_r_alt, Nat.sub_diag by lia. simpl.
    replace (pre ++ y :: (mid' ++ [y]) ++ post) with ((pre ++ y :: mid') ++ y :: post)
      by (by simplify_list_eq).
    rewrite insert_app_r_alt by len.
    match goal with
    | |- context [<[?n := _]> (y :: post)] => replace n with 0%nat by len
    end.
    by simplify_list_eq.
Qed.

Lemma reverseParts_reverse (parts : list string) : reverseParts parts = reverse parts.
Proof.
  unfold reverseParts.
  pose proof (reverseParts_loop_spec (length parts) [] parts []) as H.
  simpl in H. rewrite !app_nil_r in H. by apply H.
Qed.

Lemma basePath_eq (ec : EtcdClient) (hostname : string) :
  basePath ec hostname =
  EtcdPrefix (ec_config ec) +:+ "/" +:+
  strings.Join (reverse (strings.Split hostname ".")) "/".
Proof. unfold basePath. by rewrite reverseParts_reverse. Qed.

End KeyPath.

Lemma reverseParts_involutive (parts : list string) :
  reverseParts (reverseParts parts) = parts.
Proof. by rewrite !reverseParts_reverse, reverse_involutive. Qed.

Lemma hostnameOfPath_basePath (ec : EtcdClient) (h : string) :
  strings.Contains h "/" = false →
  hostnameOfPath (EtcdPrefix (ec_config ec)) (basePath ec h) = Some h.
Proof.
  intros Hslash. rewrite Contains_byte in Hslash.
  rewrite basePath_eq. unfold hostnameOfPath.
  set (pre := EtcdPrefix (ec_config ec)).
  set (path := strings.Join (reverse (strings.Split h ".")) "/").
  rewrite <- (append_assoc pre "/" path).
  unfold strings.HasPrefix. rewrite prefix_app, TrimPrefix_app.
  f_equal. unfold path.
  rewrite Split_Join.
  - rewrite reverse_involutive. apply Join_Split.
  - intros Hnil. apply (f_equal reverse) in Hnil. rewrite reverse_involutive in Hnil.
    by apply Split_nil in Hnil.
  - apply Forall_reverse. by apply Split_parts_no_byte.
Qed.

(** What the read-back of the path string cannot do: a label that holds
    a slash is read as two labels. *)
Example hostnameOfPath_slash :
  basePath (sampleEtcd "t") "a/b.c" = "/skydns/c/a/b" ∧
  hostnameOfPath "/skydns" (basePath (sampleEtcd "t") "a/b.c") = Some "b.a.c".
Proof. split; reflexivity. Qed.

(** ** Store writes *)

Section Writes.

Variable ec : EtcdClient.
Variable hostname : string.

Lemma leaf_cases (earlier : list string) (ip : string) :
  match net.ParseIP ip with
  | None => leaf earlier ip = None ∧ isIPv4 ip = false ∧ isIPv6 ip = false
  | Some a =>
      match net.To4 a with
      | Some _ => leaf earlier ip = Some ("a" +:+ fmt.d (n4 earlier + 1))
                  ∧ isIPv4 ip = true ∧ isIPv6 ip = false
      | None => leaf earlier ip = Some ("aaaa" +:+ fmt.d (n6 earlier + 1))
                ∧ isIPv4 ip = false ∧ isIPv6 ip = true
      end
  end.
Proof.
  assert (isIPv4 ip = match net.ParseIP ip with
                      | Some a => bool_decide (is_Some (net.To4 a)) | None => false
                      end) as H4 by done.
  assert (isIPv6 ip = match net.ParseIP ip with
                      | Some a => bool_decide (net.To4 a = None) | None => false
                      end) as H6 by done.
  unfold leaf, n4, n6.
  destruct (net.ParseIP ip) as [a|]; [|by rewrite H4, H6].
  destruct (net.To4 a) as [b|].
  - rewrite bool_decide_true in H4 by eauto. rewrite bool_decide_false in H6 by done.
    rewrite H4, H6. repeat split. do 3 f_equal. lia.
  - rewrite bool_decide_false in H4 by (by intros [? ?]).
    rewrite bool_decide_true in H6 by done.
    rewrite H4, H6. repeat split. do 3 f_equal. lia.
Qed.

Lemma n4_snoc (earlier : list string) (ip : string) :
  n4 (earlier ++ [ip]) = (n4 earlier + if isIPv4 ip then 1 else 0)%Z.
Proof.
  unfold n4. rewrite filter_app, length_app, filter_cons, filter_nil.
  destruct (isIPv4 ip); case_decide; simpl in *; try done; lia.
Qed.

Lemma n6_snoc (earlier : list string) (ip : string) :
  n6 (earlier ++ [ip]) = (n6 earlier + if isIPv6 ip then 1 else 0)%Z.
Proof.
  unfold n6. rewrite filter_app, length_app, filter_cons, filter_nil.
  destruct (isIPv6 ip); case_decide; simpl in *; try done; lia.
Qed.

(** One turn of the loop of [CreateDNSRecords], in terms of the leaf of
    the address. *)
Lemma CreateDNSRecords_loop_cons (earlier rest : list string) (ip : string)
    (cr : list string) (w : World) :
  CreateDNSRecords_loop ec hostname (basePath ec hostname) (ip :: rest)
    (n4 earlier) (n6 earlier) cr w =
  match leaf earlier ip with
  | Some l =>
      match Put (basePath ec hostname +:+ "/" +:+ l)
                (Marshal {| Host := ip; TTL := RecordTTL (ec_config ec) |}) w with
      | (Ok _, w1) =>
          CreateDNSRecords_loop ec hostname (basePath ec hostname) rest
            (n4 (earlier ++ [ip])) (n6 (earlier ++ [ip]))
            (cr ++ [recordTypeOf ip +:+ "->" +:+ ip]) w1
      | (Err e, w1) =>
          (Err (Wrap ("failed to create " +:+ recordTypeOf ip +:+ " record for "
                      +:+ hostname) e), w1)
      end
  | None =>
      CreateDNSRecords_loop ec hostname (basePath ec hostname) rest
        (n4 (earlier ++ [ip])) (n6 (earlier ++ [ip])) cr w
  end.
Proof.
  rewrite n4_snoc, n6_snoc. unfold recordTypeOf.
  pose proof (leaf_cases earlier ip) as Hleaf.
  cbn [CreateDNSRecords_loop].
  destruct (net.ParseIP ip) as [a|].
  - destruct (net.To4 a) as [b|]; destruct Hleaf as (-> & -> & ->);
      rewrite Z.add_0_r; unfold bind, wrap;
      match goal with |- context [Put ?k ?v w] =>
        match goal with |- _ = match Put ?k' _ _ with _ => _ end =>
          change k' with k end;
        destruct (Put k v w) as [[[]|e] w1] end; reflexivity.
  - destruct Hleaf as (-> & -> & ->). by rewrite !Z.add_0_r.
Qed.

Lemma Put_accepted (key value : string) (w : World) :
  accepted 1 w →
  Put key value w =
  (Ok tt, {| kv := <[key := value]> (kv w); faults := drop 1 (faults w);
             trace := trace w ++ [EvPut key value true] |}).
Proof.
  unfold accepted, Put. destruct (faults w) as [|[] fs] eqn:E; simpl; try done.
  by intros [? _]%Forall_cons.
Qed.

Lemma Put_refused (key value : string) (w : World) :
  faults w !! 0%nat = Some true →
  Put key value w =
  (Err ErrStore, {| kv := kv w; faults := drop 1 (faults w);
                    trace := trace w ++ [EvPut key value false] |}).
Proof.
  unfold Put. destruct (faults w) as [|[] fs] eqn:E; simpl; try done.
Qed.

Lemma accepted_S (n : nat) (w : World) :
  accepted (S n) w ↔
  accepted 1 w ∧ Forall (fun b => b = false) (take n (drop 1 (faults w))).
Proof.
  unfold accepted. destruct (faults w) as [|b fs]; simpl.
  - rewrite take_nil. split; [by split|done].
  - rewrite take_0, drop_0, Forall_cons, Forall_singleton. done.
Qed.

(** A run in which the store accepts every write performs the expected
    writes, in order. *)
Lemma CreateDNSRecords_loop_accepted (rest earlier : list string) (cr : list string)
    (w : World) :
  accepted (length (expectedWrites ec hostname earlier rest)) w →
  ∃ cr',
    CreateDNSRecords_loop ec hostname (basePath ec hostname) rest
      (n4 earlier) (n6 earlier) cr w =
    (Ok cr',
     {| kv := storeAfter (expectedWrites ec hostname earlier rest) (kv w);
        faults := drop (length (expectedWrites ec hostname earlier rest)) (faults w);
        trace := trace w ++ expectedWrites ec hostname earlier rest |}).
Proof.
  revert earlier cr w. induction rest as [|ip rest IH]; intros earlier cr w Hacc.
  { exists cr. simpl. rewrite app_nil_r, drop_0. by destruct w. }
  rewrite CreateDNSRecords_loop_cons. cbn [expectedWrites] in *.
  destruct (leaf earlier ip) as [l|].
  - simpl in Hacc. apply accepted_S in Hacc as [H1 Hrest].
    rewrite (Put_accepted _ _ _ H1).
    edestruct IH as [cr' ->]; [exact Hrest|].
    exists cr'. simpl. rewrite <- app_assoc, drop_drop. done.
  - simpl in *. by apply IH.
Qed.

(** A run in which the store refuses a write stops at that write. *)
Lemma CreateDNSRecords_loop_refused (rest earlier : list string) (cr : list string)
    (w : World) (done later : list Event) (key value : string) :
  expectedWrites ec hostname earlier rest = done ++ EvPut key value true :: later →
  accepted (length done) w →
  faults w !! length done = Some true →
  ∃ ip,
    ip ∈ rest ∧
    CreateDNSRecords_loop ec hostname (basePath ec hostname) rest
      (n4 earlier) (n6 earlier) cr w =
    (Err (Wrap ("failed to create " +:+ recordTypeOf ip +:+ " record for " +:+ hostname)
               ErrStore),
     {| kv := storeAfter done (kv w);
        faults := drop (S (length done)) (faults w);
        trace := trace w ++ done ++ [EvPut key value false] |}).
Proof.
  revert earlier cr w done.
  induction rest as [|ip rest IH]; intros earlier cr w done Hexp Hacc Hfault.
  { by destruct done. }
  rewrite CreateDNSRecords_loop_cons. cbn [expectedWrites] in Hexp.
  destruct (leaf earlier ip) as [l|]; cbn [app] in Hexp.
  - destruct done as [|e done]; cbn [app length] in *.
    + injection Hexp as <- <- <-.
      exists ip. split; [left|]. by rewrite (Put_refused _ _ _ Hfault).
    + injection Hexp as <- Hexp.
      apply accepted_S in Hacc as [H1 Hrest].
      rewrite (Put_accepted _ _ _ H1).
      edestruct (IH (earlier ++ [ip])) as (ip' & Hin & ->); [done|exact Hrest|..].
      { simpl. by rewrite lookup_drop. }
      exists ip'. split; [by right|]. simpl. by rewrite <- app_assoc, drop_drop.
  - edestruct (IH (earlier ++ [ip])) as (ip' & Hin & ->); [done..|].
    exists ip'. split; [by right|done].
Qed.

Lemma expectedWrites_app (earlier a b : list string) :
  expectedWrites ec hostname earlier (a ++ b) =
  expectedWrites ec hostname earlier a ++ expectedWrites ec hostname (earlier ++ a) b.
Proof.
  revert earlier. induction a as [|ip a IH]; intros earlier; simpl.
  - by rewrite app_nil_r.
  - rewrite IH, <- !app_assoc. done.
Qed.

Lemma expectedWrites_elem (earlier ip later : list string) (x l : string) :
  leaf earlier x = Some l →
  EvPut (basePath ec hostname +:+ "/" +:+ l)
        (Marshal {| Host := x; TTL := RecordTTL (ec_config ec) |}) true
  ∈ expectedWrites ec hostname [] (earlier ++ x :: later).
Proof.
  intros Hl. rewrite expectedWrites_app. simpl. rewrite Hl.
  apply elem_of_app. right. by left.
Qed.

(** Whatever the store does, every write of a run is the write of one of
    the addresses. *)
Lemma CreateDNSRecords_loop_events (rest earlier : list string) (cr : list string)
    (w : World) :
  ∃ l,
    trace (CreateDNSRecords_loop ec hostname (basePath ec hostname) rest
             (n4 earlier) (n6 earlier) cr w).2 = trace w ++ l ∧
    Forall (fun e => ∃ key ip ok,
              e = EvPut key (Marshal {| Host := ip; TTL := RecordTTL (ec_config ec) |}) ok
              ∧ ip ∈ rest ∧ isIP ip = true) l.
Proof.
  revert earlier cr w. induction rest as [|ip rest IH]; intros earlier cr w.
  { exists []. by rewrite app_nil_r. }
  rewrite CreateDNSRecords_loop_cons.
  pose proof (leaf_cases earlier ip) as Hleaf.
  assert (leaf earlier ip ≠ None → isIP ip = true) as Hip.
  { unfold isIP. destruct (net.ParseIP ip); [by rewrite bool_decide_true|].
    by destruct Hleaf as [-> _]. }
  clear Hleaf.
  destruct (leaf earlier ip) as [l|].
  - unfold Put. destruct (faults w) as [|[] fs]; simpl.
    + destruct (IH (earlier ++ [ip]) (cr ++ [recordTypeOf ip +:+ "->" +:+ ip])
                  {| kv := <[basePath ec hostname +:+ "/" +:+ l :=
                              Marshal {| Host := ip; TTL := RecordTTL (ec_config ec) |}]> (kv w);
                     faults := []; trace := trace w ++
                       [EvPut (basePath ec hostname +:+ "/" +:+ l)
                          (Marshal {| Host := ip; TTL := RecordTTL (ec_config ec) |}) true] |})
        as (l' & -> & Hl').
      eexists (_ :: l'). simpl. rewrite <- app_assoc. split; [done|].
      constructor; [exists (basePath ec hostname +:+ "/" +:+ l), ip, true; auto using list_elem_of_here|].
      eapply Forall_impl; [done|]. intros ? (k & x & ok & -> & Hin & Hx).
      exists k, x, ok. split_and!; [done|by right|done].
    + eexists [_]. split; [done|]. constructor; [|done].
      exists (basePath ec hostname +:+ "/" +:+ l), ip, false; auto using list_elem_of_here.
    + destruct (IH (earlier ++ [ip]) (cr ++ [recordTypeOf ip +:+ "->" +:+ ip])
                  {| kv := <[basePath ec hostname +:+ "/" +:+ l :=
                              Marshal {| Host := ip; TTL := RecordTTL (ec_config ec) |}]> (kv w);
                     faults := fs; trace := trace w ++
                       [EvPut (basePath ec hostname +:+ "/" +:+ l)
                          (Marshal {| Host := ip; TTL := RecordTTL (ec_config ec) |}) true] |})
        as (l' & -> & Hl').
      eexists (_ :: l'). simpl. rewrite <- app_assoc. split; [done|].
      constructor; [exists (basePath ec hostname +:+ "/" +:+ l), ip, true; auto using list_elem_of_here|].
      eapply Forall_impl; [done|]. intros ? (k & x & ok & -> & Hin & Hx).
      exists k, x, ok. split_and!; [done|by right|done].
  - destruct (IH (earlier ++ [ip]) cr w) as (l' & -> & Hl').
    exists l'. split; [done|].
    eapply Forall_impl; [done|]. intros ? (k & x & ok & -> & Hin & Hx).
      exists k, x, ok. split_and!; [done|by right|done].
Qed.

End Writes.

Lemma newEvents_app (w w' : World) (l : list Event) :
  trace w' = trace w ++ l → newEvents w w' = l.
Proof. unfold newEvents. intros ->. by rewrite drop_app_length. Qed.

Lemma CreateDNSRecords_unfold (ec : EtcdClient) (hostname : string) (ips : list string)
    (w : World) :
  CreateDNSRecords ec hostname ips w =
  match CreateDNSRecords_loop ec hostname (basePath ec hostname) ips (n4 []) (n6 []) [] w with
  | (Ok _, w') => (Ok tt, w')
  | (Err e, w') => (Err e, w')
  end.
Proof. done. Qed.

(** C1 (as amended).  For every host written by the Proxmox reconciler,
    the record-store key always carries a leaf segment, also when a single
    address was resolved: it is [<prefix>/<reversed-domain-labels>/a<N>] for
    the N-th IPv4 address and [.../aaaa<N>] for the N-th IPv6 address,
    counted from 1 within each family in resolution order.  (When the store
    accepts the writes, the run performs exactly these writes.) *)
Theorem CreateDNSRecords_key_layout (ec : EtcdClient) (hostname : string)
    (ips : list string) (w : World) :
  accepted (length (expectedWrites ec hostname [] ips)) w →
  ∃ w',
    CreateDNSRecords ec hostname ips w = (Ok tt, w') ∧
    newEvents w w' = expectedWrites ec hostname [] ips ∧
    kv w' = storeAfter (expectedWrites ec hostname [] ips) (kv w) ∧
    ∀ earlier ip later, ips = earlier ++ ip :: later →
      (isIPv4 ip = true →
       EvPut (basePath ec hostname +:+ "/a" +:+ fmt.d (n4 earlier + 1))
             (Marshal {| Host := ip; TTL := RecordTTL (ec_config ec) |}) true
       ∈ newEvents w w') ∧
      (isIPv6 ip = true →
       EvPut (basePath ec hostname +:+ "/aaaa" +:+ fmt.d (n6 earlier + 1))
             (Marshal {| Host := ip; TTL := RecordTTL (ec_config ec) |}) true
       ∈ newEvents w w').
Proof.
  intros Hacc. rewrite CreateDNSRecords_unfold.
  destruct (CreateDNSRecords_loop_accepted ec hostname ips [] [] w Hacc) as [cr' ->].
  eexists. split; [done|]. split; [by apply newEvents_app|]. split; [done|].
  intros earlier ip later ->. erewrite newEvents_app by done.
  pose proof (leaf_cases earlier ip) as Hleaf.
  split; intros Hfam.
  - apply (expectedWrites_elem ec hostname earlier [] later ip
             ("a" +:+ fmt.d (n4 earlier + 1))).
    revert Hleaf. unfold isIPv4 in Hfam. destruct (net.ParseIP ip) as [a|]; [|done].
    destruct (net.To4 a); [tauto|]. by rewrite bool_decide_false in Hfam by (by intros [? ?]).
  - apply (expectedWrites_elem ec hostname earlier [] later ip
             ("aaaa" +:+ fmt.d (n6 earlier + 1))).
    revert Hleaf. unfold isIPv6 in Hfam. destruct (net.ParseIP ip) as [a|]; [|done].
    destruct (net.To4 a); [|tauto]. by rewrite bool_decide_false in Hfam.
Qed.

Lemma CreateDNSRecords_key_layout_witness :
  ∃ w',
    CreateDNSRecords (sampleEtcd "t") "web.home.lab"
      ["10.0.0.1"; "2001:db8::1"; "bogus"; "10.0.0.2"] emptyWorld = (Ok tt, w') ∧
    putKeys (newEvents emptyWorld w') =
      ["/skydns/lab/home/web/a1"; "/skydns/lab/home/web/aaaa1"; "/skydns/lab/home/web/a2"].
Proof.
  destruct (CreateDNSRecords_key_layout (sampleEtcd "t") "web.home.lab"
              ["10.0.0.1"; "2001:db8::1"; "bogus"; "10.0.0.2"] emptyWorld)
    as (w' & Hrun & Hev & _).
  - unfold accepted. simpl faults. rewrite take_nil. constructor.
  - exists w'. split; [exact Hrun|]. rewrite Hev. vm_compute. reflexivity.
Defined.

Lemma CreateDNSRecords_single_address_counterexample :
  putKeys (newEvents emptyWorld
             (CreateDNSRecords (sampleEtcd "t") "web.home.lab" ["10.0.0.1"] emptyWorld).2)
  = ["/skydns/lab/home/web/a1"] ∧
  basePath (sampleEtcd "t") "web.home.lab" = "/skydns/lab/home/web" ∧
  putKeys (newEvents emptyWorld
             (CreateDNSRecords (sampleEtcd "t") "web.home.lab" ["10.0.0.1"] emptyWorld).2)
  ≠ [basePath (sampleEtcd "t") "web.home.lab"].
Proof. split; [|split]; vm_compute; [reflexivity..|congruence]. Qed.

(** C10.  The writes of one host are not atomic.  When the store refuses
    the write of an address in [CreateDNSRecords], the function returns an
    error at once: the records written for the addresses before it
    ([done]) stay in the store, and no write is attempted for the
    addresses after it ([later]). *)
Theorem CreateDNSRecords_stops_at_refused_write (ec : EtcdClient) (hostname : string)
    (ips : list string) (w : World) (done later : list Event) (key value : string) :
  expectedWrites ec hostname [] ips = done ++ EvPut key value true :: later →
  accepted (length done) w →
  faults w !! length done = Some true →
  ∃ ip,
    ip ∈ ips ∧
    CreateDNSRecords ec hostname ips w =
    (Err (Wrap ("failed to create " +:+ recordTypeOf ip +:+ " record for " +:+ hostname)
               ErrStore),
     {| kv := storeAfter done (kv w);
        faults := drop (S (length done)) (faults w);
        trace := trace w ++ done ++ [EvPut key value false] |}).
Proof.
  intros Hexp Hacc Hfault. rewrite CreateDNSRecords_unfold.
  destruct (CreateDNSRecords_loop_refused ec hostname ips [] [] w done later key value
              Hexp Hacc Hfault) as (ip & Hin & ->).
  by exists ip.
Qed.

Lemma CreateDNSRecords_stops_at_refused_write_witness :
  ∃ ip,
    ip ∈ ["10.0.0.1"; "2001:db8::1"; "10.0.0.2"] ∧
    CreateDNSRecords (sampleEtcd "t") "web.home.lab"
      ["10.0.0.1"; "2001:db8::1"; "10.0.0.2"]
      {| kv := ∅; faults := [false; true; false]; trace := [] |} =
    (Err (Wrap ("failed to create " +:+ recordTypeOf ip +:+ " record for web.home.lab")
               ErrStore),
     {| kv := storeAfter
                [EvPut "/skydns/lab/home/web/a1"
                       (Marshal {| Host := "10.0.0.1"; TTL := 300 |}) true] ∅;
        faults := [false];
        trace := [EvPut "/skydns/lab/home/web/a1"
                        (Marshal {| Host := "10.0.0.1"; TTL := 300 |}) true;
                  EvPut "/skydns/lab/home/web/aaaa1"
                        (Marshal {| Host := "2001:db8::1"; TTL := 300 |}) false] |}).
Proof.
  apply (CreateDNSRecords_stops_at_refused_write (sampleEtcd "t") "web.home.lab"
           ["10.0.0.1"; "2001:db8::1"; "10.0.0.2"]
           {| kv := ∅; faults := [false; true; false]; trace := [] |}
           [EvPut "/skydns/lab/home/web/a1"
                  (Marshal {| Host := "10.0.0.1"; TTL := 300 |}) true]
           [EvPut "/skydns/lab/home/web/a2"
                  (Marshal {| Host := "10.0.0.2"; TTL := 300 |}) true]
           "/skydns/lab/home/web/aaaa1"
           (Marshal {| Host := "2001:db8::1"; TTL := 300 |})).
  - vm_compute. reflexivity.
  - unfold accepted. simpl. repeat constructor.
  - reflexivity.
Defined.

(** ** Stored values *)

Section Values.

Lemma Marshal_host (h : string) :
  h ≠ "" → Marshal {| Host := h; TTL := 300 |} = hostTTL (json.appendString h).
Proof.
  intros Hh. unfold Marshal, hostTTL. cbn [Host TTL].
  rewrite decide_False by done.
  rewrite !append_assoc. reflexivity.
Qed.

Lemma Marshal_no_host : Marshal {| Host := ""; TTL := 300 |} = ttlOnly.
Proof. reflexivity. Qed.

Lemma htmlSafe_ascii (c : ascii) : json.htmlSafe c = true → (N_of_ascii c <? 128)%N = true.
Proof.
  unfold json.htmlSafe. intros H. repeat (apply andb_prop in H as [H ?]). done.
Qed.

Lemma appendString_go_plain (s : string) :
  plain s = true → json.appendString_go 0 true s = s.
Proof.
  induction s as [|c s IH]; [done|]. simpl.
  intros [Hc Hs]%andb_prop. rewrite (htmlSafe_ascii c Hc), Hc, IH; done.
Qed.

Lemma appendString_plain (s : string) :
  plain s = true → json.appendString s = json.quote +:+ s +:+ json.quote.
Proof. intros H. unfold json.appendString. by rewrite appendString_go_plain. Qed.

Lemma isIP_nonempty (ip : string) : isIP ip = true → ip ≠ "".
Proof. intros H ->. vm_compute in H. done. Qed.

Lemma CreateDNSRecord_events (ec : EtcdClient) (hostname : string) (w : World) :
  ∃ ok,
    trace (CreateDNSRecord ec hostname w).2 =
    trace w ++ [EvPut (basePath ec hostname)
                      (Marshal {| Host := DNSTarget (ec_config ec);
                                  TTL := RecordTTL (ec_config ec) |}) ok].
Proof.
  unfold CreateDNSRecord, wrap, Put.
  destruct (net.ParseIP (DNSTarget (ec_config ec)));
    destruct (faults w) as [|[] fs]; simpl; eauto.
Qed.

End Values.

(** C9 (as amended).  Every value written to the record store is the JSON
    encoding of the record with its TTL, which the configuration fixes at
    300: for a target that is not the empty string it is the object
    [{"host":<target as a JSON string>,"ttl":300}], where a target made of
    plain characters is quoted as it is; when the configured target is the
    empty string the host member is left out and the value is
    [{"ttl":300}]. *)
Theorem stored_values (ec : EtcdClient) :
  RecordTTL (ec_config ec) = 300%Z →
  (∀ hostname w,
     putValues (newEvents w (CreateDNSRecord ec hostname w).2) =
     [if decide (DNSTarget (ec_config ec) = "") then ttlOnly
      else hostTTL (json.appendString (DNSTarget (ec_config ec)))]) ∧
  (∀ hostname ips w value,
     value ∈ putValues (newEvents w (CreateDNSRecords ec hostname ips w).2) →
     ∃ ip, ip ∈ ips ∧ isIP ip = true ∧ value = hostTTL (json.appendString ip)) ∧
  (∀ s, plain s = true → json.appendString s = json.quote +:+ s +:+ json.quote).
Proof.
  intros Httl. split; [|split].
  - intros hostname w.
    destruct (CreateDNSRecord_events ec hostname w) as [ok Hev].
    rewrite (newEvents_app _ _ _ Hev), Httl. cbn [putValues omap]. simpl.
    f_equal. case_decide as Ht.
    + rewrite Ht. apply Marshal_no_host.
    + by apply Marshal_host.
  - intros hostname ips w value Hin.
    rewrite CreateDNSRecords_unfold in Hin.
    destruct (CreateDNSRecords_loop_events ec hostname ips [] [] w) as (l & Htr & Hall).
    assert (newEvents w
              (match CreateDNSRecords_loop ec hostname (basePath ec hostname) ips
                       (n4 []) (n6 []) [] w with
               | (Ok _, w') => (Ok tt, w')
               | (Err e, w') => (Err e, w')
               end).2 = l) as Hl.
    { apply newEvents_app. rewrite <- Htr.
      by destruct (CreateDNSRecords_loop _ _ _ _ _ _ _ _) as [[] ?]. }
    rewrite Hl in Hin. unfold putValues in Hin.
    apply list_elem_of_omap in Hin as (e & He & Hv).
    rewrite Forall_forall in Hall.
    destruct (Hall e He) as (key & ip & ok & -> & Hip & Hparse).
    injection Hv as <-. exists ip. split_and!; [done..|].
    rewrite Httl. by apply Marshal_host, isIP_nonempty.
  - apply appendString_plain.
Qed.

Lemma stored_values_witness :
  putValues (newEvents emptyWorld
               (CreateDNSRecord (sampleEtcd "traefik.home.lab") "api.example.com"
                  emptyWorld).2)
  = [hostTTL (json.quote +:+ "traefik.home.lab" +:+ json.quote)].
Proof.
  destruct (stored_values (sampleEtcd "traefik.home.lab")) as (H1 & _ & H3).
  - reflexivity.
  - rewrite H1.
    change (DNSTarget (ec_config (sampleEtcd "traefik.home.lab"))) with "traefik.home.lab".
    rewrite decide_False by discriminate.
    rewrite (H3 "traefik.home.lab"); reflexivity.
Defined.

Lemma stored_value_empty_target_counterexample :
  putValues (newEvents emptyWorld
               (CreateDNSRecord (sampleEtcd "") "api.example.com" emptyWorld).2)
  = [ttlOnly] ∧
  ttlOnly ≠ hostTTL (json.quote +:+ "" +:+ json.quote).
Proof. split; [reflexivity|]. vm_compute. congruence. Qed.

(** ** Address selection *)

Section Strategy.

Lemma firstIPv4_loop_acc (ips result : list string) (found : bool) :
  firstIPv4_loop ips result found = result ++ firstIPv4_loop ips [] found.
Proof.
  revert result found. induction ips as [|ip ips IH]; intros result found; simpl.
  { by rewrite app_nil_r. }
  destruct (net.ParseIP ip) as [a|]; [|apply IH].
  destruct (net.To4 a); [destruct found; simpl|].
  - apply IH.
  - rewrite IH, (IH [ip]), <- app_assoc. done.
  - rewrite IH, (IH [ip]), <- app_assoc. done.
Qed.

Lemma family_cases (ip : string) :
  (isIPv4 ip = true ∧ isIPv6 ip = false ∧ isIP ip = true) ∨
  (isIPv4 ip = false ∧ isIPv6 ip = true ∧ isIP ip = true) ∨
  (isIPv4 ip = false ∧ isIPv6 ip = false ∧ isIP ip = false).
Proof.
  unfold isIPv4, isIPv6, isIP. destruct (net.ParseIP ip) as [a|].
  - rewrite (bool_decide_true (is_Some (Some a))) by eauto.
    destruct (net.To4 a).
    + left. rewrite bool_decide_true by eauto. by rewrite bool_decide_false.
    + right. left. rewrite bool_decide_false by (by intros [? ?]).
      by rewrite bool_decide_true.
  - right. right. split_and!; [done..|]. apply bool_decide_false. by intros [? ?].
Qed.

Lemma firstIPv4_loop_cons (ip : string) (ips : list string) (found : bool) :
  firstIPv4_loop (ip :: ips) [] found =
  if isIPv4 ip then
    if found then firstIPv4_loop ips [] true else ip :: firstIPv4_loop ips [] true
  else if isIPv6 ip then ip :: firstIPv4_loop ips [] found
  else firstIPv4_loop ips [] found.
Proof.
  unfold isIPv4, isIPv6. simpl. destruct (net.ParseIP ip) as [a|]; [|done].
  destruct (net.To4 a).
  - rewrite bool_decide_true by eauto. destruct found; simpl; [done|].
    apply (firstIPv4_loop_acc ips [ip] true).
  - rewrite bool_decide_false by (by intros [? ?]). rewrite bool_decide_true by done.
    apply (firstIPv4_loop_acc ips [ip] found).
Qed.

Lemma firstIPv4_loop_props (ips : list string) (found : bool) :
  Forall (fun ip => isIP ip = true) (firstIPv4_loop ips [] found) ∧
  filter (fun ip => isIPv4 ip) (firstIPv4_loop ips [] found) =
    (if found then [] else take 1 (filter (fun ip => isIPv4 ip) ips)) ∧
  filter (fun ip => isIPv6 ip) (firstIPv4_loop ips [] found) =
    filter (fun ip => isIPv6 ip) ips ∧
  sublist (firstIPv4_loop ips [] found) ips.
Proof.
  revert found. induction ips as [|ip ips IH]; intros found.
  { simpl. split_and!; [constructor|by destruct found|done|done]. }
  rewrite firstIPv4_loop_cons.
  destruct (IH true) as (Ht1 & Ht2 & Ht3 & Ht4).
  destruct (IH found) as (Hf1 & Hf2 & Hf3 & Hf4).
  destruct (family_cases ip) as [(H4 & H6 & Hip)|[(H4 & H6 & Hip)|(H4 & H6 & Hip)]];
    rewrite ?H4, ?H6.
  - rewrite (filter_cons_True _ ip ips) by (by apply Is_true_true_2 || by apply Is_true_false_2).
    rewrite (filter_cons_False (fun ip => isIPv6 ip) ip ips) by (by apply Is_true_true_2 || by apply Is_true_false_2).
    destruct found.
    + split_and!; [done..|by apply sublist_cons].
    + rewrite filter_cons_True by (by apply Is_true_true_2 || by apply Is_true_false_2).
      rewrite filter_cons_False by (by apply Is_true_true_2 || by apply Is_true_false_2).
      rewrite Ht2. split_and!; [by constructor|done|done|by apply sublist_skip].
  - rewrite (filter_cons_False (fun ip => isIPv4 ip) ip ips) by (by apply Is_true_true_2 || by apply Is_true_false_2).
    rewrite (filter_cons_True (fun ip => isIPv6 ip) ip ips) by (by apply Is_true_true_2 || by apply Is_true_false_2).
    rewrite filter_cons_False by (by apply Is_true_true_2 || by apply Is_true_false_2).
    rewrite filter_cons_True by (by apply Is_true_true_2 || by apply Is_true_false_2).
    rewrite Hf3. split_and!; [by constructor|done|done|by apply sublist_skip].
  - rewrite (filter_cons_False (fun ip => isIPv4 ip) ip ips) by (by apply Is_true_true_2 || by apply Is_true_false_2).
    rewrite (filter_cons_False (fun ip => isIPv6 ip) ip ips) by (by apply Is_true_true_2 || by apply Is_true_false_2).
    split_and!; [done..|by apply sublist_cons].
Qed.

End Strategy.

(** C2 (as amended).  For every list of raw address strings: under the
    strategy [all] the output is the input list itself, every string kept
    in encounter order, the strings that do not parse included (no error is
    reported for them; [CreateDNSRecords] passes over them later); under
    any other strategy value ([first]) the output holds only strings that
    parse as IP literals, at most one IPv4 address (the first encountered)
    and all IPv6 addresses, in their relative order. *)
Theorem applyMultiIPv4Strategy_spec (pc : ProxmoxClient) (ips : list string) :
  (ProxmoxMultiIPv4 (pc_config pc) = "all" → applyMultiIPv4Strategy pc ips = ips) ∧
  (ProxmoxMultiIPv4 (pc_config pc) ≠ "all" →
   Forall (fun ip => isIP ip = true) (applyMultiIPv4Strategy pc ips) ∧
   filter (fun ip => isIPv4 ip) (applyMultiIPv4Strategy pc ips) =
     take 1 (filter (fun ip => isIPv4 ip) ips) ∧
   filter (fun ip => isIPv6 ip) (applyMultiIPv4Strategy pc ips) =
     filter (fun ip => isIPv6 ip) ips ∧
   sublist (applyMultiIPv4Strategy pc ips) ips).
Proof.
  unfold applyMultiIPv4Strategy. split; intros Hs.
  - by rewrite decide_True.
  - rewrite decide_False by done. apply (firstIPv4_loop_props ips false).
Qed.

Lemma applyMultiIPv4Strategy_spec_witness :
  applyMultiIPv4Strategy (samplePC "all" [] []) ["10.0.0.1"; "x"; "10.0.0.2"]
    = ["10.0.0.1"; "x"; "10.0.0.2"] ∧
  filter (fun ip => isIPv4 ip)
    (applyMultiIPv4Strategy (samplePC "first" [] [])
       ["x"; "10.0.0.1"; "10.0.0.2"; "2001:db8::1"; "2001:db8::2"])
  = take 1 (filter (fun ip => isIPv4 ip)
              ["x"; "10.0.0.1"; "10.0.0.2"; "2001:db8::1"; "2001:db8::2"]).
Proof.
  split.
  - apply (applyMultiIPv4Strategy_spec (samplePC "all" [] []) ["10.0.0.1"; "x"; "10.0.0.2"]).
    reflexivity.
  - apply (applyMultiIPv4Strategy_spec (samplePC "first" [] [])
             ["x"; "10.0.0.1"; "10.0.0.2"; "2001:db8::1"; "2001:db8::2"]).
    discriminate.
Defined.

Lemma applyMultiIPv4Strategy_all_counterexample :
  applyMultiIPv4Strategy (samplePC "all" [] []) ["not-an-ip"; "10.0.0.1"]
    = ["not-an-ip"; "10.0.0.1"] ∧
  net.ParseIP "not-an-ip" = None.
Proof. split; reflexivity. Qed.

Example applyMultiIPv4Strategy_first :
  applyMultiIPv4Strategy (samplePC "first" [] [])
    ["10.0.0.1"; "10.0.0.2"; "nonsense"; "2001:db8::1"; "2001:db8::2"]
  = ["10.0.0.1"; "2001:db8::1"; "2001:db8::2"].
Proof. vm_compute. reflexivity. Qed.

(** ** Resolution of the addresses of a resource *)

Section Resolution.



Lemma extractIPsFromInterface_live (pc : ProxmoxClient) (resource : ClusterResource)
    (interfaceName : string) (w : World) :
  reachable pc resource →
  (extractIPsFromInterface pc resource interfaceName w).1 =
  Ok (match liveAddresses pc resource interfaceName with
      | Some collected => applyMultiIPv4Strategy pc collected
      | None => []
      end).
Proof.
  intros (Hnode & Hvm & Hct).
  unfold extractIPsFromInterface, liveAddresses, Node, VirtualMachineGet, ContainerGet,
    AgentGetNetworkIFaces, Interfaces, extractIPsFromConfig, bind, emit, check, ret.
  rewrite Hnode.
  destruct (decide (res_Type resource = "qemu")) as [Hq|Hq].
  - rewrite (Hvm Hq). cbn.
    by destruct (api_AgentGetNetworkIFaces _ _ _).
  - destruct (decide (res_Type resource = "lxc")) as [Hl|Hl]; [|done].
    rewrite (Hct Hl). cbn.
    by destruct (api_Interfaces _ _ _).
Qed.

End Resolution.

(** A guest that is not skipped and has addresses is written by
    [CreateDNSRecords], under its generated host name. *)
Lemma processVM_writes (pc : ProxmoxClient) (vm : VirtualMachine) (nodeName : string)
    (ips : list string) (w w1 : World) :
  vm_HasTag vm "dnsherpa-skip" = false →
  getResourceIPs pc
    {| res_Name := vm_Name vm; res_Type := "qemu"; res_Status := vm_Status vm;
       res_VMID := vm_VMID vm; res_Node := nodeName |}
    (if decide (vm_Tags vm ≠ "") then strings.Split (vm_Tags vm) ";" else []) w
  = (Ok ips, w1) →
  ips ≠ [] →
  processVM pc vm nodeName w =
  CreateDNSRecords (etcdClient pc) (generateHostname pc (vm_Name vm)) ips w1.
Proof.
  intros Hskip Hips Hne. unfold processVM. rewrite Hskip.
  unfold bind, wrap. rewrite Hips.
  rewrite decide_False; [done|]. by destruct ips.
Qed.

(** C3.  The code at the input of the claim, for a qemu guest: the agent
    reports the link-local address [fe80::1] on the interface and
    [extractIPsFromInterface] keeps it, under both strategies; only the two
    literals [127.0.0.1] and [::1] are left out on this path.  (The
    container path does leave out an [fe80::] address.) *)
Theorem extractIPsFromInterface_qemu_keeps_link_local :
  (extractIPsFromInterface (samplePC "first" sampleAgent []) (sampleResource "qemu")
     "eth0" emptyWorld).1
  = Ok ["10.0.0.1"; "fe80::1"; "2001:db8::1"; "2001:db8::2"] ∧
  (extractIPsFromInterface (samplePC "all" sampleAgent []) (sampleResource "qemu")
     "eth0" emptyWorld).1
  = Ok ["10.0.0.1"; "10.0.0.2"; "fe80::1"; "2001:db8::1"; "2001:db8::2"] ∧
  (extractIPsFromInterface
     (samplePC "all" []
        [{| iface_Name := "eth0"; Inet := "10.0.0.1/24"; Inet6 := "fe80::1/64" |};
         {| iface_Name := "lo"; Inet := "127.0.0.1/8"; Inet6 := "::1/128" |}])
     (sampleResource "lxc") "eth0" emptyWorld).1
  = Ok ["10.0.0.1"].
Proof. split_and!; vm_compute; reflexivity. Qed.

(** C6.  The code at a guest tagged [dnsherpa-skip] in a poll cycle.
    [processVM] and [processContainer] put the opt-out question to the
    library's [HasTag], which reads the configuration of the guest and not
    the [Tags] that the program splits two lines further on.  The guests
    that the listings of a node return have no configuration: [HasTag]
    answers [false] for every one of them, whatever its tags, and the
    tagged guest is resolved and written like any other.  On a node with
    one running VM tagged [web;dnsherpa-skip] and one running container
    tagged [dnsherpa-skip], the cycle writes a record for each. *)
Theorem skip_tag_ignored_for_listed_guests :
  (∀ entry tag, vm_HasTag (listedVM entry) tag = false) ∧
  (∀ entry tag, ct_HasTag (listedContainer entry) tag = false) ∧
  putKeys (newEvents emptyWorld
             (processVM skipPC (listedVM (sampleVMEntry "web;dnsherpa-skip")) "pve"
                emptyWorld).2)
  = ["/skydns/lab/home/web-server/a1"] ∧
  putKeys (newEvents emptyWorld
             (processContainer skipPC (listedContainer (sampleCTEntry "dnsherpa-skip")) "pve"
                emptyWorld).2)
  = ["/skydns/lab/home/db/a1"] ∧
  (syncAllResources skipPC skipListing emptyWorld).1 = Ok tt ∧
  dom (kv (syncAllResources skipPC skipListing emptyWorld).2)
  = {["/skydns/lab/home/web-server/a1"; "/skydns/lab/home/db/a1"]}.
Proof.
  split_and!; try done; try (vm_compute; reflexivity).
Qed.



(** C8 (as amended).  For a resource without an explicit [dnsherpa-ip]
    value, whose node and guest the platform finds, [getResourceIPs]
    returns the multi-address strategy applied to the addresses collected
    from the live interface data; when there is no live data the static
    fallback returns the empty list.  (The explicit-tag path returns its
    entries as they are: the strategy is not applied to them.) *)
Theorem strategy_applied_to_live_data (pc : ProxmoxClient) (resource : ClusterResource)
    (tags : list string) (w : World) :
  getTagValue tags "dnsherpa-ip" = "" →
  reachable pc resource →
  (getResourceIPs pc resource tags w).1 =
  Ok (match liveAddresses pc resource (interfaceNameOf pc tags) with
      | Some collected => applyMultiIPv4Strategy pc collected
      | None => []
      end).
Proof.
  intros Htag Hreach. unfold getResourceIPs. rewrite Htag.
  rewrite decide_False by (by intros []).
  by apply extractIPsFromInterface_live.
Qed.

Lemma strategy_applied_to_live_data_witness :
  (getResourceIPs (samplePC "first" sampleAgent []) (sampleResource "qemu")
     ["web"; "dnsherpa-interface:eth0"] emptyWorld).1
  = Ok (applyMultiIPv4Strategy (samplePC "first" sampleAgent [])
          ["10.0.0.1"; "10.0.0.2"; "fe80::1"; "2001:db8::1"; "2001:db8::2"]).
Proof.
  apply (strategy_applied_to_live_data (samplePC "first" sampleAgent [])
           (sampleResource "qemu") ["web"; "dnsherpa-interface:eth0"] emptyWorld).
  - vm_compute. reflexivity.
  - split_and!; [reflexivity|intros _; reflexivity|intros _; reflexivity].
Defined.

Lemma explicit_tag_skips_strategy_counterexample :
  (getResourceIPs (samplePC "first" sampleAgent []) (sampleResource "qemu")
     ["dnsherpa-ip:10.0.0.1,10.0.0.2"] emptyWorld).1
  = Ok ["10.0.0.1"; "10.0.0.2"] ∧
  applyMultiIPv4Strategy (samplePC "first" sampleAgent []) ["10.0.0.1"; "10.0.0.2"]
  = ["10.0.0.1"].
Proof. split; vm_compute; reflexivity. Qed.

(** ** The Docker sync phase *)

Section Sync.

Variable ec : EtcdClient.

Abbreviation value := (recordValue ec).

Lemma CreateDNSRecord_run (host : string) (w : World) :
  (CreateDNSRecord ec host w).2 =
  match faults w with
  | true :: fs =>
      {| kv := kv w; faults := fs; trace := trace w ++ [EvPut (basePath ec host) value false] |}
  | _ =>
      {| kv := <[basePath ec host := value]> (kv w); faults := tail (faults w);
         trace := trace w ++ [EvPut (basePath ec host) value true] |}
  end.
Proof.
  unfold CreateDNSRecord, wrap, Put, recordValue.
  destruct (net.ParseIP (DNSTarget (ec_config ec))); by destruct (faults w) as [|[] fs].
Qed.

Lemma forEach_hosts (hosts : list string) (w : World) :
  forEach hosts (fun host => logged (CreateDNSRecord ec host)) w = (Ok tt, putAll ec hosts w).
Proof.
  revert w. induction hosts as [|h hosts IH]; intros w; [done|].
  simpl. unfold bind, logged at 1. by rewrite IH.
Qed.

Lemma putAll_app (a b : list string) (w : World) :
  putAll ec (a ++ b) w = putAll ec b (putAll ec a w).
Proof. unfold putAll. by rewrite fold_left_app. Qed.

Lemma forEach_containers (containers : list ContainerSummary) (w : World) :
  forEach containers (fun container =>
    let hosts := extractHostsFromLabels (Labels container) in
    if (0 <? length hosts)%nat then
      forEach hosts (fun host => logged (CreateDNSRecord ec host))
    else ret tt) w
  = (Ok tt, putAll ec (flat_map (fun c => extractHostsFromLabels (Labels c)) containers) w).
Proof.
  revert w. induction containers as [|c cs IH]; intros w; [done|].
  cbn [forEach flat_map]. unfold bind at 1. rewrite putAll_app.
  destruct (extractHostsFromLabels (Labels c)) as [|h hs] eqn:E.
  - simpl. apply IH.
  - change (0 <? length (h :: hs))%nat with true. cbv iota.
    rewrite forEach_hosts. apply IH.
Qed.

(** The trace of the writes does not depend on what the store answers. *)
Lemma putAll_attempts (hosts : list string) (w : World) :
  ∃ l, trace (putAll ec hosts w) = trace w ++ l ∧
       attempts l = (fun host => (basePath ec host, value)) <$> hosts.
Proof.
  revert w. induction hosts as [|h hosts IH]; intros w.
  { exists []. by rewrite app_nil_r. }
  simpl. destruct (IH (CreateDNSRecord ec h w).2) as (l & -> & Hl).
  rewrite CreateDNSRecord_run.
  destruct (faults w) as [|[] fs]; simpl; rewrite <- app_assoc;
    eexists (_ :: l); (split; [done|]); simpl; by rewrite Hl.
Qed.

(** A store in which every host already has its record is left as it
    is, whatever the store answers. *)
Lemma putAll_unchanged (hosts : list string) (w : World) :
  (∀ host, host ∈ hosts → kv w !! basePath ec host = Some value) →
  kv (putAll ec hosts w) = kv w.
Proof.
  revert w. induction hosts as [|h hosts IH]; intros w Hall; [done|].
  simpl.
  assert (kv (CreateDNSRecord ec h w).2 = kv w) as Hkv.
  { rewrite CreateDNSRecord_run. destruct (faults w) as [|[] fs]; simpl; try done;
      apply insert_id, Hall; by left. }
  rewrite IH; [done|]. intros host Hin. rewrite Hkv. apply Hall. by right.
Qed.

Lemma putAll_keeps (hosts : list string) (w : World) (key : string) :
  kv w !! key = Some value → kv (putAll ec hosts w) !! key = Some value.
Proof.
  revert w. induction hosts as [|h hosts IH]; intros w Hk; [done|].
  simpl. apply IH. rewrite CreateDNSRecord_run.
  destruct (faults w) as [|[] fs]; simpl; try done;
    (destruct (decide (basePath ec h = key)) as [->|Hne];
     [apply lookup_insert_eq|by rewrite lookup_insert_ne]).
Qed.

(** After a run whose writes the store accepts, every host has its
    record. *)
Lemma putAll_accepted (hosts : list string) (w : World) :
  accepted (length hosts) w →
  ∀ host, host ∈ hosts → kv (putAll ec hosts w) !! basePath ec host = Some value.
Proof.
  revert w. induction hosts as [|h hosts IH]; intros w Hacc host Hin.
  { by apply elem_of_nil in Hin. }
  simpl in Hacc. apply accepted_S in Hacc as [H1 Hrest].
  assert ((CreateDNSRecord ec h w).2 =
          {| kv := <[basePath ec h := value]> (kv w); faults := drop 1 (faults w);
             trace := trace w ++ [EvPut (basePath ec h) value true] |}) as Hrun.
  { rewrite CreateDNSRecord_run. unfold accepted in H1.
    destruct (faults w) as [|[] fs]; simpl in *; try done.
    by apply Forall_cons in H1 as [? _]. }
  simpl. rewrite Hrun.
  apply elem_of_cons in Hin as [->|Hin].
  - apply putAll_keeps. simpl. apply lookup_insert_eq.
  - apply IH; [exact Hrest|done].
Qed.

Lemma extractHostsFromLabels_perm (l l' : list (string * string)) :
  l ≡ₚ l' → extractHostsFromLabels l ≡ₚ extractHostsFromLabels l'.
Proof.
  unfold extractHostsFromLabels. apply Permutation_flat_map.
Qed.

End Sync.

Lemma SyncExistingContainers_run (dc : DockerClient) (w : World) :
  (SyncExistingContainers dc w).2 = putAll (dc_etcdClient dc) (syncHosts dc) (listed w).
Proof.
  unfold SyncExistingContainers, syncHosts, ContainerList, wrap, bind, emit.
  destruct (docker_ContainerList dc) as [cs|]; [|done].
  cbn. by rewrite forEach_containers.
Qed.

Lemma syncHosts_perm (dc dc' : DockerClient) :
  sameContainerState dc dc' → syncHosts dc ≡ₚ syncHosts dc'.
Proof.
  intros [_ H]. unfold syncHosts.
  destruct (docker_ContainerList dc) as [cs|], (docker_ContainerList dc') as [cs'|];
    try done.
  induction H as [|c c' cs cs' [_ Hc] _ IH]; [done|].
  simpl. apply Permutation_app; [by apply extractHostsFromLabels_perm|done].
Qed.

Lemma sync_attempts (dc : DockerClient) (w : World) :
  attempts (newEvents w (SyncExistingContainers dc w).2) =
  (fun host =>
     (basePath (dc_etcdClient dc) host,
      Marshal {| Host := DNSTarget (ec_config (dc_etcdClient dc));
                 TTL := RecordTTL (ec_config (dc_etcdClient dc)) |})) <$> syncHosts dc.
Proof.
  rewrite SyncExistingContainers_run.
  destruct (putAll_attempts (dc_etcdClient dc) (syncHosts dc) (listed w)) as (l & Htr & Hl).
  rewrite (newEvents_app w _ (EvContainerList :: l)).
  - exact Hl.
  - rewrite Htr. simpl. by rewrite <- app_assoc.
Qed.

(** C5.  The Docker sync phase is idempotent.  When a first run, whose
    writes the store accepts, is followed by a second run against the same
    container state, the second run writes the same keys with the same
    values as the first, and the store holds after it exactly what it held
    after the first run. *)
Theorem SyncExistingContainers_idempotent (dc dc' : DockerClient) (w : World) :
  sameContainerState dc dc' →
  accepted (length (syncHosts dc)) w →
  kv (SyncExistingContainers dc' (SyncExistingContainers dc w).2).2 =
    kv (SyncExistingContainers dc w).2 ∧
  attempts (newEvents (SyncExistingContainers dc w).2
              (SyncExistingContainers dc' (SyncExistingContainers dc w).2).2)
  ≡ₚ attempts (newEvents w (SyncExistingContainers dc w).2).
Proof.
  intros Hsame Hacc. pose proof (syncHosts_perm dc dc' Hsame) as Hperm.
  destruct Hsame as [Hec _]. split.
  - rewrite (SyncExistingContainers_run dc' _).
    rewrite putAll_unchanged; [done|].
    intros host Hin. rewrite <- Hec. change (kv (listed ?x)) with (kv x).
    rewrite SyncExistingContainers_run.
    apply putAll_accepted; [exact Hacc|]. by rewrite Hperm.
  - rewrite !sync_attempts, <- Hec. by rewrite Hperm.
Qed.

Lemma SyncExistingContainers_idempotent_witness :
  kv (SyncExistingContainers
        (sampleDocker [("traefik.http.routers.b.rule", "Host(`b.com`)");
                       ("traefik.http.routers.a.rule", "Host(`a.com`) || Host(`www.a.com`)")])
        (SyncExistingContainers
           (sampleDocker [("traefik.http.routers.a.rule", "Host(`a.com`) || Host(`www.a.com`)");
                          ("traefik.http.routers.b.rule", "Host(`b.com`)")])
           emptyWorld).2).2
  = kv (SyncExistingContainers
          (sampleDocker [("traefik.http.routers.a.rule", "Host(`a.com`) || Host(`www.a.com`)");
                         ("traefik.http.routers.b.rule", "Host(`b.com`)")])
          emptyWorld).2.
Proof.
  apply (SyncExistingContainers_idempotent
           (sampleDocker [("traefik.http.routers.a.rule", "Host(`a.com`) || Host(`www.a.com`)");
                          ("traefik.http.routers.b.rule", "Host(`b.com`)")])
           (sampleDocker [("traefik.http.routers.b.rule", "Host(`b.com`)");
                          ("traefik.http.routers.a.rule", "Host(`a.com`) || Host(`www.a.com`)")])
           emptyWorld).
  - split; [reflexivity|]. simpl. constructor; [|constructor].
    split; [reflexivity|]. apply perm_swap.
  - unfold accepted. simpl faults. rewrite take_nil. constructor.
Defined.

Example SyncExistingContainers_keys :
  putKeys (newEvents emptyWorld
    (SyncExistingContainers
       (sampleDocker [("traefik.http.routers.a.rule", "Host(`a.com`) || Host(`www.a.com`)");
                      ("other", "Host(`x.com`)")])
       emptyWorld).2)
  = ["/skydns/com/a"; "/skydns/com/a/www"].
Proof. vm_compute. reflexivity. Qed.

(** ** The key path of a host name *)

Lemma CreateDNSRecord_key (ec : EtcdClient) (h : string) (w : World) :
  putKeys (newEvents w (CreateDNSRecord ec h w).2) = [basePath ec h].
Proof.
  destruct (CreateDNSRecord_events ec h w) as [ok Hev].
  by rewrite (newEvents_app _ _ _ Hev).
Qed.

(** C4.  For every host name [h], the key path is built from the labels of
    [h] (split on dots) in reverse order, joined by slashes under the
    prefix, and reversing these labels again gives back [h]: the reversal
    is an involution.  The key that [CreateDNSRecord] writes for [h] is
    this path in every run, whatever the state of the world.  The labels
    can be read off the path itself whenever [h] holds no slash. *)
Theorem basePath_reversal_involution (ec : EtcdClient) (h : string) :
  (∀ w, putKeys (newEvents w (CreateDNSRecord ec h w).2) =
        [EtcdPrefix (ec_config ec) +:+ "/" +:+
         strings.Join (reverseParts (strings.Split h ".")) "/"]) ∧
  strings.Join (reverseParts (reverseParts (strings.Split h "."))) "." = h ∧
  (strings.Contains h "/" = false →
   hostnameOfPath (EtcdPrefix (ec_config ec)) (basePath ec h) = Some h).
Proof.
  split_and!.
  - intros w. apply CreateDNSRecord_key.
  - rewrite reverseParts_involutive. apply Join_Split.
  - apply hostnameOfPath_basePath.
Qed.

Lemma basePath_reversal_involution_witness :
  hostnameOfPath "/skydns" (basePath (sampleEtcd "t") "api.example.com")
  = Some "api.example.com".
Proof.
  apply (basePath_reversal_involution (sampleEtcd "t") "api.example.com").
  reflexivity.
Defined.

(** ** Worked examples *)

Example Split_dots : strings.Split "api.example.com" "." = ["api"; "example"; "com"].
Proof. reflexivity. Qed.

Example Split_edges : strings.Split ".a..b." "." = [""; "a"; ""; "b"; ""].
Proof. reflexivity. Qed.

Example Split_long_separator : strings.Split "a, b,, c" ", " = ["a"; "b,"; "c"].
Proof. reflexivity. Qed.

Example TrimSpace_both_ends :
  strings.TrimSpace (strings.bytes [9; 32; 194; 160]%nat +:+ "10.0.0.1 ") = "10.0.0.1".
Proof. vm_compute. reflexivity. Qed.

Example ParseIP_families :
  isIPv4 "10.0.0.1" = true ∧ isIPv6 "fe80::1" = true ∧ isIPv6 "2001:db8::1" = true ∧
  isIPv4 "::ffff:192.0.2.1" = true ∧
  isIP "01.2.3.4" = false ∧ isIP "1.2.3" = false ∧ isIP "fe80::1%eth0" = false ∧
  isIP "1::2::3" = false ∧ isIP "" = false.
Proof. vm_compute. repeat split. Qed.

Example basePath_example : basePath (sampleEtcd "t") "api.example.com" = "/skydns/com/example/api".
Proof. reflexivity. Qed.

Example generateHostname_short :
  generateHostname (samplePC "first" [] []) "web-server" = "web-server.home.lab".
Proof. reflexivity. Qed.

Example generateHostname_dotted :
  generateHostname (samplePC "first" [] []) "db.example.com" = "db.example.com".
Proof. reflexivity. Qed.

Example extractHostsFromLabels_two :
  extractHostsFromLabels
    [("traefik.http.routers.X.rule", "Host(`a.com`) && Host(`b.com`)");
     ("com.docker.compose.service", "Host(`c.com`)")]
  = ["a.com"; "b.com"].
Proof. vm_compute. reflexivity. Qed.

Lemma LoadConfig_fixes_TTL (env : Env) (cfg : Config) :
  LoadConfig env = Some cfg → RecordTTL cfg = 300%Z ∧ DNSTarget cfg ≠ "".
Proof.
  unfold LoadConfig. destruct (detectDNSTarget env) as [target|] eqn:E; [|done].
  simpl. intros [= <-]. split; [done|]. simpl.
  unfold detectDNSTarget in E. case_decide as H1; [by injection E as <-|].
  destruct (hostnameFile env) as [data|]; [|done].
  case_decide as H2; [done|].
  destruct (strings.Contains _ _); [by injection E as <-|].
  case_decide as H3; [done|]. injection E as <-.
  by destruct (strings.TrimSpace data).
Qed.

Example LoadConfig_sample :
  LoadConfig sampleEnv =
  Some {| EtcdPrefix := "/skydns"; DNSTarget := "traefik.home.lab"; RecordTTL := 300;
          Domain := ""; ProxmoxInterface := "eth0"; ProxmoxMultiIPv4 := "first" |}.
Proof. vm_compute. reflexivity. Qed.

(** * Further properties *)

(** ** Computations that write nothing *)

Section ReadOnly.

Context {A B : Type}.

Lemma readOnly_ret (a : A) : readOnly (ret a).
Proof. intros w. exists []. rewrite app_nil_r. by destruct w. Qed.

Lemma readOnly_bind (m : M A) (f : A → M B) :
  readOnly m → (∀ a, readOnly (f a)) → readOnly (bind m f).
Proof.
  intros Hm Hf w. unfold bind. destruct (Hm w) as (l & Hw & Hl).
  destruct (m w) as [[a|e] w1]; simpl in Hw; subst w1.
  - destruct (Hf a {| kv := kv w; faults := faults w; trace := trace w ++ l |})
      as (l' & -> & Hl').
    exists (l ++ l'). simpl. rewrite app_assoc. split; [done|]. by apply Forall_app.
  - by exists l.
Qed.

Lemma readOnly_wrap (msg : string) (m : M A) : readOnly m → readOnly (wrap msg m).
Proof.
  intros Hm w. unfold wrap. destruct (Hm w) as (l & Hw & Hl).
  exists l. by destruct (m w) as [[a|e] w1].
Qed.

End ReadOnly.

Lemma readOnly_emit (e : Event) : notPut e → readOnly (emit e).
Proof. intros He w. exists [e]. split; [done|]. by constructor. Qed.

Lemma readOnly_check (call : string) (ok : bool) : readOnly (check call ok).
Proof. intros w. exists []. rewrite app_nil_r. unfold check. by destruct ok, w. Qed.

Lemma readOnly_extractIPsFromInterface (pc : ProxmoxClient) (resource : ClusterResource)
    (interfaceName : string) :
  readOnly (extractIPsFromInterface pc resource interfaceName).
Proof.
  unfold extractIPsFromInterface, Node, VirtualMachineGet, ContainerGet,
    AgentGetNetworkIFaces, Interfaces, extractIPsFromConfig.
  repeat first
    [ apply readOnly_bind; [|intros ?]
    | apply readOnly_emit; exact I
    | apply readOnly_check
    | apply readOnly_ret
    | case_decide
    | case_match ].
Qed.

Lemma readOnly_getResourceIPs (pc : ProxmoxClient) (resource : ClusterResource)
    (tags : list string) :
  readOnly (getResourceIPs pc resource tags).
Proof.
  unfold getResourceIPs. case_decide; [apply readOnly_ret|].
  apply readOnly_extractIPsFromInterface.
Qed.

(** X1.  The resolution of the addresses of a resource only reads: it
    leaves the store and the outcomes of the coming writes as they are and
    attempts no write, whatever the tags and whatever the platform
    answers. *)
Theorem getResourceIPs_reads_only (pc : ProxmoxClient) (resource : ClusterResource)
    (tags : list string) (w : World) :
  kv (getResourceIPs pc resource tags w).2 = kv w ∧
  faults (getResourceIPs pc resource tags w).2 = faults w ∧
  attempts (newEvents w (getResourceIPs pc resource tags w).2) = [].
Proof.
  destruct (readOnly_getResourceIPs pc resource tags w) as (l & -> & Hl).
  split_and!; [done..|].
  rewrite (newEvents_app w _ l) by done.
  induction Hl as [|e l He _ IH]; [done|]. by destruct e.
Qed.

(** ** Writes stay under the prefix *)

Section Confined.

Context {A B : Type}.
Variable pre : string.

Lemma confined_ret (a : A) : confined pre (ret a).
Proof. intros w. exists []. by rewrite app_nil_r. Qed.

Lemma confined_bind (m : M A) (f : A → M B) :
  confined pre m → (∀ a, confined pre (f a)) → confined pre (bind m f).
Proof.
  intros Hm Hf w. unfold bind. destruct (Hm w) as (l & Hw & Hl).
  destruct (m w) as [[a|e] w1]; simpl in Hw.
  - destruct (Hf a w1) as (l' & -> & Hl').
    exists (l ++ l'). rewrite Hw, app_assoc. split; [done|]. by apply Forall_app.
  - by exists l.
Qed.

Lemma confined_wrap (msg : string) (m : M A) : confined pre m → confined pre (wrap msg m).
Proof.
  intros Hm w. unfold wrap. destruct (Hm w) as (l & Hw & Hl).
  exists l. by destruct (m w) as [[a|e] w1].
Qed.

Lemma confined_readOnly (m : M A) : readOnly m → confined pre m.
Proof.
  intros Hm w. destruct (Hm w) as (l & -> & Hl). exists l. split; [done|].
  eapply Forall_impl; [done|]. by intros [].
Qed.

Lemma confined_forEach (xs : list A) (body : A → M unit) :
  (∀ x, confined pre (body x)) → confined pre (forEach xs body).
Proof.
  intros Hbody. induction xs as [|x xs IH]; simpl.
  - intros w. exists []. by rewrite app_nil_r.
  - intros w. unfold bind. destruct (Hbody x w) as (l & Hw & Hl).
    destruct (body x w) as [[[]|e] w1]; simpl in Hw.
    + destruct (IH w1) as (l' & -> & Hl').
      exists (l ++ l'). rewrite Hw, app_assoc. split; [done|]. by apply Forall_app.
    + by exists l.
Qed.

End Confined.

Lemma confined_logged (pre : string) (m : M unit) : confined pre m → confined pre (logged m).
Proof. intros Hm w. destruct (Hm w) as (l & Hw & Hl). by exists l. Qed.

Lemma confined_Put (pre key value : string) :
  strings.HasPrefix key (pre +:+ "/") = true → confined pre (Put key value).
Proof.
  intros Hkey w. unfold Put.
  destruct (faults w) as [|[] fs]; eexists [_]; (split; [done|]); by constructor.
Qed.

Lemma prefix_append (p s t : string) :
  String.prefix p s = true → String.prefix p (s +:+ t) = true.
Proof.
  revert s. induction p as [|a p IH]; intros s; [by destruct s, t|].
  destruct s as [|b s]; [done|]. rewrite append_cons. simpl.
  destruct (ascii_dec a b); [apply IH|done].
Qed.

Lemma basePath_under_prefix (ec : EtcdClient) (hostname : string) :
  strings.HasPrefix (basePath ec hostname) (EtcdPrefix (ec_config ec) +:+ "/") = true.
Proof.
  unfold basePath, strings.HasPrefix.
  rewrite <- (append_assoc (EtcdPrefix (ec_config ec)) "/" _). apply prefix_app.
Qed.

Lemma confined_CreateDNSRecord (ec : EtcdClient) (hostname : string) :
  confined (EtcdPrefix (ec_config ec)) (CreateDNSRecord ec hostname).
Proof.
  unfold CreateDNSRecord. apply confined_wrap, confined_Put, basePath_under_prefix.
Qed.

Lemma confined_CreateDNSRecords_loop (ec : EtcdClient) (hostname base : string)
    (ips : list string) (c4 c6 : Z) (cr : list string) :
  strings.HasPrefix base (EtcdPrefix (ec_config ec) +:+ "/") = true →
  confined (EtcdPrefix (ec_config ec))
    (CreateDNSRecords_loop ec hostname base ips c4 c6 cr).
Proof.
  intros Hbase. revert c4 c6 cr.
  induction ips as [|ip ips IH]; intros c4 c6 cr; simpl; [apply confined_ret|].
  destruct (net.ParseIP ip) as [a|]; [|apply IH].
  destruct (net.To4 a);
    (apply confined_bind; [|intros _; apply IH]);
    apply confined_wrap, confined_Put; unfold strings.HasPrefix in *;
    by apply prefix_append.
Qed.

Lemma confined_CreateDNSRecords (ec : EtcdClient) (hostname : string) (ips : list string) :
  confined (EtcdPrefix (ec_config ec)) (CreateDNSRecords ec hostname ips).
Proof.
  unfold CreateDNSRecords. apply confined_bind; [|intros _; apply confined_ret].
  apply confined_CreateDNSRecords_loop, basePath_under_prefix.
Qed.

Lemma confined_processVM (pc : ProxmoxClient) (vm : VirtualMachine) (nodeName : string) :
  confined (EtcdPrefix (ec_config (etcdClient pc))) (processVM pc vm nodeName).
Proof.
  unfold processVM. case_match; [apply confined_ret|].
  apply confined_bind.
  - apply confined_wrap, confined_readOnly, readOnly_getResourceIPs.
  - intros ips. case_decide; [apply confined_ret|apply confined_CreateDNSRecords].
Qed.

Lemma confined_processContainer (pc : ProxmoxClient) (container : Container)
    (nodeName : string) :
  confined (EtcdPrefix (ec_config (etcdClient pc))) (processContainer pc container nodeName).
Proof.
  unfold processContainer. case_match; [apply confined_ret|].
  apply confined_bind.
  - apply confined_wrap, confined_readOnly, readOnly_getResourceIPs.
  - intros ips. case_decide; [apply confined_ret|apply confined_CreateDNSRecords].
Qed.

Lemma confined_syncNode (pc : ProxmoxClient) (listing : ProxmoxListing)
    (nodeStatus : NodeStatus) :
  confined (EtcdPrefix (ec_config (etcdClient pc))) (syncNode pc listing nodeStatus).
Proof.
  unfold syncNode. case_decide; [apply confined_ret|].
  intros w.
  assert (readOnly (Node pc (ns_Node nodeStatus))) as Hnode.
  { unfold Node. apply readOnly_bind; [by apply readOnly_emit|intros _; apply readOnly_check]. }
  destruct (Hnode w) as (l & Hw & Hl).
  assert (Forall (underPrefix (EtcdPrefix (ec_config (etcdClient pc)))) l) as Hl'.
  { eapply Forall_impl; [done|]. by intros []. }
  destruct (Node pc (ns_Node nodeStatus) w) as [[[]|e] w1]; simpl in Hw; subst w1.
  - match goal with |- context [bind ?m ?f ?w1] =>
      assert (confined (EtcdPrefix (ec_config (etcdClient pc))) (bind m f)) as Hrest
    end.
    { apply confined_bind; [|intros _]; case_match; try apply confined_ret;
        apply confined_forEach; intros x.
      - unfold syncVM. case_decide; [apply confined_ret|].
        apply confined_logged, confined_processVM.
      - unfold syncContainer. case_decide; [apply confined_ret|].
        apply confined_logged, confined_processContainer. }
    destruct (Hrest {| kv := kv w; faults := faults w; trace := trace w ++ l |})
      as (l2 & -> & Hl2).
    exists (l ++ l2). simpl. rewrite app_assoc. split; [done|]. by apply Forall_app.
  - by exists l.
Qed.

Lemma confined_syncAllResources (pc : ProxmoxClient) (listing : ProxmoxListing) :
  confined (EtcdPrefix (ec_config (etcdClient pc))) (syncAllResources pc listing).
Proof.
  unfold syncAllResources. case_match.
  - apply confined_forEach. intros x. apply confined_syncNode.
  - intros w. exists []. by rewrite app_nil_r.
Qed.

Lemma confined_SyncExistingContainers (dc : DockerClient) :
  confined (EtcdPrefix (ec_config (dc_etcdClient dc))) (SyncExistingContainers dc).
Proof.
  unfold SyncExistingContainers. apply confined_bind.
  - apply confined_wrap. unfold ContainerList. apply confined_bind.
    + apply confined_readOnly. by apply readOnly_emit.
    + intros _ w. exists []. rewrite app_nil_r. by case_match.
  - intros containers. apply confined_forEach. intros c. cbv zeta.
    case_match; [|apply confined_ret].
    apply confined_forEach. intros h. apply confined_logged, confined_CreateDNSRecord.
Qed.

Lemma confined_handleContainerEvent (dc : DockerClient)
    (inspect : string → option (list (string * string))) (event : Message) :
  confined (EtcdPrefix (ec_config (dc_etcdClient dc))) (handleContainerEvent dc inspect event).
Proof.
  unfold handleContainerEvent. repeat case_decide; try apply confined_ret.
  case_match; [|apply confined_ret]. cbv zeta. case_decide; [apply confined_ret|].
  apply confined_forEach. intros h. apply confined_logged, confined_CreateDNSRecord.
Qed.

Lemma confined_putKeys {A} (pre : string) (m : M A) (w : World) :
  confined pre m →
  Forall (fun key => strings.HasPrefix key (pre +:+ "/") = true)
         (putKeys (newEvents w (m w).2)).
Proof.
  intros Hm. destruct (Hm w) as (l & Hw & Hl).
  rewrite (newEvents_app w _ l Hw). clear Hw.
  induction Hl as [|e l He _ IH]; [constructor|].
  destruct e; simpl; try done. by constructor.
Qed.

(** X2.  Every key that the two reconcilers write lies under the
    configured prefix: the writes of a Docker sync, of the handling of a
    Docker event and of a Proxmox poll cycle all go to keys that start with
    [<prefix>/], whatever the containers, the guests and the answers of
    the store are. *)
Theorem writes_stay_under_prefix (dc : DockerClient) (pc : ProxmoxClient)
    (inspect : string → option (list (string * string))) (event : Message)
    (listing : ProxmoxListing) (w : World) :
  Forall (fun key => strings.HasPrefix key (EtcdPrefix (ec_config (dc_etcdClient dc)) +:+ "/")
                     = true)
         (putKeys (newEvents w (SyncExistingContainers dc w).2)) ∧
  Forall (fun key => strings.HasPrefix key (EtcdPrefix (ec_config (dc_etcdClient dc)) +:+ "/")
                     = true)
         (putKeys (newEvents w (handleContainerEvent dc inspect event w).2)) ∧
  Forall (fun key => strings.HasPrefix key (EtcdPrefix (ec_config (etcdClient pc)) +:+ "/")
                     = true)
         (putKeys (newEvents w (syncAllResources pc listing w).2)).
Proof.
  split_and!; apply confined_putKeys.
  - apply confined_SyncExistingContainers.
  - apply confined_handleContainerEvent.
  - apply confined_syncAllResources.
Qed.

(** ** Runs against a store that refuses nothing *)

Lemma storeAfter_app (a b : list Event) (m : gmap string string) :
  storeAfter (a ++ b) m = storeAfter b (storeAfter a m).
Proof. unfold storeAfter. by rewrite fold_left_app. Qed.

Lemma lookup_storeAfter (events : list Event) (m : gmap string string) (key : string) :
  storeAfter events m !! key =
  match lastWrite events key with
  | Some v => Some v
  | None => m !! key
  end.
Proof.
  revert m. induction events as [|e events IH]; intros m; [done|].
  change (storeAfter (e :: events) m) with
    (storeAfter events
       (match e with EvPut k v true => <[k := v]> m | _ => m end)).
  rewrite IH. simpl. destruct (lastWrite events key); [done|].
  destruct e as [k v [] | | | | | | ]; try done.
  case_decide as Hk.
  - subst. apply lookup_insert_eq.
  - by rewrite lookup_insert_ne.
Qed.

Lemma storeAfter_idempotent (events : list Event) (m : gmap string string) :
  storeAfter events (storeAfter events m) = storeAfter events m.
Proof.
  apply map_eq. intros key. rewrite !lookup_storeAfter.
  by destruct (lastWrite events key).
Qed.

Section Planned.

Context {A B : Type}.

Lemma planned_ret (a : A) : planned (ret a).
Proof. exists (Ok a), []. intros [m f t] Hf. simpl in *. subst. by rewrite app_nil_r. Qed.

Lemma planned_bind (m : M A) (f : A → M B) :
  planned m → (∀ a, planned (f a)) → planned (bind m f).
Proof.
  intros (r & p & Hm) Hf. destruct r as [a|e].
  - destruct (Hf a) as (r2 & p2 & Hfa).
    exists r2, (p ++ p2). intros w Hw. unfold bind. rewrite (Hm w Hw).
    rewrite Hfa by done. simpl. by rewrite storeAfter_app, app_assoc.
  - exists (Err e), p. intros w Hw. unfold bind. by rewrite (Hm w Hw).
Qed.

Lemma planned_wrap (msg : string) (m : M A) : planned m → planned (wrap msg m).
Proof.
  intros (r & p & Hm). destruct r as [a|e].
  - exists (Ok a), p. intros w Hw. unfold wrap. by rewrite (Hm w Hw).
  - exists (Err (Wrap msg e)), p. intros w Hw. unfold wrap. by rewrite (Hm w Hw).
Qed.

End Planned.

Lemma planned_forEach {A} (xs : list A) (body : A → M unit) :
  (∀ x, planned (body x)) → planned (forEach xs body).
Proof.
  intros Hbody. induction xs as [|x xs IH]; simpl; [apply planned_ret|].
  apply planned_bind; [apply Hbody|by intros _].
Qed.

Lemma planned_logged (m : M unit) : planned m → planned (logged m).
Proof.
  intros (r & p & Hm). exists (Ok tt), p. intros w Hw. unfold logged. by rewrite (Hm w Hw).
Qed.

Lemma planned_emit (e : Event) : notPut e → planned (emit e).
Proof.
  intros He. exists (Ok tt), [e]. intros [m f t] Hf. simpl in *. subst.
  unfold emit. simpl. by destruct e.
Qed.

Lemma planned_check (call : string) (ok : bool) : planned (check call ok).
Proof.
  exists (if ok then Ok tt else Err (ErrAPI call)), [].
  intros [m f t] Hf. simpl in *. subst. unfold check. rewrite app_nil_r. by destruct ok.
Qed.

Lemma planned_Put (key value : string) : planned (Put key value).
Proof.
  exists (Ok tt), [EvPut key value true]. intros [m f t] Hf. simpl in *. by subst.
Qed.

Lemma planned_const {A} (r : result A) : planned (fun w => (r, w)).
Proof. exists r, []. intros [m f t] Hf. simpl in *. subst. by rewrite app_nil_r. Qed.

Ltac planned_step :=
  first
    [ apply planned_ret
    | apply planned_bind; [|intros ?]
    | apply planned_wrap
    | apply planned_logged
    | apply planned_emit; exact I
    | apply planned_check
    | apply planned_Put
    | apply planned_forEach; intros ?
    | apply planned_const
    | case_decide
    | case_match ].

Lemma planned_getResourceIPs (pc : ProxmoxClient) (resource : ClusterResource)
    (tags : list string) :
  planned (getResourceIPs pc resource tags).
Proof.
  unfold getResourceIPs, extractIPsFromInterface, Node, VirtualMachineGet, ContainerGet,
    AgentGetNetworkIFaces, Interfaces, extractIPsFromConfig.
  repeat planned_step.
Qed.

Lemma planned_CreateDNSRecords (ec : EtcdClient) (hostname : string) (ips : list string) :
  planned (CreateDNSRecords ec hostname ips).
Proof.
  unfold CreateDNSRecords. apply planned_bind; [|intros ?; apply planned_ret].
  cut (∀ base c4 c6 cr, planned (CreateDNSRecords_loop ec hostname base ips c4 c6 cr)).
  { intros H. apply H. }
  induction ips as [|ip ips IH]; intros base c4 c6 cr; simpl; [apply planned_ret|].
  destruct (net.ParseIP ip) as [a|]; [|apply IH].
  destruct (net.To4 a); (apply planned_bind; [|intros _; apply IH]);
    apply planned_wrap, planned_Put.
Qed.

Lemma planned_processVM (pc : ProxmoxClient) (vm : VirtualMachine) (nodeName : string) :
  planned (processVM pc vm nodeName).
Proof.
  unfold processVM. case_match; [apply planned_ret|].
  apply planned_bind; [apply planned_wrap, planned_getResourceIPs|].
  intros ips. case_decide; [apply planned_ret|apply planned_CreateDNSRecords].
Qed.

Lemma planned_processContainer (pc : ProxmoxClient) (container : Container)
    (nodeName : string) :
  planned (processContainer pc container nodeName).
Proof.
  unfold processContainer. case_match; [apply planned_ret|].
  apply planned_bind; [apply planned_wrap, planned_getResourceIPs|].
  intros ips. case_decide; [apply planned_ret|apply planned_CreateDNSRecords].
Qed.

Lemma planned_syncNode (pc : ProxmoxClient) (listing : ProxmoxListing)
    (nodeStatus : NodeStatus) :
  planned (syncNode pc listing nodeStatus).
Proof.
  unfold syncNode. case_decide; [apply planned_ret|].
  assert (planned (Node pc (ns_Node nodeStatus))) as (r & p & Hnode).
  { unfold Node. repeat planned_step. }
  destruct r as [[]|e].
  - match goal with |- context [bind ?m ?f _] =>
      assert (planned (bind m f)) as (r2 & p2 & Hk)
    end.
    { apply planned_bind; [|intros _]; case_match; try apply planned_ret;
        apply planned_forEach; intros x.
      - unfold syncVM. case_decide; [apply planned_ret|].
        apply planned_logged, planned_processVM.
      - unfold syncContainer. case_decide; [apply planned_ret|].
        apply planned_logged, planned_processContainer. }
    exists r2, (p ++ p2). intros w Hw. rewrite (Hnode w Hw), Hk by done.
    simpl. by rewrite storeAfter_app, app_assoc.
  - exists (Ok tt), p. intros w Hw. by rewrite (Hnode w Hw).
Qed.

Lemma planned_syncAllResources (pc : ProxmoxClient) (listing : ProxmoxListing) :
  planned (syncAllResources pc listing).
Proof.
  unfold syncAllResources. case_match; [|apply planned_const].
  apply planned_forEach. intros x. apply planned_syncNode.
Qed.

(** A planned computation, run again, leaves the store as its first run
    left it. *)
Lemma planned_idempotent {A} (m : M A) (w : World) :
  planned m → faults w = [] →
  kv (m (m w).2).2 = kv (m w).2 ∧ faults (m w).2 = [].
Proof.
  intros (r & p & Hm) Hw. rewrite (Hm w Hw). simpl. split; [|done].
  rewrite Hm by done. simpl. apply storeAfter_idempotent.
Qed.

(** X3.  A Proxmox poll cycle is idempotent on the store: against a store
    that refuses no write, a second cycle over the same cluster state
    leaves the store exactly as the first cycle left it. *)
Theorem syncAllResources_idempotent (pc : ProxmoxClient) (listing : ProxmoxListing)
    (w : World) :
  faults w = [] →
  kv (syncAllResources pc listing (syncAllResources pc listing w).2).2 =
  kv (syncAllResources pc listing w).2.
Proof.
  intros Hw. by apply planned_idempotent; [apply planned_syncAllResources|].
Qed.

Lemma syncAllResources_idempotent_witness :
  kv (syncAllResources (samplePC "all" sampleAgent []) sampleListing
        (syncAllResources (samplePC "all" sampleAgent []) sampleListing emptyWorld).2).2 =
  kv (syncAllResources (samplePC "all" sampleAgent []) sampleListing emptyWorld).2.
Proof.
  apply (syncAllResources_idempotent (samplePC "all" sampleAgent []) sampleListing emptyWorld).
  reflexivity.
Defined.

(** ** The poll cycle *)

Lemma forEach_Ok {A} (xs : list A) (body : A → M unit) (w : World) :
  (∀ x w', (body x w').1 = Ok tt) → (forEach xs body w).1 = Ok tt.
Proof.
  intros Hbody. revert w. induction xs as [|x xs IH]; intros w; [done|].
  simpl. unfold bind. specialize (Hbody x w).
  destruct (body x w) as [[[]|e] w1]; [apply IH|done].
Qed.

Lemma syncNode_Ok (pc : ProxmoxClient) (listing : ProxmoxListing) (nodeStatus : NodeStatus)
    (w : World) :
  (syncNode pc listing nodeStatus w).1 = Ok tt.
Proof.
  unfold syncNode. case_decide; [done|].
  destruct (Node pc (ns_Node nodeStatus) w) as [[[]|e] w1]; [|done].
  unfold bind.
  match goal with |- context [match ?m w1 with _ => _ end] =>
    assert ((m w1).1 = Ok tt) as Hvm
  end.
  { case_match; [|done]. apply forEach_Ok. intros vm w'. unfold syncVM. by case_decide. }
  match type of Hvm with (?m w1).1 = _ => destruct (m w1) as [[[]|e] w2] end; [|done].
  case_match; [|done]. apply forEach_Ok. intros c w'. unfold syncContainer. by case_decide.
Qed.

(** X4.  A poll cycle fails only as a whole and only on the node listing:
    when the listing of the nodes fails, [syncAllResources] returns that
    error and has done nothing; in every other case it returns without an
    error, whatever goes wrong for a single node or guest. *)
Theorem syncAllResources_result (pc : ProxmoxClient) (listing : ProxmoxListing) (w : World) :
  (api_Nodes listing = None →
   syncAllResources pc listing w = (Err (Wrap "failed to get nodes" (ErrAPI "Nodes")), w)) ∧
  (api_Nodes listing ≠ None → (syncAllResources pc listing w).1 = Ok tt).
Proof.
  unfold syncAllResources. split; intros H.
  - by rewrite H.
  - destruct (api_Nodes listing); [|done].
    apply forEach_Ok. intros. apply syncNode_Ok.
Qed.

Lemma syncAllResources_result_witness :
  (syncAllResources
     {| client := {| api_Node := fun _ => false; api_VirtualMachine := fun _ _ => false;
                     api_AgentGetNetworkIFaces := fun _ _ => None;
                     api_Container := fun _ _ => false;
                     api_Interfaces := fun _ _ => None |};
        etcdClient := sampleEtcd "t"; pc_config := sampleConfig "t" "first" |}
     sampleListing {| kv := ∅; faults := [true; true]; trace := [] |}).1 = Ok tt.
Proof.
  apply syncAllResources_result. discriminate.
Defined.

Lemma forEach_ext {A} (xs : list A) (f g : A → M unit) (w : World) :
  (∀ x w', f x w' = g x w') → forEach xs f w = forEach xs g w.
Proof.
  intros H. revert w. induction xs as [|x xs IH]; intros w; [done|].
  simpl. unfold bind. rewrite H. destruct (g x w) as [[[]|e] w1]; [apply IH|done].
Qed.

Lemma forEach_filter {A} (P : A → Prop) `{∀ x, Decision (P x)} (xs : list A)
    (body : A → M unit) (w : World) :
  (∀ x w', ¬ P x → body x w' = (Ok tt, w')) →
  forEach (filter P xs) body w = forEach xs body w.
Proof.
  intros Hskip. revert w. induction xs as [|x xs IH]; intros w; [done|].
  rewrite filter_cons. case_decide as HP; simpl; unfold bind.
  - destruct (body x w) as [[[]|e] w1]; [apply IH|done].
  - rewrite (Hskip x w HP). apply IH.
Qed.

Lemma forEach_fmap {A B} (g : A → B) (xs : list A) (body : B → M unit) (w : World) :
  forEach (g <$> xs) body w = forEach xs (fun x => body (g x)) w.
Proof.
  revert w. induction xs as [|x xs IH]; intros w; [done|].
  simpl. unfold bind. destruct (body (g x) w) as [[[]|e] w1]; [apply IH|done].
Qed.

Lemma VirtualMachines_liveListing (pc : ProxmoxClient) (listing : ProxmoxListing)
    (node : string) (w : World) :
  match VirtualMachines (liveListing listing) node with
  | Some vms => forEach vms (syncVM pc node)
  | None => ret tt
  end w =
  match VirtualMachines listing node with
  | Some vms => forEach vms (syncVM pc node)
  | None => ret tt
  end w.
Proof.
  unfold VirtualMachines. simpl.
  destruct (api_VirtualMachines listing node) as [vms|]; [|done].
  simpl. rewrite !forEach_fmap. apply forEach_filter. intros vm w' Hvm.
  unfold syncVM. by rewrite decide_True.
Qed.

Lemma Containers_liveListing (pc : ProxmoxClient) (listing : ProxmoxListing)
    (node : string) (w : World) :
  match Containers (liveListing listing) node with
  | Some containers => forEach containers (syncContainer pc node)
  | None => ret tt
  end w =
  match Containers listing node with
  | Some containers => forEach containers (syncContainer pc node)
  | None => ret tt
  end w.
Proof.
  unfold Containers. simpl.
  destruct (api_Containers listing node) as [containers|]; [|done].
  simpl. rewrite !forEach_fmap. apply forEach_filter. intros c w' Hc.
  unfold syncContainer. by rewrite decide_True.
Qed.

Lemma syncNode_liveListing (pc : ProxmoxClient) (listing : ProxmoxListing)
    (nodeStatus : NodeStatus) (w : World) :
  syncNode pc (liveListing listing) nodeStatus w = syncNode pc listing nodeStatus w.
Proof.
  unfold syncNode. case_decide; [done|].
  destruct (Node pc (ns_Node nodeStatus) w) as [[[]|e] w1]; [|done].
  unfold bind. rewrite VirtualMachines_liveListing.
  match goal with |- context [match ?m w1 with _ => _ end] =>
    destruct (m w1) as [[[]|e] w2]
  end; [|done].
  apply Containers_liveListing.
Qed.

(** X5.  Nodes that are not online and guests that are not running are
    passed over without a trace: a poll cycle does exactly the same (same
    result, same store, same calls) as it does on the listing from which
    they have been removed. *)
Theorem syncAllResources_live_only (pc : ProxmoxClient) (listing : ProxmoxListing)
    (w : World) :
  syncAllResources pc (liveListing listing) w = syncAllResources pc listing w.
Proof.
  unfold syncAllResources. simpl.
  destruct (api_Nodes listing) as [nodes|]; [|done]. simpl.
  rewrite forEach_filter.
  - apply forEach_ext. intros x w'. apply syncNode_liveListing.
  - intros x w' Hx. unfold syncNode. by rewrite decide_True.
Qed.

Lemma notPut_attempts (l : list Event) : Forall notPut l → attempts l = [].
Proof. induction 1 as [|e l He _ IH]; [done|]. by destruct e. Qed.

Lemma process_without_addresses (ec : EtcdClient) (hostname msg : string)
    (resolve : M (list string)) (w : World) :
  readOnly resolve →
  (∀ ip ips, (resolve w).1 ≠ Ok (ip :: ips)) →
  let run :=
    bind (wrap msg resolve)
         (fun ips => if decide (length ips = 0%nat) then ret tt
                     else CreateDNSRecords ec hostname ips) w in
  kv run.2 = kv w ∧ faults run.2 = faults w ∧ attempts (newEvents w run.2) = [].
Proof.
  intros Hro Hnone. simpl. unfold bind, wrap.
  destruct (Hro w) as (l & Hw & Hl).
  destruct (resolve w) as [[ips|e] w1]; simpl in *; subst w1.
  - destruct ips as [|ip ips]; [|by destruct (Hnone ip ips)].
    simpl. split_and!; [done..|].
    rewrite (newEvents_app w _ l) by done. by apply notPut_attempts.
  - split_and!; [done..|].
    rewrite (newEvents_app w _ l) by done. by apply notPut_attempts.
Qed.

(** X6.  A guest for which the resolver finds no address gets no record:
    when the resolution fails or yields the empty list, [processVM] and
    [processContainer] leave the store as it is and attempt no write. *)
Theorem process_without_addresses_writes_nothing (pc : ProxmoxClient) (nodeName : string)
    (w : World) :
  (∀ vm,
     (∀ ip ips,
        (getResourceIPs pc (resourceOfVM vm nodeName) (tagsOfVM vm) w).1 ≠ Ok (ip :: ips)) →
     kv (processVM pc vm nodeName w).2 = kv w ∧
     faults (processVM pc vm nodeName w).2 = faults w ∧
     attempts (newEvents w (processVM pc vm nodeName w).2) = []) ∧
  (∀ container,
     (∀ ip ips,
        (getResourceIPs pc (resourceOfContainer container nodeName)
           (tagsOfContainer container) w).1 ≠ Ok (ip :: ips)) →
     kv (processContainer pc container nodeName w).2 = kv w ∧
     faults (processContainer pc container nodeName w).2 = faults w ∧
     attempts (newEvents w (processContainer pc container nodeName w).2) = []).
Proof.
  split.
  - intros vm Hnone. unfold processVM.
    destruct (vm_HasTag vm "dnsherpa-skip").
    { simpl. split_and!; [done..|]. unfold newEvents. by rewrite drop_all. }
    apply (process_without_addresses (etcdClient pc) _ _
             (getResourceIPs pc (resourceOfVM vm nodeName) (tagsOfVM vm)) w);
      [apply readOnly_getResourceIPs|done].
  - intros container Hnone. unfold processContainer.
    destruct (ct_HasTag container "dnsherpa-skip").
    { simpl. split_and!; [done..|]. unfold newEvents. by rewrite drop_all. }
    apply (process_without_addresses (etcdClient pc) _ _
             (getResourceIPs pc (resourceOfContainer container nodeName)
                (tagsOfContainer container)) w);
      [apply readOnly_getResourceIPs|done].
Qed.

Lemma process_without_addresses_writes_nothing_witness :
  kv (processVM silentPC (sampleVM "web") "pve" emptyWorld).2 = kv emptyWorld ∧
  faults (processVM silentPC (sampleVM "web") "pve" emptyWorld).2 = faults emptyWorld ∧
  attempts (newEvents emptyWorld (processVM silentPC (sampleVM "web") "pve" emptyWorld).2) = [].
Proof.
  apply (process_without_addresses_writes_nothing silentPC "pve" emptyWorld).
  intros ip ips. vm_compute. discriminate.
Defined.

(** ** The polling loop *)

Lemma pollLoop_stable (pc : ProxmoxClient) (listing : ProxmoxListing) (ticks : list Tick)
    (w : World) :
  faults w = [] →
  kv (syncAllResources pc listing w).2 = kv w →
  kv (pollLoop pc listing ticks w).2 = kv w.
Proof.
  destruct (planned_syncAllResources pc listing) as (r & p & Hsync).
  revert w. induction ticks as [|[] ticks IH]; intros w Hf Hkv; [done| |done].
  simpl. unfold logged. simpl. rewrite IH.
  - done.
  - by rewrite (Hsync w Hf).
  - rewrite (Hsync w Hf) in *. simpl in *. rewrite Hsync by done. simpl.
    by rewrite Hkv.
Qed.

(** X7.  Polling a cluster that does not change converges with the first
    cycle: when the connection test passes and the store refuses nothing,
    the store after [StartMonitoring] has run through any number of ticks
    is the store that the initial cycle leaves, whatever the poll interval
    is. *)
Theorem StartMonitoring_store_stable (pc : ProxmoxClient) (listing : ProxmoxListing)
    (interval : Z) (ticks : list Tick) (w : World) :
  faults w = [] →
  api_Version listing = true →
  kv (StartMonitoring pc listing interval ticks w).2 = kv (syncAllResources pc listing w).2.
Proof.
  intros Hf Hv. unfold StartMonitoring, testConnection. rewrite Hv.
  unfold logged. simpl. case_decide; [done|].
  destruct (planned_idempotent (syncAllResources pc listing) w
              (planned_syncAllResources pc listing) Hf) as [Hidem Hf1].
  by apply pollLoop_stable.
Qed.

Lemma StartMonitoring_store_stable_witness :
  kv (StartMonitoring (samplePC "all" sampleAgent []) sampleListing 30000000000
        [TickerFired; TickerFired; ContextDone; TickerFired] emptyWorld).2 =
  kv (syncAllResources (samplePC "all" sampleAgent []) sampleListing emptyWorld).2.
Proof.
  apply (StartMonitoring_store_stable (samplePC "all" sampleAgent []) sampleListing
           30000000000 [TickerFired; TickerFired; ContextDone; TickerFired] emptyWorld);
    reflexivity.
Defined.

Lemma pollLoop_outcome (pc : ProxmoxClient) (listing : ProxmoxListing) (ticks : list Tick)
    (w : World) :
  (pollLoop pc listing ticks w).1 =
  if bool_decide (ContextDone ∈ ticks) then Cancelled else Waiting.
Proof.
  revert w. induction ticks as [|[] ticks IH]; intros w; cbn [pollLoop fst].
  - rewrite bool_decide_false; [done|]. by intros ?%elem_of_nil.
  - rewrite IH. apply (f_equal (fun b : bool => if b then Cancelled else Waiting)).
    apply bool_decide_ext. rewrite elem_of_cons. split; [by right|by intros [|]].
  - rewrite bool_decide_true; [done|]. by left.
Qed.

Lemma pollLoop_cut (pc : ProxmoxClient) (listing : ProxmoxListing)
    (before after : list Tick) (w : World) :
  pollLoop pc listing (before ++ ContextDone :: after) w =
  pollLoop pc listing (before ++ [ContextDone]) w.
Proof.
  revert w. induction before as [|[] before IH]; intros w; simpl; [done|apply IH|done].
Qed.

(** X8.  [StartMonitoring] ends only in three ways.  When the connection
    test fails it returns the wrapped error at once and nothing has been
    done.  When the test passes and the poll interval is not positive, it
    panics in [time.NewTicker], after the initial cycle has run.  Otherwise
    no failure of a cycle ends it: it is cancelled when the context ends
    and is still waiting as long as that has not happened.  In every case
    nothing is done after the context has ended. *)
Theorem StartMonitoring_outcome (pc : ProxmoxClient) (listing : ProxmoxListing)
    (interval : Z) (ticks : list Tick) (w : World) :
  (api_Version listing = false →
   StartMonitoring pc listing interval ticks w =
   (Returned (Wrap "failed to connect to Proxmox"
                   (Wrap "API connection test failed" (ErrAPI "Version"))), w)) ∧
  (api_Version listing = true → (interval ≤ 0)%Z →
   StartMonitoring pc listing interval ticks w =
   (Panicked, (logged (syncAllResources pc listing) w).2)) ∧
  (api_Version listing = true → (0 < interval)%Z →
   (StartMonitoring pc listing interval ticks w).1 =
   if bool_decide (ContextDone ∈ ticks) then Cancelled else Waiting) ∧
  (∀ before after,
     ticks = before ++ ContextDone :: after →
     StartMonitoring pc listing interval ticks w =
     StartMonitoring pc listing interval (before ++ [ContextDone]) w).
Proof.
  unfold StartMonitoring, testConnection. split_and!.
  - by intros ->.
  - intros -> Hi. cbv zeta. by rewrite decide_True.
  - intros -> Hi. cbv zeta. rewrite decide_False by lia. apply pollLoop_outcome.
  - intros before after ->. destruct (api_Version listing); [|done].
    cbv zeta. case_decide; [done|]. apply pollLoop_cut.
Qed.

Lemma StartMonitoring_outcome_witness :
  (StartMonitoring silentPC sampleListing 30000000000 [TickerFired; TickerFired]
     emptyWorld).1 = Waiting ∧
  (StartMonitoring silentPC sampleListing 30000000000
     [TickerFired; ContextDone; TickerFired] emptyWorld).1 = Cancelled ∧
  (StartMonitoring silentPC sampleListing 0 [TickerFired; ContextDone] emptyWorld).1
  = Panicked.
Proof.
  split_and!.
  - apply (StartMonitoring_outcome silentPC sampleListing 30000000000
             [TickerFired; TickerFired] emptyWorld); [reflexivity|lia].
  - apply (StartMonitoring_outcome silentPC sampleListing 30000000000
             [TickerFired; ContextDone; TickerFired] emptyWorld); [reflexivity|lia].
  - pose proof (StartMonitoring_outcome silentPC sampleListing 0
                  [TickerFired; ContextDone] emptyWorld) as (_ & Hpanic & _).
    rewrite Hpanic; [reflexivity..|lia].
Defined.

(** ** Docker events *)

Lemma handleContainerEvent_run (dc : DockerClient)
    (inspect : string → option (list (string * string))) (event : Message)
    (labels : list (string * string)) (w : World) :
  msg_Type event = "container" →
  msg_Action event = "start" →
  inspect (msg_ID event) = Some labels →
  handleContainerEvent dc inspect event w =
  (Ok tt, putAll (dc_etcdClient dc) (extractHostsFromLabels labels) w).
Proof.
  intros Ht Ha Hi. unfold handleContainerEvent.
  rewrite decide_False by (by rewrite Ht; intros []).
  rewrite decide_False by (by rewrite Ha; intros []).
  rewrite Hi. cbv zeta. case_decide as Hlen.
  - by destruct (extractHostsFromLabels labels).
  - apply forEach_hosts.
Qed.

(** X9.  The start of a container is handled like a sync of that one
    container: for a [container]/[start] event whose container can be
    inspected, [handleContainerEvent] leaves the same store and attempts
    the same writes as [SyncExistingContainers] does when the container is
    the only one listed. *)
Theorem handleContainerEvent_as_sync (dc : DockerClient)
    (inspect : string → option (list (string * string))) (event : Message)
    (labels : list (string * string)) (w : World) :
  msg_Type event = "container" →
  msg_Action event = "start" →
  inspect (msg_ID event) = Some labels →
  kv (handleContainerEvent dc inspect event w).2 =
    kv (SyncExistingContainers (listingOnly dc (msg_ID event) labels) w).2 ∧
  faults (handleContainerEvent dc inspect event w).2 =
    faults (SyncExistingContainers (listingOnly dc (msg_ID event) labels) w).2 ∧
  attempts (newEvents w (handleContainerEvent dc inspect event w).2) =
    attempts (newEvents w (SyncExistingContainers (listingOnly dc (msg_ID event) labels) w).2).
Proof.
  intros Ht Ha Hi. rewrite (handleContainerEvent_run dc inspect event labels w Ht Ha Hi).
  rewrite sync_attempts, SyncExistingContainers_run.
  unfold syncHosts. simpl. rewrite app_nil_r.
  set (hosts := extractHostsFromLabels labels).
  assert (∀ w1 w2, kv w1 = kv w2 → faults w1 = faults w2 →
            kv (putAll (dc_etcdClient dc) hosts w1) = kv (putAll (dc_etcdClient dc) hosts w2) ∧
            faults (putAll (dc_etcdClient dc) hosts w1)
              = faults (putAll (dc_etcdClient dc) hosts w2)) as Hsame.
  { induction hosts as [|h hosts IH]; intros w1 w2 Hkv Hf; [done|].
    simpl. apply IH; rewrite !CreateDNSRecord_run, Hf;
      destruct (faults w2) as [|[] fs]; simpl; by rewrite ?Hkv. }
  destruct (Hsame w (listed w) eq_refl eq_refl) as [Hkv Hf].
  split_and!; [done..|].
  destruct (putAll_attempts (dc_etcdClient dc) hosts w) as (l & Htr & Hl).
  by rewrite (newEvents_app w _ l Htr).
Qed.

Lemma handleContainerEvent_as_sync_witness :
  kv (handleContainerEvent (sampleDocker []) sampleInspect
        {| msg_Type := "container"; msg_Action := "start"; msg_ID := "c1" |} emptyWorld).2 =
  kv (SyncExistingContainers
        (listingOnly (sampleDocker []) "c1" [("traefik.http.routers.a.rule", "Host(`a.com`)")])
        emptyWorld).2.
Proof.
  apply (handleContainerEvent_as_sync (sampleDocker []) sampleInspect
           {| msg_Type := "container"; msg_Action := "start"; msg_ID := "c1" |}
           [("traefik.http.routers.a.rule", "Host(`a.com`)")] emptyWorld);
    reflexivity.
Defined.

Lemma handleContainerEvent_irrelevant (dc : DockerClient)
    (inspect : string → option (list (string * string))) (event : Message) (w : World) :
  relevant (SelEvent event) = false →
  handleContainerEvent dc inspect event w = (Ok tt, w).
Proof.
  unfold relevant, handleContainerEvent. intros H.
  apply andb_false_iff in H as [H|H]; apply bool_decide_eq_false in H.
  - by rewrite decide_True.
  - case_decide; [done|]. by rewrite decide_True.
Qed.

Lemma eventLoop_relevant (dc : DockerClient)
    (inspect : string → option (list (string * string))) (script : list Selected)
    (w : World) :
  eventLoop dc inspect (filter (fun s => relevant s) script) w = eventLoop dc inspect script w.
Proof.
  revert w. induction script as [|s script IH]; intros w; [done|].
  rewrite filter_cons. destruct (relevant s) eqn:Hs.
  - rewrite decide_True by (by apply Is_true_true_2).
    destruct s as [event|[e|]|]; simpl; first [done|apply IH].
  - rewrite decide_False by (by apply Is_true_false_2).
    destruct s as [event|[e|]|]; simpl in *; try done.
    rewrite (handleContainerEvent_irrelevant dc inspect event w Hs). apply IH.
Qed.

Lemma eventLoop_cut (dc : DockerClient)
    (inspect : string → option (list (string * string))) (before after : list Selected)
    (t : Selected) (w : World) :
  terminal t = true →
  eventLoop dc inspect (before ++ t :: after) w = eventLoop dc inspect (before ++ [t]) w.
Proof.
  intros Ht. revert w. induction before as [|s before IH]; intros w.
  - by destruct t as [?|[?|]|].
  - destruct s as [event|[e|]|]; simpl; first [done|apply IH].
Qed.

(** X10.  Only the start of a container makes the Docker watch phase act:
    container events with another action, events of another type and nil
    errors of the stream change nothing, and [StartEventMonitoring] does
    the same with and without them. *)
Theorem StartEventMonitoring_ignores_other_events (dc : DockerClient)
    (inspect : string → option (list (string * string))) (script : list Selected)
    (w : World) :
  StartEventMonitoring dc inspect (filter (fun s => relevant s) script) w =
  StartEventMonitoring dc inspect script w.
Proof. apply eventLoop_relevant. Qed.

(** X11.  Whether or not the initial sync succeeds, the Docker watch
    phase ends at the first error of the event stream or at the end of the
    context: whatever is delivered after that is not handled, and the
    stream error is the error returned, as it is. *)
Theorem StartEventMonitoring_stops (dc : DockerClient)
    (inspect : string → option (list (string * string))) (before after : list Selected)
    (t : Selected) (w : World) :
  terminal t = true →
  Forall (fun s => terminal s = false) before →
  StartEventMonitoring dc inspect (before ++ t :: after) w =
    StartEventMonitoring dc inspect (before ++ [t]) w ∧
  (StartEventMonitoring dc inspect (before ++ t :: after) w).1 =
    match t with
    | SelErr (Some err) => Returned err
    | _ => Cancelled
    end.
Proof.
  intros Ht Hbefore. unfold StartEventMonitoring. split; [by apply eventLoop_cut|].
  generalize (logged (SyncExistingContainers dc) w).2.
  induction Hbefore as [|s before Hs _ IH]; intros w'.
  - by destruct t as [?|[?|]|].
  - destruct s as [event|[e|]|]; simpl in *; first [done|apply IH].
Qed.

Lemma StartEventMonitoring_stops_witness :
  (StartEventMonitoring
     {| docker_ContainerList := None; dc_etcdClient := sampleEtcd "t" |} sampleInspect
     ([SelEvent {| msg_Type := "container"; msg_Action := "start"; msg_ID := "c1" |}]
      ++ SelErr (Some (ErrAPI "events")) ::
      [SelEvent {| msg_Type := "container"; msg_Action := "start"; msg_ID := "c1" |}])
     emptyWorld).1
  = Returned (ErrAPI "events").
Proof.
  apply (StartEventMonitoring_stops
           {| docker_ContainerList := None; dc_etcdClient := sampleEtcd "t" |} sampleInspect
           [SelEvent {| msg_Type := "container"; msg_Action := "start"; msg_ID := "c1" |}]
           [SelEvent {| msg_Type := "container"; msg_Action := "start"; msg_ID := "c1" |}]
           (SelErr (Some (ErrAPI "events"))) emptyWorld).
  - reflexivity.
  - repeat constructor.
Defined.

(** ** The Docker sync *)

(** X12.  A Docker sync fails only on the listing of the containers.
    When the listing fails it returns the wrapped error and has written
    nothing; otherwise it returns without an error and has attempted the
    write of every host found, each at its key with the one record value,
    also when the store has refused some or all of the writes. *)
Theorem SyncExistingContainers_attempts_all (dc : DockerClient) (w : World) :
  (docker_ContainerList dc = None →
   SyncExistingContainers dc w =
   (Err (Wrap "failed to list containers" (ErrAPI "ContainerList")), listed w)) ∧
  (docker_ContainerList dc ≠ None →
   (SyncExistingContainers dc w).1 = Ok tt ∧
   attempts (newEvents w (SyncExistingContainers dc w).2) =
   (fun host => (basePath (dc_etcdClient dc) host, recordValue (dc_etcdClient dc)))
     <$> syncHosts dc).
Proof.
  split; intros H.
  - unfold SyncExistingContainers, ContainerList, wrap, bind, emit. by rewrite H.
  - split; [|apply sync_attempts].
    unfold SyncExistingContainers, ContainerList, wrap, bind, emit.
    destruct (docker_ContainerList dc) as [cs|]; [|done]. cbn.
    by rewrite forEach_containers.
Qed.

Lemma SyncExistingContainers_attempts_all_witness :
  (SyncExistingContainers
     (sampleDocker [("traefik.http.routers.a.rule", "Host(`a.com`) || Host(`b.com`)")])
     {| kv := ∅; faults := [true; true]; trace := [] |}).1 = Ok tt ∧
  attempts (newEvents {| kv := ∅; faults := [true; true]; trace := [] |}
    (SyncExistingContainers
       (sampleDocker [("traefik.http.routers.a.rule", "Host(`a.com`) || Host(`b.com`)")])
       {| kv := ∅; faults := [true; true]; trace := [] |}).2) =
  (fun host => (basePath (sampleEtcd "traefik.home.lab") host,
                recordValue (sampleEtcd "traefik.home.lab"))) <$> ["a.com"; "b.com"].
Proof.
  apply (SyncExistingContainers_attempts_all
           (sampleDocker [("traefik.http.routers.a.rule", "Host(`a.com`) || Host(`b.com`)")])
           {| kv := ∅; faults := [true; true]; trace := [] |}).
  discriminate.
Defined.

(** X13.  The sync of the stand-alone variant and the sync of the modular
    variant are the same function: the test on the number of hosts that
    the modular variant adds changes neither the result nor the store nor
    the calls made. *)
Theorem syncExistingContainers_same (dc : DockerClient) (w : World) :
  syncExistingContainers dc w = SyncExistingContainers dc w.
Proof.
  unfold syncExistingContainers, SyncExistingContainers, bind.
  destruct (wrap "failed to list containers" (ContainerList dc) w) as [[cs|e] w1]; [|done].
  apply forEach_ext. intros c w'. cbv zeta.
  by destruct (extractHostsFromLabels (Labels c)).
Qed.

(** ** Host names and address selection *)

Lemma hasByte_append (c : ascii) (a b : string) :
  strings.hasByte c (a +:+ String c b) = true.
Proof.
  induction a as [|x a IH]; rewrite ?append_nil, ?append_cons; simpl.
  - by rewrite Ascii.eqb_refl.
  - rewrite IH. apply orb_true_r.
Qed.

(** X14.  [generateHostname] is idempotent, and with a configured domain
    its result always holds a dot: a dotted name is kept, a short name gets
    the domain appended once, and applying the function to its own result
    changes nothing. *)
Theorem generateHostname_idempotent (pc : ProxmoxClient) (vmName : string) :
  generateHostname pc (generateHostname pc vmName) = generateHostname pc vmName ∧
  (Domain (pc_config pc) ≠ "" →
   strings.Contains (generateHostname pc vmName) "." = true).
Proof.
  unfold generateHostname.
  destruct (strings.Contains vmName ".") eqn:Hdot; simpl.
  - rewrite Hdot. by split.
  - case_bool_decide as Hd; simpl.
    + assert (strings.Contains (vmName +:+ "." +:+ Domain (pc_config pc)) "." = true) as Hc.
      { rewrite Contains_byte. apply hasByte_append. }
      rewrite Hc. by split.
    + rewrite Hdot. simpl. by split.
Qed.

Lemma generateHostname_idempotent_witness :
  strings.Contains (generateHostname (samplePC "first" [] []) "web-server") "." = true.
Proof.
  apply (generateHostname_idempotent (samplePC "first" [] []) "web-server"). discriminate.
Defined.

Lemma firstIPv4_loop_fixed (ips : list string) (found : bool) :
  firstIPv4_loop (firstIPv4_loop ips [] found) [] found = firstIPv4_loop ips [] found.
Proof.
  revert found. induction ips as [|ip ips IH]; intros found; [done|].
  rewrite firstIPv4_loop_cons.
  destruct (family_cases ip) as [(H4 & H6 & _)|[(H4 & H6 & _)|(H4 & H6 & _)]];
    rewrite ?H4, ?H6.
  - destruct found; [apply IH|].
    rewrite firstIPv4_loop_cons, H4. f_equal. apply IH.
  - rewrite firstIPv4_loop_cons, H4, H6. f_equal. apply IH.
  - apply IH.
Qed.

(** X15.  The multi-address strategy is idempotent: applying it to its own
    output gives that output again, under [all] and under [first]. *)
Theorem applyMultiIPv4Strategy_idempotent (pc : ProxmoxClient) (ips : list string) :
  applyMultiIPv4Strategy pc (applyMultiIPv4Strategy pc ips) = applyMultiIPv4Strategy pc ips.
Proof.
  unfold applyMultiIPv4Strategy. case_decide; [done|]. apply firstIPv4_loop_fixed.
Qed.

Lemma applyMultiIPv4Strategy_subset (pc : ProxmoxClient) (ips : list string) (ip : string) :
  ip ∈ applyMultiIPv4Strategy pc ips → ip ∈ ips.
Proof.
  unfold applyMultiIPv4Strategy. case_decide; [done|].
  destruct (firstIPv4_loop_props ips false) as (_ & _ & _ & Hsub).
  intros Hin. by eapply elem_of_sublist.
Qed.

(** ** The etcd client *)

Lemma CreateDNSRecords_loop_filter (ec : EtcdClient) (hostname base : string)
    (ips : list string) (c4 c6 : Z) (cr : list string) (w : World) :
  CreateDNSRecords_loop ec hostname base (filter (fun ip => isIP ip) ips) c4 c6 cr w =
  CreateDNSRecords_loop ec hostname base ips c4 c6 cr w.
Proof.
  revert c4 c6 cr w. induction ips as [|ip ips IH]; intros c4 c6 cr w; [done|].
  rewrite filter_cons.
  assert (isIP ip = bool_decide (is_Some (net.ParseIP ip))) as Hip by done.
  cbn [CreateDNSRecords_loop].
  destruct (net.ParseIP ip) as [a|] eqn:Hparse.
  - rewrite decide_True by (apply Is_true_true_2; rewrite Hip; apply bool_decide_true; eauto).
    cbn [CreateDNSRecords_loop]. rewrite Hparse.
    destruct (net.To4 a); unfold bind;
      match goal with |- context [wrap ?msg ?m w] => destruct (wrap msg m w) as [[[]|e] w1] end;
      first [apply IH|done].
  - rewrite decide_False
      by (apply Is_true_false_2; rewrite Hip; apply bool_decide_false; by intros [? ?]).
    apply IH.
Qed.

(** X16.  Strings that are no IP literals are inert in [CreateDNSRecords]:
    it returns the same result, leaves the same store and makes the same
    writes as it does on the list from which they have been removed; in
    particular they take no number in the [a<N>] and [aaaa<N>] keys. *)
Theorem CreateDNSRecords_skips_unparsable (ec : EtcdClient) (hostname : string)
    (ips : list string) (w : World) :
  CreateDNSRecords ec hostname (filter (fun ip => isIP ip) ips) w =
  CreateDNSRecords ec hostname ips w.
Proof.
  unfold CreateDNSRecords, bind. by rewrite CreateDNSRecords_loop_filter.
Qed.

(** ** Live interface data *)

Lemma elem_of_flat_map {A B} (f : A → list B) (l : list A) (y : B) :
  y ∈ flat_map f l ↔ ∃ x, x ∈ l ∧ y ∈ f x.
Proof.
  rewrite list_elem_of_In, in_flat_map. setoid_rewrite list_elem_of_In. done.
Qed.

Lemma elem_of_agentIPs (interfaceName ip : string) (interfaces : list AgentNetworkIface) :
  ip ∈ agentIPs interfaceName interfaces →
  ∃ iface a,
    iface ∈ interfaces ∧ agent_Name iface = interfaceName ∧
    a ∈ IPAddresses iface ∧ IPAddress a = ip ∧ ip ≠ "127.0.0.1" ∧ ip ≠ "::1".
Proof.
  unfold agentIPs. intros (iface & Hin & Hip)%elem_of_flat_map.
  case_decide as Hname; [|by apply elem_of_nil in Hip].
  apply elem_of_flat_map in Hip as (a & Ha & Hip).
  destruct (bool_decide (IPAddress a ≠ "127.0.0.1")) eqn:H1;
    destruct (bool_decide (IPAddress a ≠ "::1")) eqn:H2; simpl in Hip;
    try by apply elem_of_nil in Hip.
  apply list_elem_of_singleton in Hip as ->.
  apply bool_decide_eq_true in H1. apply bool_decide_eq_true in H2.
  by exists iface, a.
Qed.

Lemma elem_of_containerIPs (interfaceName ip : string)
    (interfaces : list ContainerInterface) :
  ip ∈ containerIPs interfaceName interfaces →
  ∃ iface,
    iface ∈ interfaces ∧ iface_Name iface = interfaceName ∧
    ((ip = beforeSlash (Inet iface) ∧ Inet iface ≠ "" ∧ Inet iface ≠ "127.0.0.1/8") ∨
     (ip = beforeSlash (Inet6 iface) ∧ Inet6 iface ≠ "" ∧
      strings.HasPrefix (Inet6 iface) "::1/" = false ∧
      strings.HasPrefix (Inet6 iface) "fe80::" = false)).
Proof.
  unfold containerIPs. intros (iface & Hin & Hip)%elem_of_flat_map.
  case_decide as Hname; [|by apply elem_of_nil in Hip].
  exists iface. split_and!; [done..|].
  apply elem_of_app in Hip as [Hip|Hip].
  - left.
    destruct (bool_decide (Inet iface ≠ "")) eqn:H1;
      destruct (bool_decide (Inet iface ≠ "127.0.0.1/8")) eqn:H2; simpl in Hip;
      try by apply elem_of_nil in Hip.
    apply list_elem_of_singleton in Hip as ->.
    apply bool_decide_eq_true in H1. by apply bool_decide_eq_true in H2.
  - right.
    destruct (bool_decide (Inet6 iface ≠ "")) eqn:H1;
      destruct (strings.HasPrefix (Inet6 iface) "::1/") eqn:H2;
      destruct (strings.HasPrefix (Inet6 iface) "fe80::") eqn:H3; simpl in Hip;
      try by apply elem_of_nil in Hip.
    apply list_elem_of_singleton in Hip as ->.
    by apply bool_decide_eq_true in H1.
Qed.

Lemma extractIPsFromInterface_Ok (pc : ProxmoxClient) (resource : ClusterResource)
    (interfaceName : string) (w : World) (ips : list string) :
  (extractIPsFromInterface pc resource interfaceName w).1 = Ok ips →
  ips = match liveAddresses pc resource interfaceName with
        | Some collected => applyMultiIPv4Strategy pc collected
        | None => []
        end.
Proof.
  unfold extractIPsFromInterface, liveAddresses, Node, VirtualMachineGet, ContainerGet,
    AgentGetNetworkIFaces, Interfaces, extractIPsFromConfig, bind, emit, check, ret.
  destruct (api_Node (client pc) (res_Node resource)); [|done].
  destruct (decide (res_Type resource = "qemu")).
  - destruct (api_VirtualMachine _ _ _); [|done]. cbn.
    destruct (api_AgentGetNetworkIFaces _ _ _); simpl; congruence.
  - destruct (decide (res_Type resource = "lxc")); [|simpl; congruence].
    destruct (api_Container _ _ _); [|done]. cbn.
    destruct (api_Interfaces _ _ _); simpl; congruence.
Qed.

(** X17.  Without an explicit [dnsherpa-ip] value, every address that the
    resolver returns was reported by the platform on an interface that
    bears the resolved interface name.  For a VM it is an address of the
    agent's list other than the literals [127.0.0.1] and [::1]; for a
    container it is the part before the slash of the interface's [Inet],
    or of an [Inet6] that starts neither with [::1/] nor with [fe80::]. *)
Theorem live_addresses_come_from_named_interface (pc : ProxmoxClient)
    (resource : ClusterResource) (tags : list string) (w : World)
    (ips : list string) (ip : string) :
  getTagValue tags "dnsherpa-ip" = "" →
  (getResourceIPs pc resource tags w).1 = Ok ips →
  ip ∈ ips →
  (∃ interfaces iface a,
     res_Type resource = "qemu" ∧
     api_AgentGetNetworkIFaces (client pc) (res_Node resource) (res_VMID resource)
       = Some interfaces ∧
     iface ∈ interfaces ∧ agent_Name iface = interfaceNameOf pc tags ∧
     a ∈ IPAddresses iface ∧ IPAddress a = ip ∧ ip ≠ "127.0.0.1" ∧ ip ≠ "::1") ∨
  (∃ interfaces iface,
     res_Type resource = "lxc" ∧
     api_Interfaces (client pc) (res_Node resource) (res_VMID resource) = Some interfaces ∧
     iface ∈ interfaces ∧ iface_Name iface = interfaceNameOf pc tags ∧
     ((ip = beforeSlash (Inet iface) ∧ Inet iface ≠ "" ∧ Inet iface ≠ "127.0.0.1/8") ∨
      (ip = beforeSlash (Inet6 iface) ∧ Inet6 iface ≠ "" ∧
       strings.HasPrefix (Inet6 iface) "::1/" = false ∧
       strings.HasPrefix (Inet6 iface) "fe80::" = false))).
Proof.
  intros Htag Hok Hin. unfold getResourceIPs in Hok. rewrite Htag in Hok.
  rewrite decide_False in Hok by (by intros []).
  apply extractIPsFromInterface_Ok in Hok. fold (interfaceNameOf pc tags) in Hok.
  unfold liveAddresses in Hok. subst ips.
  destruct (decide (res_Type resource = "qemu")) as [Hq|Hq].
  - destruct (api_AgentGetNetworkIFaces _ _ _) as [interfaces|] eqn:Hapi;
      [|by apply elem_of_nil in Hin].
    simpl in Hin. apply applyMultiIPv4Strategy_subset, elem_of_agentIPs in Hin
      as (iface & a & ? & ? & ? & ? & ? & ?). left. exists interfaces, iface, a. by split_and!.
  - destruct (decide (res_Type resource = "lxc")) as [Hl|Hl].
    + destruct (api_Interfaces _ _ _) as [interfaces|] eqn:Hapi;
        [|by apply elem_of_nil in Hin].
      simpl in Hin. apply applyMultiIPv4Strategy_subset, elem_of_containerIPs in Hin
        as (iface & ? & ? & ?). right. exists interfaces, iface. by split_and!.
    + apply applyMultiIPv4Strategy_subset in Hin. by apply elem_of_nil in Hin.
Qed.

(** ** Keys do not collide *)

Lemma allBytes_append (P : ascii → bool) (a b : string) :
  allBytes P (a +:+ b) = allBytes P a && allBytes P b.
Proof.
  induction a as [|c a IH]; rewrite ?append_nil, ?append_cons; simpl; [done|].
  by rewrite IH, andb_assoc.
Qed.

Lemma pretty_N_char_digit (x : N) : net.isDigit (pretty_N_char x) = true.
Proof. unfold pretty_N_char. by repeat case_match. Qed.

Lemma pretty_N_go_shape (x : N) (s : string) :
  ∃ t, pretty_N_go x s = t +:+ s ∧ allBytes net.isDigit t = true ∧ ((0 < x)%N → t ≠ "").
Proof.
  revert s. induction (N.lt_wf_0 x) as [x _ IH]; intros s.
  destruct (decide (x = 0%N)) as [->|Hx].
  - exists "". rewrite pretty_N_go_0. split_and!; [done..|lia].
  - rewrite pretty_N_go_step by lia.
    destruct (IH (x `div` 10)%N) with (s := String (pretty_N_char (x `mod` 10)) s)
      as (t & -> & Ht & _).
    { apply N.div_lt; lia. }
    exists (t +:+ String (pretty_N_char (x `mod` 10)) "").
    rewrite append_assoc, append_cons, append_nil. split_and!; [done| |].
    + rewrite allBytes_append, Ht. simpl. by rewrite pretty_N_char_digit.
    + intros _. by destruct t.
Qed.

Lemma d_digits (k : Z) :
  (0 < k)%Z → allBytes net.isDigit (fmt.d k) = true ∧ fmt.d k ≠ "".
Proof.
  destruct k as [|p|p]; [lia| |lia]. intros _.
  unfold fmt.d, pretty, pretty_Z, pretty, pretty_positive, pretty, pretty_N.
  rewrite decide_False by done.
  destruct (pretty_N_go_shape (N.pos p) "") as (t & -> & Ht & Hne).
  assert (t +:+ "" = t) as -> by (clear; induction t; rewrite ?append_cons; [done|by f_equal]).
  split; [done|]. apply Hne. lia.
Qed.

Lemma d_no_letter (k : Z) (s : string) : (0 < k)%Z → fmt.d k ≠ String "a" s.
Proof.
  intros Hk Heq. destruct (d_digits k Hk) as [Hd _]. rewrite Heq in Hd. done.
Qed.

Lemma d_inj (j k : Z) : fmt.d j = fmt.d k → j = k.
Proof. unfold fmt.d. apply pretty_Z_inj. Qed.

Lemma leaf_above (earlier : list string) (ip l : string) :
  leaf earlier ip = Some l →
  (isIPv4 ip = true ∧ l = "a" +:+ fmt.d (n4 earlier + 1)) ∨
  (isIPv6 ip = true ∧ l = "aaaa" +:+ fmt.d (n6 earlier + 1)).
Proof.
  intros Hl. pose proof (leaf_cases earlier ip) as H.
  destruct (net.ParseIP ip) as [a|].
  - destruct (net.To4 a); destruct H as (H & ? & ?); rewrite H in Hl;
      injection Hl as <-.
    + by left.
    + by right.
  - destruct H as (H & _). congruence.
Qed.

Lemma n4_nonneg (earlier : list string) : (0 ≤ n4 earlier)%Z.
Proof. unfold n4. lia. Qed.

Lemma n6_nonneg (earlier : list string) : (0 ≤ n6 earlier)%Z.
Proof. unfold n6. lia. Qed.

Lemma leafAbove_weaken (m4 m6 m4' m6' : Z) (l : string) :
  (m4' ≤ m4)%Z → (m6' ≤ m6)%Z → leafAbove m4 m6 l → leafAbove m4' m6' l.
Proof.
  intros ?? [(k & ? & ->)|(k & ? & ->)]; [left|right]; exists k; (split; [lia|done]).
Qed.

(** Every key among the expected writes is the base path with a leaf
    whose number is above the counters reached before. *)
Lemma expectedWrites_keys (ec : EtcdClient) (hostname : string) (rest earlier : list string) :
  Forall (fun key => ∃ l, key = basePath ec hostname +:+ "/" +:+ l ∧
                          leafAbove (n4 earlier) (n6 earlier) l)
         (putKeys (expectedWrites ec hostname earlier rest)).
Proof.
  revert earlier. induction rest as [|ip rest IH]; intros earlier; [constructor|].
  cbn [expectedWrites].
  assert (Forall (fun key => ∃ l, key = basePath ec hostname +:+ "/" +:+ l ∧
                                  leafAbove (n4 earlier) (n6 earlier) l)
                 (putKeys (expectedWrites ec hostname (earlier ++ [ip]) rest))) as Htail.
  { eapply Forall_impl; [apply IH|]. intros key (l & -> & Hl). exists l. split; [done|].
    eapply leafAbove_weaken; [| |done]; rewrite ?n4_snoc, ?n6_snoc; case_match; lia. }
  destruct (leaf earlier ip) as [l|] eqn:Hleaf; [|done].
  unfold putKeys. simpl. constructor; [|done].
  exists l. split; [done|].
  destruct (leaf_above earlier ip l Hleaf) as [[_ ->]|[_ ->]]; [left|right];
    eexists; (split; [|done]); lia.
Qed.

Lemma leaf_key_fresh (ec : EtcdClient) (hostname : string) (earlier rest : list string)
    (ip l : string) :
  leaf earlier ip = Some l →
  basePath ec hostname +:+ "/" +:+ l
  ∉ putKeys (expectedWrites ec hostname (earlier ++ [ip]) rest).
Proof.
  intros Hleaf Hin.
  pose proof (expectedWrites_keys ec hostname rest (earlier ++ [ip])) as Hkeys.
  rewrite Forall_forall in Hkeys. destruct (Hkeys _ Hin) as (l' & Heq & Habove).
  apply (inj (String.app _)) in Heq. apply (inj (String.app _)) in Heq. subst l'.
  rewrite n4_snoc, n6_snoc in Habove.
  pose proof (n4_nonneg earlier). pose proof (n6_nonneg earlier).
  destruct (leaf_above earlier ip l Hleaf) as [[H4 ->]|[H6 ->]].
  - rewrite H4 in Habove. destruct Habove as [(k & Hk & Heq)|(k & Hk & Heq)].
    + apply (inj (String.app _)), d_inj in Heq. lia.
    + injection Heq as Heq. by apply d_no_letter in Heq; [|lia].
  - rewrite H6 in Habove. destruct Habove as [(k & Hk & Heq)|(k & Hk & Heq)].
    + injection Heq as Heq. symmetry in Heq. apply d_no_letter in Heq; [done|].
      case_match; lia.
    + apply (inj (String.app _)), d_inj in Heq. lia.
Qed.

Lemma expectedWrites_NoDup (ec : EtcdClient) (hostname : string) (rest earlier : list string) :
  NoDup (putKeys (expectedWrites ec hostname earlier rest)).
Proof.
  revert earlier. induction rest as [|ip rest IH]; intros earlier; [constructor|].
  cbn [expectedWrites]. destruct (leaf earlier ip) as [l|] eqn:Hleaf; [|apply IH].
  unfold putKeys. simpl. constructor; [|apply IH].
  by apply leaf_key_fresh.
Qed.

Lemma lastWrite_NoDup (events : list Event) (key value : string) :
  NoDup (putKeys events) →
  EvPut key value true ∈ events →
  lastWrite events key = Some value.
Proof.
  induction events as [|e events IH]; intros Hnd Hin; [by apply elem_of_nil in Hin|].
  apply elem_of_cons in Hin as [<-|Hin].
  - unfold putKeys in Hnd. simpl in Hnd. apply NoDup_cons in Hnd as [Hfresh _].
    simpl. destruct (lastWrite events key) as [v|] eqn:Hlast.
    + exfalso. apply Hfresh. clear -Hlast.
      induction events as [|e events IH]; [done|]. simpl in Hlast.
      destruct (lastWrite events key).
      * destruct e; simpl; auto. right. by apply IH.
      * destruct e as [k v' [] | | | | | | ]; try done.
        case_decide; [|done]. subst. simpl. by left.
    + by rewrite decide_True.
  - assert (NoDup (putKeys events)) as Hnd'.
    { unfold putKeys in *. destruct e; simpl in Hnd; try done. by apply NoDup_cons in Hnd as [_ ?]. }
    simpl. by rewrite (IH Hnd' Hin).
Qed.

(** X18.  The keys that [CreateDNSRecords] writes for one host are all
    different, so no address of the host overwrites another: against a
    store that refuses nothing, every record written in the run is found
    in the store afterwards, at its key. *)
Theorem CreateDNSRecords_records_stored (ec : EtcdClient) (hostname : string)
    (ips : list string) (w : World) :
  faults w = [] →
  NoDup (putKeys (newEvents w (CreateDNSRecords ec hostname ips w).2)) ∧
  ∀ key value ok,
    EvPut key value ok ∈ newEvents w (CreateDNSRecords ec hostname ips w).2 →
    ok = true ∧ kv (CreateDNSRecords ec hostname ips w).2 !! key = Some value.
Proof.
  intros Hf.
  assert (accepted (length (expectedWrites ec hostname [] ips)) w) as Hacc.
  { unfold accepted. rewrite Hf, take_nil. constructor. }
  rewrite CreateDNSRecords_unfold.
  destruct (CreateDNSRecords_loop_accepted ec hostname ips [] [] w Hacc) as [cr' ->].
  simpl. erewrite newEvents_app by done.
  pose proof (expectedWrites_NoDup ec hostname ips []) as Hnd.
  split; [done|]. intros key value ok Hin.
  assert (ok = true) as ->.
  { clear -Hin. revert Hin. generalize (@nil string).
    induction ips as [|ip ips IH]; intros earlier Hin; [by apply elem_of_nil in Hin|].
    cbn [expectedWrites] in Hin. apply elem_of_app in Hin as [Hin|Hin]; [|by eapply IH].
    destruct (leaf earlier ip); [|by apply elem_of_nil in Hin].
    apply list_elem_of_singleton in Hin. by injection Hin. }
  split; [done|]. rewrite lookup_storeAfter. by rewrite (lastWrite_NoDup _ key value Hnd Hin).
Qed.

Lemma CreateDNSRecords_records_stored_witness :
  NoDup (putKeys (newEvents emptyWorld
           (CreateDNSRecords (sampleEtcd "t") "web.home.lab"
              ["10.0.0.1"; "2001:db8::1"; "10.0.0.2"] emptyWorld).2)).
Proof.
  apply (CreateDNSRecords_records_stored (sampleEtcd "t") "web.home.lab"
           ["10.0.0.1"; "2001:db8::1"; "10.0.0.2"] emptyWorld).
  reflexivity.
Defined.

Lemma digits_no_slash (s : string) :
  allBytes net.isDigit s = true → strings.hasByte "/" s = false.
Proof.
  induction s as [|c s IH]; [done|]. simpl. intros [Hc Hs]%andb_prop.
  rewrite (IH Hs), orb_false_r.
  destruct (Ascii.eqb_spec c "/") as [->|]; [done|done].
Qed.

Lemma leaf_no_slash (earlier : list string) (ip l : string) :
  leaf earlier ip = Some l → strings.hasByte "/" l = false.
Proof.
  intros Hl. pose proof (n4_nonneg earlier). pose proof (n6_nonneg earlier).
  destruct (leaf_above earlier ip l Hl) as [[_ ->]|[_ ->]]; simpl;
    apply digits_no_slash, d_digits; lia.
Qed.

Lemma Join_snoc (xs : list string) (l sep : string) :
  xs ≠ [] →
  strings.Join (xs ++ [l]) sep = strings.Join xs sep +:+ sep +:+ l.
Proof.
  unfold strings.Join. induction xs as [|x xs IH]; intros Hne; [done|].
  destruct xs as [|y xs]; [done|].
  change (String.concat sep ((x :: y :: xs) ++ [l]))
    with (x +:+ sep +:+ String.concat sep ((y :: xs) ++ [l])).
  rewrite IH by done.
  change (String.concat sep (x :: y :: xs)) with (x +:+ sep +:+ String.concat sep (y :: xs)).
  by rewrite !append_assoc.
Qed.

(** The labels of a key of [CreateDNSRecords], read off the key. *)
Lemma leaf_key_labels (ec : EtcdClient) (h l : string) :
  strings.hasByte "/" h = false →
  strings.hasByte "/" l = false →
  ∃ path,
    basePath ec h +:+ "/" +:+ l = (EtcdPrefix (ec_config ec) +:+ "/") +:+ path ∧
    strings.Split path "/" = reverse (strings.Split h ".") ++ [l].
Proof.
  intros Hh Hl. rewrite basePath_eq.
  exists (strings.Join (reverse (strings.Split h ".") ++ [l]) "/"). split.
  - rewrite Join_snoc.
    + by rewrite !append_assoc.
    + intros Hnil. apply (f_equal reverse) in Hnil. rewrite reverse_involutive in Hnil.
      by apply Split_nil in Hnil.
  - apply Split_Join; [by destruct (reverse _)|].
    apply Forall_app. split; [|by constructor].
    apply Forall_reverse. by apply Split_parts_no_byte.
Qed.

Lemma CreateDNSRecords_loop_keys (ec : EtcdClient) (hostname : string)
    (rest earlier : list string) (cr : list string) (w : World) :
  ∃ events,
    trace (CreateDNSRecords_loop ec hostname (basePath ec hostname) rest
             (n4 earlier) (n6 earlier) cr w).2 = trace w ++ events ∧
    Forall (fun key => ∃ earlier' ip l,
              leaf earlier' ip = Some l ∧ key = basePath ec hostname +:+ "/" +:+ l)
           (putKeys events).
Proof.
  revert earlier cr w. induction rest as [|ip rest IH]; intros earlier cr w.
  { exists []. by rewrite app_nil_r. }
  rewrite CreateDNSRecords_loop_cons.
  destruct (leaf earlier ip) as [l|] eqn:Hleaf; [|apply IH].
  assert (∃ ok, trace (Put (basePath ec hostname +:+ "/" +:+ l)
                         (Marshal {| Host := ip; TTL := RecordTTL (ec_config ec) |}) w).2
                = trace w ++ [EvPut (basePath ec hostname +:+ "/" +:+ l)
                                (Marshal {| Host := ip; TTL := RecordTTL (ec_config ec) |}) ok])
    as [ok Hput].
  { unfold Put. destruct (faults w) as [|[] fs]; simpl; eauto. }
  destruct (Put _ _ w) as [[[]|e] w1]; simpl in Hput.
  - destruct (IH (earlier ++ [ip]) (cr ++ [recordTypeOf ip +:+ "->" +:+ ip]) w1)
      as (events & -> & Hev).
    eexists (_ :: events). rewrite Hput, <- app_assoc. split; [done|].
    unfold putKeys. simpl. constructor; [|done]. by exists earlier, ip, l.
  - eexists [_]. split; [done|]. unfold putKeys. simpl. constructor; [|constructor].
    by exists earlier, ip, l.
Qed.

(** X19.  Within each of the two writers, hosts with different names
    never share a key.  For two different host names without a slash, the
    keys that [CreateDNSRecord] writes are different, and no key that
    [CreateDNSRecords] writes for the one is a key that it writes for the
    other, whatever the addresses and the answers of the store. *)
Theorem distinct_hosts_distinct_keys (ec : EtcdClient) (h1 h2 : string) :
  strings.Contains h1 "/" = false →
  strings.Contains h2 "/" = false →
  h1 ≠ h2 →
  basePath ec h1 ≠ basePath ec h2 ∧
  ∀ ips1 ips2 w1 w2 key,
    key ∈ putKeys (newEvents w1 (CreateDNSRecords ec h1 ips1 w1).2) →
    key ∉ putKeys (newEvents w2 (CreateDNSRecords ec h2 ips2 w2).2).
Proof.
  intros H1 H2 Hne. split.
  - intros Heq. apply Hne.
    pose proof (hostnameOfPath_basePath ec h1 H1) as R1.
    pose proof (hostnameOfPath_basePath ec h2 H2) as R2.
    rewrite Heq in R1. congruence.
  - rewrite Contains_byte in H1, H2.
    assert (∀ h ips w key,
              key ∈ putKeys (newEvents w (CreateDNSRecords ec h ips w).2) →
              ∃ earlier ip l, leaf earlier ip = Some l ∧ key = basePath ec h +:+ "/" +:+ l)
      as Hform.
    { intros h ips w key Hin. rewrite CreateDNSRecords_unfold in Hin.
      destruct (CreateDNSRecords_loop_keys ec h ips [] [] w) as (events & Htr & Hev).
      assert (newEvents w
                (match CreateDNSRecords_loop ec h (basePath ec h) ips (n4 []) (n6 []) [] w with
                 | (Ok _, w') => (Ok tt, w')
                 | (Err e, w') => (Err e, w')
                 end).2 = events) as Hl.
      { apply newEvents_app. rewrite <- Htr.
        by destruct (CreateDNSRecords_loop _ _ _ _ _ _ _ _) as [[] ?]. }
      rewrite Hl in Hin. rewrite Forall_forall in Hev. by apply Hev. }
    intros ips1 ips2 w1 w2 key Hin1 Hin2.
    destruct (Hform _ _ _ _ Hin1) as (e1 & ip1 & l1 & Hl1 & ->).
    destruct (Hform _ _ _ _ Hin2) as (e2 & ip2 & l2 & Hl2 & Heq).
    destruct (leaf_key_labels ec h1 l1 H1 (leaf_no_slash _ _ _ Hl1)) as (p1 & Hk1 & Hs1).
    destruct (leaf_key_labels ec h2 l2 H2 (leaf_no_slash _ _ _ Hl2)) as (p2 & Hk2 & Hs2).
    rewrite Hk1, Hk2 in Heq. apply (inj (String.app _)) in Heq. subst p2.
    rewrite Hs1 in Hs2. apply app_inj_tail in Hs2 as [Hrev _].
    apply (inj reverse) in Hrev. apply Hne.
    rewrite <- (Join_Split "." h1), <- (Join_Split "." h2). by rewrite Hrev.
Qed.

Lemma distinct_hosts_distinct_keys_witness :
  basePath (sampleEtcd "t") "web.home.lab" ≠ basePath (sampleEtcd "t") "db.home.lab".
Proof.
  apply (distinct_hosts_distinct_keys (sampleEtcd "t") "web.home.lab" "db.home.lab");
    [reflexivity|reflexivity|discriminate].
Defined.

Lemma live_addresses_come_from_named_interface_witness :
  (∃ interfaces iface a,
     res_Type (sampleResource "qemu") = "qemu" ∧
     api_AgentGetNetworkIFaces (client (samplePC "first" sampleAgent []))
       (res_Node (sampleResource "qemu")) (res_VMID (sampleResource "qemu"))
       = Some interfaces ∧
     iface ∈ interfaces ∧
     agent_Name iface = interfaceNameOf (samplePC "first" sampleAgent []) ["web"] ∧
     a ∈ IPAddresses iface ∧ IPAddress a = "2001:db8::1" ∧
     "2001:db8::1" ≠ "127.0.0.1" ∧ "2001:db8::1" ≠ "::1") ∨
  (∃ interfaces iface,
     res_Type (sampleResource "qemu") = "lxc" ∧
     api_Interfaces (client (samplePC "first" sampleAgent []))
       (res_Node (sampleResource "qemu")) (res_VMID (sampleResource "qemu"))
       = Some interfaces ∧
     iface ∈ interfaces ∧
     iface_Name iface = interfaceNameOf (samplePC "first" sampleAgent []) ["web"] ∧
     (("2001:db8::1" = beforeSlash (Inet iface) ∧ Inet iface ≠ "" ∧
       Inet iface ≠ "127.0.0.1/8") ∨
      ("2001:db8::1" = beforeSlash (Inet6 iface) ∧ Inet6 iface ≠ "" ∧
       strings.HasPrefix (Inet6 iface) "::1/" = false ∧
       strings.HasPrefix (Inet6 iface) "fe80::" = false))).
Proof.
  apply (live_addresses_come_from_named_interface (samplePC "first" sampleAgent [])
           (sampleResource "qemu") ["web"] emptyWorld
           ["10.0.0.1"; "fe80::1"; "2001:db8::1"; "2001:db8::2"] "2001:db8::1").
  - vm_compute. reflexivity.
  - vm_compute. reflexivity.
  - apply list_elem_of_lookup. by exists 2%nat.
Defined.

(** ** Configuration *)

Lemma getEnv_nonempty (env : Env) (key defaultValue : string) :
  defaultValue ≠ "" → getEnv env key defaultValue ≠ "".
Proof. unfold getEnv. by case_decide. Qed.

(** X20.  A loaded configuration is never blank where the program relies
    on it: the TTL is 300, and the DNS target, the key prefix, the default
    interface name and the multi-address strategy are not the empty string,
    whatever the environment holds (a variable set to the empty string
    counts as unset). *)
Theorem LoadConfig_never_blank (env : Env) (cfg : Config) :
  LoadConfig env = Some cfg →
  RecordTTL cfg = 300%Z ∧ DNSTarget cfg ≠ "" ∧ EtcdPrefix cfg ≠ "" ∧
  ProxmoxInterface cfg ≠ "" ∧ ProxmoxMultiIPv4 cfg ≠ "".
Proof.
  intros Hload. destruct (LoadConfig_fixes_TTL env cfg Hload) as [Httl Htarget].
  unfold LoadConfig in Hload. destruct (detectDNSTarget env); [|done].
  simpl in Hload. injection Hload as <-. simpl in *.
  split_and!; [done..| | |]; by apply getEnv_nonempty.
Qed.

Lemma LoadConfig_never_blank_witness :
  RecordTTL (sampleConfig "traefik.home.lab" "first") = 300%Z.
Proof.
  apply (LoadConfig_never_blank
           {| Getenv := fun key =>
                if decide (key = "DNS_TARGET") then "traefik.home.lab"
                else if decide (key = "DOMAIN") then "home.lab" else "";
              hostnameFile := None |}
           (sampleConfig "traefik.home.lab" "first")).
  vm_compute. reflexivity.
Defined.

(** X21.  The start-up is fatal exactly when no DNS target can be found:
    [DNS_TARGET] is unset and the host name file cannot be read, or is
    blank, or holds a name without a dot while [DOMAIN] is unset.  A target
    detected from the host name file always holds a dot. *)
Theorem LoadConfig_fatal_iff (env : Env) :
  (LoadConfig env = None ↔
   Getenv env "DNS_TARGET" = "" ∧
   match hostnameFile env with
   | None => True
   | Some data =>
       strings.TrimSpace data = "" ∨
       (strings.Contains (strings.TrimSpace data) "." = false ∧ Getenv env "DOMAIN" = "")
   end) ∧
  (∀ cfg, LoadConfig env = Some cfg → Getenv env "DNS_TARGET" = "" →
          strings.Contains (DNSTarget cfg) "." = true).
Proof.
  assert (∀ key, getEnv env key "" = Getenv env key) as Hget.
  { intros key. unfold getEnv. by case_decide. }
  unfold LoadConfig, detectDNSTarget. rewrite !Hget.
  case_decide as Ht.
  - simpl. split; [|done]. split; [done|]. by intros [? _].
  - try apply dec_stable in Ht. rewrite Ht.
    destruct (hostnameFile env) as [data|]; [|by split].
    case_decide as Hd.
    { split; [|done]. split; auto. }
    destruct (strings.Contains (strings.TrimSpace data) ".") eqn:Hdot.
    { simpl. split.
      - split; [done|]. intros [_ [?|[? _]]]; done.
      - by intros cfg [= <-] _. }
    case_decide as Hdom.
    + split; [|done]. split; auto.
    + simpl. split.
      * split; [done|]. intros [_ [?|[_ ?]]]; done.
      * intros cfg [= <-] _. simpl. rewrite Contains_byte. apply hasByte_append.
Qed.

Lemma LoadConfig_fatal_iff_witness :
  strings.Contains (DNSTarget fileConfig) "." = true.
Proof.
  apply (proj2 (LoadConfig_fatal_iff fileEnv) fileConfig).
  - vm_compute. reflexivity.
  - reflexivity.
Defined.

(** ** The URL of the Proxmox API *)

Lemma eqb_refl_string (s : string) : String.eqb s s = true.
Proof. by apply String.eqb_eq. Qed.

Lemma HasSuffix_append (a s : string) : stringsx.HasSuffix (a +:+ s) s = true.
Proof.
  induction a as [|c a IH]; rewrite ?append_nil, ?append_cons.
  - destruct s; simpl; [done|]. by rewrite Ascii.eqb_refl, eqb_refl_string.
  - cbn [stringsx.HasSuffix]. rewrite IH. apply orb_true_r.
Qed.

(** X22.  The URL that [NewProxmoxClient] connects to always ends with
    [/api2/json], and the normalisation is idempotent: a URL that already
    ends so is kept, any other gets the path appended after one trailing
    slash, if there is one, has been dropped. *)
Theorem apiURL_normal (url : string) :
  stringsx.HasSuffix (apiURL url) "/api2/json" = true ∧
  apiURL (apiURL url) = apiURL url.
Proof.
  unfold apiURL. destruct (stringsx.HasSuffix url "/api2/json") eqn:Hs; simpl.
  - rewrite Hs. by split.
  - rewrite HasSuffix_append. by split.
Qed.

(** ** Version and banner *)

Lemma Contains_prefix (s sub : string) :
  String.prefix sub s = true → strings.Contains s sub = true.
Proof. intros H. destruct s; cbn [strings.Contains]; by rewrite H. Qed.

(** X23.  The two views of a development build agree: the version string
    that [GetVersion] returns holds [dev] exactly when [IsDevelopmentBuild]
    says that the build is a development build. *)
Theorem GetVersion_dev_iff (b : BuildVars) :
  strings.Contains (GetVersion b) "dev" = IsDevelopmentBuild b.
Proof.
  unfold GetVersion, IsDevelopmentBuild.
  case_bool_decide as Hv; simpl; [|done].
  rewrite Hv. case_bool_decide as Hc; simpl; [|done].
  case_match; by apply Contains_prefix.
Qed.

Lemma length_append (a b : string) :
  String.length (a +:+ b) = (String.length a + String.length b)%nat.
Proof. induction a as [|c a IH]; rewrite ?append_nil, ?append_cons; simpl; [done|by rewrite IH]. Qed.

Lemma Repeat_length (n : nat) : String.length (stringsx.Repeat " " n) = n.
Proof.
  induction n as [|n IH]; [done|]. cbn [stringsx.Repeat]. by rewrite length_append, IH.
Qed.

(** X24.  The banner keeps its width: the version and the blanks put after
    it take 25 bytes together, and exactly the length of the version when
    that is longer than 25 (the count of blanks is never negative). *)
Theorem bannerPadding_width (version : string) :
  String.length (version +:+ bannerPadding version) = Nat.max 25 (String.length version).
Proof.
  unfold bannerPadding, max. rewrite length_append, Repeat_length.
  case_match eqn:H; [apply Z.ltb_lt in H|apply Z.ltb_ge in H]; lia.
Qed.

(** ** Host names found in labels *)

Lemma spanNotBacktick_no_backtick (s : string) :
  strings.hasByte "`" (regexp.spanNotBacktick s).1 = false.
Proof.
  induction s as [|c s IH]; [done|]. simpl.
  destruct (Ascii.eqb c "`") eqn:Hc; [done|].
  destruct (regexp.spanNotBacktick s) as [h r]. simpl in *. by rewrite Hc, IH.
Qed.

Lemma matchHost_host (s host rest : string) :
  regexp.matchHost s = Some (host, rest) →
  host ≠ "" ∧ strings.hasByte "`" host = false.
Proof.
  unfold regexp.matchHost. case_match; [|done].
  destruct (regexp.skipSpaces (strings.drop 5 s)) as [|c s2]; [done|].
  destruct (Ascii.ascii_dec c "`") as [->|Hc]; [|by repeat case_match].
  pose proof (spanNotBacktick_no_backtick s2) as Hspan.
  destruct (regexp.spanNotBacktick s2) as [h s3]. simpl in Hspan.
  case_decide; [done|]. intros Hm. repeat case_match; try done.
  by injection Hm as <- _.
Qed.

Lemma FindAllHosts_go_hosts (fuel : nat) (s : string) :
  Forall (fun host => host ≠ "" ∧ strings.hasByte "`" host = false)
         (regexp.FindAllHosts_go fuel s).
Proof.
  revert s. induction fuel as [|fuel IH]; intros s; [constructor|].
  simpl. destruct (regexp.matchHost s) as [[host rest]|] eqn:Hm.
  - constructor; [by eapply matchHost_host|apply IH].
  - destruct s; [constructor|apply IH].
Qed.

(** X25.  Every host name that [extractHostsFromLabels] finds is a
    non-empty string without a backtick, whatever the labels hold. *)
Theorem extractHostsFromLabels_hosts (labels : list (string * string)) :
  Forall (fun host => host ≠ "" ∧ strings.hasByte "`" host = false)
         (extractHostsFromLabels labels).
Proof.
  unfold extractHostsFromLabels. induction labels as [|[key value] labels IH]; [constructor|].
  simpl. apply Forall_app. split; [|done].
  case_match; [apply FindAllHosts_go_hosts|constructor].
Qed.

(** ** The reversal of the labels *)

(** X26.  The swap loop of [CreateDNSRecord] and [CreateDNSRecords] puts
    every label at the mirrored position: the result has the length of the
    input, and its element at index [i] is the element of the input at
    index [length - 1 - i]. *)
Theorem reverseParts_lookup (parts : list string) (i : nat) :
  length (reverseParts parts) = length parts ∧
  ((i < length parts)%nat →
   reverseParts parts !! i = parts !! (length parts - 1 - i)%nat).
Proof.
  rewrite reverseParts_reverse, length_reverse. split; [done|].
  intros Hi. rewrite reverse_lookup by done. f_equal. lia.
Qed.

Lemma reverseParts_lookup_witness :
  reverseParts ["api"; "example"; "com"] !! 0%nat = ["api"; "example"; "com"] !! 2%nat.
Proof.
  apply (reverseParts_lookup ["api"; "example"; "com"] 0). simpl. lia.
Defined.

(** ** The store after a Docker sync *)

Lemma putAll_frame (ec : EtcdClient) (hosts : list string) (w : World) (key : string) :
  (∀ host, host ∈ hosts → key ≠ basePath ec host) →
  kv (putAll ec hosts w) !! key = kv w !! key.
Proof.
  revert w. induction hosts as [|h hosts IH]; intros w Hkey; [done|].
  simpl. rewrite IH by (intros host Hin; apply Hkey; by right).
  rewrite CreateDNSRecord_run.
  destruct (faults w) as [|[] fs]; simpl; try done;
    apply lookup_insert_ne; intros Heq; by apply (Hkey h); [left|].
Qed.

(** X27.  What a Docker sync leaves in the store: when the store accepts
    the writes, every host found has the record of the DNS target at its
    key afterwards, and every key that is not the key of a host found
    holds what it held before. *)
Theorem SyncExistingContainers_store (dc : DockerClient) (w : World) :
  accepted (length (syncHosts dc)) w →
  (∀ host, host ∈ syncHosts dc →
     kv (SyncExistingContainers dc w).2 !! basePath (dc_etcdClient dc) host
     = Some (recordValue (dc_etcdClient dc))) ∧
  (∀ key, (∀ host, host ∈ syncHosts dc → key ≠ basePath (dc_etcdClient dc) host) →
     kv (SyncExistingContainers dc w).2 !! key = kv w !! key).
Proof.
  intros Hacc. rewrite SyncExistingContainers_run. split.
  - intros host Hin. by apply putAll_accepted.
  - intros key Hkey. by rewrite putAll_frame.
Qed.

Lemma SyncExistingContainers_store_witness :
  kv (SyncExistingContainers
        (sampleDocker [("traefik.http.routers.a.rule", "Host(`a.com`)")]) emptyWorld).2
    !! basePath (sampleEtcd "traefik.home.lab") "a.com"
  = Some (recordValue (sampleEtcd "traefik.home.lab")).
Proof.
  apply (SyncExistingContainers_store
           (sampleDocker [("traefik.http.routers.a.rule", "Host(`a.com`)")]) emptyWorld).
  - unfold accepted. simpl faults. rewrite take_nil. constructor.
  - vm_compute. by left.
Defined.
